(** * Verification of the subreddit scanner's request pipeline

    A shallow embedding of [src/scanner]: the sliding-window rate limiter
    ([rate_limiter.py]), the API client's retry loop ([reddit_client.py]),
    the SQLite store ([database.py]) and the scan orchestrator
    ([scanner.py]), followed by the properties of the specification that
    were checked against them. *)

From Stdlib Require Import QArith Qminmax Qabs Qpower Lqa Ascii String.
From stdpp Require Import gmap strings list fin_maps sorting.

Local Open Scope Z_scope.

(** Strict comparison on rationals as a boolean ([x < y] in Python). *)
Definition Qlt_bool (x y : Q) : bool := negb (Qle_bool y x).

(** ** rate_limiter.py *)

Module RateLimiter.

(** [SlidingWindowRateLimiter]: the three capacities, the three deques of
    timestamps (oldest at the head, [append] adds at the end) and the
    statistics.  Timestamps are the readings of [time.time()]; they are kept
    as exact rationals, so the model follows a simulated clock without
    rounding.  The [asyncio.Lock] is left out: the scanner is the only
    caller and awaits every call. *)
Record t := mk {
  requests_per_minute : Z;
  requests_per_10s : Z;
  requests_per_1s : Z;
  window_60s : list Q;
  window_10s : list Q;
  window_1s : list Q;
  total_requests : Z;
  total_wait_time : Q;
  requests_blocked : Z
}.

(** [__init__]: empty windows, zeroed statistics. *)
Definition init (per_minute per_10s per_1s : Z) : t :=
  mk per_minute per_10s per_1s [] [] [] 0 0%Q 0.

(** The clock is the sequence of values the next calls of [time.time()]
    return; every call consumes one reading. *)
Abbreviation clock := (list Q).

(** Outcome of a computation: a returned value, the [IndexError] of
    [window[0]] on an empty deque, or [Stuck] when the model has no clock
    reading (or no loop fuel) left. *)
Inductive result (A : Type) : Type :=
  | Return (a : A)
  | IndexError
  | Stuck.
Arguments Return {A} a.
Arguments IndexError {A}.
Arguments Stuck {A}.

(** State passing over the limiter object and the clock; the state
    survives an exception. *)
Definition M (A : Type) : Type := t * clock -> result A * (t * clock).

Definition ret {A} (a : A) : M A := fun s => (Return a, s).

Definition bind {A B} (m : M A) (k : A -> M B) : M B :=
  fun s =>
    match m s with
    | (Return a, s') => k a s'
    | (IndexError, s') => (IndexError, s')
    | (Stuck, s') => (Stuck, s')
    end.

Notation "'let*' x ':=' m 'in' k" := (bind m (fun x => k))
  (at level 10, x name, m at level 100, k at level 200).

Definition get : M t := fun s => (Return (fst s), s).
Definition modify (f : t -> t) : M unit := fun s => (Return tt, (f (fst s), snd s)).
Definition raise_IndexError {A} : M A := fun s => (IndexError, s).
Definition stuck {A} : M A := fun s => (Stuck, s).

(** [time.time()] *)
Definition time_time : M Q :=
  fun s =>
    match snd s with
    | [] => (Stuck, s)
    | now :: c => (Return now, (fst s, c))
    end.

(** [await asyncio.sleep(d)]: no effect on the limiter; the time that
    passes shows in the later clock readings. *)
Definition sleep (d : Q) : M unit := ret tt.

Definition set_window_60s (w : list Q) (l : t) : t :=
  mk (requests_per_minute l) (requests_per_10s l) (requests_per_1s l)
     w (window_10s l) (window_1s l)
     (total_requests l) (total_wait_time l) (requests_blocked l).
Definition set_window_10s (w : list Q) (l : t) : t :=
  mk (requests_per_minute l) (requests_per_10s l) (requests_per_1s l)
     (window_60s l) w (window_1s l)
     (total_requests l) (total_wait_time l) (requests_blocked l).
Definition set_window_1s (w : list Q) (l : t) : t :=
  mk (requests_per_minute l) (requests_per_10s l) (requests_per_1s l)
     (window_60s l) (window_10s l) w
     (total_requests l) (total_wait_time l) (requests_blocked l).

(** [while window and window[0] < cutoff: window.popleft()] *)
Fixpoint popleft_while (cutoff : Q) (window : list Q) : list Q :=
  match window with
  | [] => []
  | x :: w => if Qlt_bool x cutoff then popleft_while cutoff w else window
  end.

(** [_cleanup_window(window, max_age)]: reads the clock itself; the pruned
    deque is returned and stored back by the caller, which models the
    mutation of the deque passed by reference. *)
Definition _cleanup_window (window : list Q) (max_age : Q) : M (list Q) :=
  let* now := time_time in
  let cutoff := (now - max_age)%Q in
  ret (popleft_while cutoff window).

(** [window[0]] *)
Definition oldest_of (window : list Q) : M Q :=
  match window with
  | [] => raise_IndexError
  | oldest :: _ => ret oldest
  end.

(** [max(wait_times)] on a non-empty list. *)
Definition max_list (d : Q) (ws : list Q) : Q := fold_left Qmax ws d.

(** [max(wait_times) if wait_times else 0] *)
Definition max_or_zero (wait_times : list Q) : Q :=
  match wait_times with
  | [] => 0%Q
  | w :: ws => max_list w ws
  end.

(** One [if len(window) >= capacity: wait_times.append((window[0] + h) - now)]. *)
Definition check_window (window : list Q) (capacity : Z) (horizon now : Q)
    (wait_times : list Q) : M (list Q) :=
  if (capacity <=? Z.of_nat (length window))%Z then
    let* oldest := oldest_of window in
    ret (wait_times ++ [((oldest + horizon) - now)%Q])
  else ret wait_times.

(** [_get_wait_time] *)
Definition _get_wait_time : M Q :=
  let* now := time_time in
  let* l := get in
  let* w60 := _cleanup_window (window_60s l) 60 in
  let* _ := modify (set_window_60s w60) in
  let* w10 := _cleanup_window (window_10s l) 10 in
  let* _ := modify (set_window_10s w10) in
  let* w1 := _cleanup_window (window_1s l) 1 in
  let* _ := modify (set_window_1s w1) in
  let* l := get in
  let* wt := check_window (window_60s l) (requests_per_minute l) 60 now [] in
  let* wt := check_window (window_10s l) (requests_per_10s l) 10 now wt in
  let* wt := check_window (window_1s l) (requests_per_1s l) 1 now wt in
  ret (max_or_zero wt).

(** The granted branch of [acquire]: [now] is appended to the three deques
    and the statistics are updated. *)
Definition record_grant (now start_time : Q) (l : t) : t :=
  mk (requests_per_minute l) (requests_per_10s l) (requests_per_1s l)
     (window_60s l ++ [now]) (window_10s l ++ [now]) (window_1s l ++ [now])
     (total_requests l + 1)
     (total_wait_time l + (now - start_time))%Q
     (requests_blocked l).

Definition incr_blocked (l : t) : t :=
  mk (requests_per_minute l) (requests_per_10s l) (requests_per_1s l)
     (window_60s l) (window_10s l) (window_1s l)
     (total_requests l) (total_wait_time l) (requests_blocked l + 1).

(** The [while True] loop of [acquire]; [fuel] bounds the iterations. *)
Fixpoint acquire_loop (fuel : nat) (timeout : option Q) (start_time : Q) : M bool :=
  match fuel with
  | O => stuck
  | S fuel' =>
      let* wait_time := _get_wait_time in
      if Qle_bool wait_time 0 then
        let* now := time_time in
        let* _ := modify (record_grant now start_time) in
        ret true
      else
        match timeout with
        | Some tmo =>
            let* t1 := time_time in
            let elapsed := (t1 - start_time)%Q in
            if Qlt_bool tmo (elapsed + wait_time) then
              let* _ := modify incr_blocked in
              ret false
            else
              let* _ := modify incr_blocked in
              let* _ := sleep wait_time in
              acquire_loop fuel' timeout start_time
        | None =>
            let* _ := modify incr_blocked in
            let* _ := sleep wait_time in
            acquire_loop fuel' timeout start_time
        end
  end.

(** [acquire(timeout)].  Every iteration of the loop reads the clock, so
    one unit of fuel per pending reading is enough: the function is stuck
    only when the clock has no reading left. *)
Definition acquire (timeout : option Q) : M bool :=
  fun s =>
    (let* start_time := time_time in
     acquire_loop (S (length (snd s))) timeout start_time) s.

(** [n] successive calls of [acquire], with their answers. *)
Fixpoint acquire_many (n : nat) (timeout : option Q) : M (list bool) :=
  match n with
  | O => ret []
  | S n' =>
      let* b := acquire timeout in
      let* bs := acquire_many n' timeout in
      ret (b :: bs)
  end.

(** *** Statistics and reset *)

(** [reset] *)
Definition reset (l : t) : t :=
  mk (requests_per_minute l) (requests_per_10s l) (requests_per_1s l) [] [] [] 0 0%Q 0.

(** The dict [get_stats] returns. *)
Record stats := mk_stats {
  stats_total_requests : Z;
  stats_requests_blocked : Z;
  avg_wait_time : Q;
  current_60s_count : Z;
  current_10s_count : Z;
  current_1s_count : Z
}.

(** [get_stats] *)
Definition get_stats (l : t) : stats :=
  let avg_wait :=
    if 0 <? total_requests l
    then (total_wait_time l / inject_Z (total_requests l))%Q
    else 0%Q in
  mk_stats (total_requests l) (requests_blocked l) avg_wait
    (Z.of_nat (length (window_60s l)))
    (Z.of_nat (length (window_10s l)))
    (Z.of_nat (length (window_1s l))).

(** [wait_if_needed] *)
Definition wait_if_needed : M bool := acquire None.

End RateLimiter.

(** [ExponentialBackoff].  Delays are exact rationals, as the timestamps
    of the limiter are; of the float arithmetic only the [OverflowError] of
    [**] is kept. *)
Module ExponentialBackoff.

Record t := mk {
  base_delay : Q;
  max_delay : Q;
  multiplier : Q;
  jitter : bool;
  current_attempt : nat
}.

(** [__init__] with its default arguments. *)
Definition init : t := mk 1 60 2 true 0.

(** The largest finite float, [(2 - 2^-52) * 2^1023]. *)
Definition float_max : Q := inject_Z (2 ^ 1024 - 2 ^ 971).

(** [x ** n] for a float [x] and an integer [n >= 0]: [None] is the
    [OverflowError] of a result beyond the floats. *)
Definition float_pow (x : Q) (n : nat) : option Q :=
  let y := (x ^ Z.of_nat n)%Q in
  if Qlt_bool float_max (Qabs y) then None else Some y.

(** [min(a, b)] of Python: [b] when [b < a], [a] otherwise. *)
Definition py_min (a b : Q) : Q := if Qlt_bool b a then b else a.

(** [get_delay]; [uniform] is the value [random.uniform(0.75, 1.25)]
    draws when the jitter is on. *)
Definition get_delay (uniform : Q) (b : t) : option Q :=
  power ← float_pow (multiplier b) (current_attempt b);
  let delay := py_min (base_delay b * power)%Q (max_delay b) in
  Some (if jitter b then (delay * uniform)%Q else delay).

(** [wait]: the delay slept, and the backoff with the next attempt. *)
Definition wait (uniform : Q) (b : t) : option (Q * t) :=
  delay ← get_delay uniform b;
  Some (delay,
        mk (base_delay b) (max_delay b) (multiplier b) (jitter b) (S (current_attempt b))).

(** [reset] *)
Definition reset (b : t) : t :=
  mk (base_delay b) (max_delay b) (multiplier b) (jitter b) 0.

End ExponentialBackoff.

(** ** JSON payloads as Python sees them *)

#[local] Set Warnings "-register-all".

(** The value [response.json()] returns.  [JNull] is Python's [None];
    [JObj] is a [dict], kept as an association list in which the first
    binding of a key counts. *)
Inductive json : Type :=
  | JNull
  | JBool (b : bool)
  | JNum (q : Q)
  | JStr (s : string)
  | JArr (items : list json)
  | JObj (fields : list (string * json)).

#[local] Set Warnings "register-all".

(** A Python [dict] with string keys. *)
Abbreviation pydict := (list (string * json)).

Fixpoint dict_lookup (key : string) (d : pydict) : option json :=
  match d with
  | [] => None
  | (k, v) :: d' => if String.eqb k key then Some v else dict_lookup key d'
  end.

(** [d.get(key, default)] *)
Definition dict_get (key : string) (default : json) (d : pydict) : json :=
  match dict_lookup key d with
  | Some v => v
  | None => default
  end.

(** [key in d] *)
Definition dict_has (key : string) (d : pydict) : bool :=
  match dict_lookup key d with
  | Some _ => true
  | None => false
  end.

(** Truth value of a Python object ([if x:], [x or y]). *)
Definition truthy (j : json) : bool :=
  match j with
  | JNull => false
  | JBool b => b
  | JNum q => negb (Qeq_bool q 0)
  | JStr s => negb (String.eqb s "")
  | JArr items => match items with [] => false | _ => true end
  | JObj fields => match fields with [] => false | _ => true end
  end.

(** [j == n] for an integer literal [n]. *)
Definition eq_int (j : json) (n : Z) : bool :=
  match j with
  | JNum q => Qeq_bool q (inject_Z n)
  | JBool b => Z.eqb (if b then 1 else 0) n
  | _ => false
  end.

(** [j == s] for a string literal [s]. *)
Definition eq_str (j : json) (s : string) : bool :=
  match j with
  | JStr s' => String.eqb s' s
  | _ => false
  end.

(** [s in j] for a string [s]: key test on a dict, element test on a list,
    substring test on a string; [None] is the [TypeError] of the other
    types. *)
Definition py_in (s : string) (j : json) : option bool :=
  match j with
  | JObj fields => Some (dict_has s fields)
  | JArr items => Some (existsb (fun x => eq_str x s) items)
  | JStr text => Some (match String.index 0 s text with Some _ => true | None => false end)
  | JNull | JBool _ | JNum _ => None
  end.

(** [j[s]] for a string [s]: [None] is the [KeyError] of a dict without the
    key or the [TypeError] of the other types. *)
Definition py_getitem (s : string) (j : json) : option json :=
  match j with
  | JObj fields => dict_lookup s fields
  | _ => None
  end.

(** [j.get(s, default)]: [None] is the [AttributeError] of a value that is
    not a dict. *)
Definition py_get (s : string) (default : json) (j : json) : option json :=
  match j with
  | JObj fields => Some (dict_get s default fields)
  | _ => None
  end.

(** ** reddit_client.py *)

Module Client.

(** What [response.headers.get('Retry-After', 60)] followed by [int(...)]
    meets: no header, a header text that [int] converts to [n], or a text
    on which [int] raises [ValueError]. *)
Inductive retry_after_header : Type :=
  | NoRetryAfter
  | RetryAfterInt (n : Z)
  | RetryAfterBad.

(** What one call of [self.client.request] does: it raises a transport
    exception, or it returns a response with a status code, a Retry-After
    header and a body ([None] when [response.json()] raises). *)
Inductive net_outcome : Type :=
  | TransportError
  | Response (status_code : Z) (retry_after : retry_after_header) (body : option json).

(** What one call of [_authenticate] does: it stores a fresh token, or
    [raise_for_status] raises [HTTPStatusError] on the token endpoint's answer,
    or another exception is raised (transport, JSON, missing key). *)
Inductive auth_outcome : Type :=
  | AuthOk (tok : string)
  | AuthStatusError (status : Z)
  | AuthError.

(** The environment of the client: the answers of the network, of the
    token endpoint, of the wall clock ([datetime.now() >= token_expires]) and
    of the random generator ([random.random() > 0.2] and the index
    [random.choice] draws), each indexed by the number of earlier calls. *)
Record world := {
  net : nat -> net_outcome;
  auth : nat -> auth_outcome;
  token_expired : nat -> bool;
  skip_diversity : nat -> bool;
  endpoint_choice : nat -> nat
}.

(** Effects of the client that are visible from outside, in order. *)
Inductive event : Type :=
  | EvAuthenticate
  | EvAcquire
  | EvRandomDelay
  | EvRequest (url : string)
  | EvSleep (seconds : Z)
  | EvBackoffWait (current_attempt : nat).

(** [RedditAPIClient]: the token, the diversity switch and the statistics
    of the Python object; [n_request], [n_auth], [n_clock] and [n_random]
    count the calls made to the environment, [trace] records the effects. *)
Record t := mk {
  token : option string;
  request_diversity : bool;
  total_requests : Z;
  failed_requests : Z;
  rate_limit_hits : Z;
  diversity_requests : Z;
  n_request : nat;
  n_auth : nat;
  n_clock : nat;
  n_random : nat;
  trace : list event
}.

Definition set_token (v : option string) (c : t) : t :=
  mk v (request_diversity c) (total_requests c) (failed_requests c)
     (rate_limit_hits c) (diversity_requests c)
     (n_request c) (n_auth c) (n_clock c) (n_random c) (trace c).
Definition incr_total_requests (c : t) : t :=
  mk (token c) (request_diversity c) (total_requests c + 1) (failed_requests c)
     (rate_limit_hits c) (diversity_requests c)
     (n_request c) (n_auth c) (n_clock c) (n_random c) (trace c).
Definition incr_failed_requests (c : t) : t :=
  mk (token c) (request_diversity c) (total_requests c) (failed_requests c + 1)
     (rate_limit_hits c) (diversity_requests c)
     (n_request c) (n_auth c) (n_clock c) (n_random c) (trace c).
Definition incr_rate_limit_hits (c : t) : t :=
  mk (token c) (request_diversity c) (total_requests c) (failed_requests c)
     (rate_limit_hits c + 1) (diversity_requests c)
     (n_request c) (n_auth c) (n_clock c) (n_random c) (trace c).
Definition incr_diversity_requests (c : t) : t :=
  mk (token c) (request_diversity c) (total_requests c) (failed_requests c)
     (rate_limit_hits c) (diversity_requests c + 1)
     (n_request c) (n_auth c) (n_clock c) (n_random c) (trace c).
Definition next_request (c : t) : t :=
  mk (token c) (request_diversity c) (total_requests c) (failed_requests c)
     (rate_limit_hits c) (diversity_requests c)
     (S (n_request c)) (n_auth c) (n_clock c) (n_random c) (trace c).
Definition next_auth (c : t) : t :=
  mk (token c) (request_diversity c) (total_requests c) (failed_requests c)
     (rate_limit_hits c) (diversity_requests c)
     (n_request c) (S (n_auth c)) (n_clock c) (n_random c) (trace c).
Definition next_clock (c : t) : t :=
  mk (token c) (request_diversity c) (total_requests c) (failed_requests c)
     (rate_limit_hits c) (diversity_requests c)
     (n_request c) (n_auth c) (S (n_clock c)) (n_random c) (trace c).
Definition next_random (c : t) : t :=
  mk (token c) (request_diversity c) (total_requests c) (failed_requests c)
     (rate_limit_hits c) (diversity_requests c)
     (n_request c) (n_auth c) (n_clock c) (S (n_random c)) (trace c).
Definition emit (e : event) (c : t) : t :=
  mk (token c) (request_diversity c) (total_requests c) (failed_requests c)
     (rate_limit_hits c) (diversity_requests c)
     (n_request c) (n_auth c) (n_clock c) (n_random c) (trace c ++ [e]).

(** [__init__] *)
Definition init (diversity : bool) : t :=
  mk None diversity 0 0 0 0 0%nat 0%nat 0%nat 0%nat [].

(** Exceptions the client distinguishes: [httpx.HTTPStatusError] with the
    status code of its response, and every other [Exception]. *)
Inductive exn : Type :=
  | HTTPStatusError (status : Z)
  | OtherError.

(** A call either returns or raises; the state is kept in both cases. *)
Inductive outcome (A : Type) : Type :=
  | Returns (a : A)
  | Raises (e : exn).
Arguments Returns {A} a.
Arguments Raises {A} e.

(** [_authenticate]: on failure the exception is logged and raised again,
    the token being as before the call. *)
Definition _authenticate (w : world) (c : t) : outcome unit * t :=
  let c1 := next_auth (emit EvAuthenticate c) in
  match auth w (n_auth c) with
  | AuthOk tok => (Returns tt, set_token (Some tok) c1)
  | AuthStatusError status => (Raises (HTTPStatusError status), c1)
  | AuthError => (Raises OtherError, c1)
  end.

(** [not self.token]: no token, or an empty one. *)
Definition token_missing (c : t) : bool :=
  match token c with
  | None => true
  | Some tok => String.eqb tok ""
  end.

(** [_ensure_token_valid]: [token_expires] is set together with [token] by
    [_authenticate], so the first test is on the token; otherwise the wall
    clock decides. *)
Definition _ensure_token_valid (w : world) (c : t) : outcome unit * t :=
  if token_missing c then _authenticate w c
  else if token_expired w (n_clock c) then _authenticate w (next_clock c)
  else (Returns tt, next_clock c).

(** [ExponentialBackoff.wait]: sleeps for the delay of [current_attempt],
    then increments it; the counter of the per-call instance is threaded
    through the loop. *)
Definition backoff_wait (current_attempt : nat) (c : t) : nat * t :=
  (S current_attempt, emit (EvBackoffWait current_attempt) c).

(** [response.raise_for_status()] returns for a 2xx status and raises
    [HTTPStatusError] otherwise. *)
Definition is_success (status_code : Z) : bool :=
  (200 <=? status_code) && (status_code <=? 299).

(** The dict [{'_http_status': code}] returned "for differentiation". *)
Definition http_status_marker (code : Z) : json :=
  JObj [("_http_status"%string, JNum (inject_Z code))].

(** What the body of one loop iteration asks for: leave [_make_request]
    with a value, or go to the next iteration ([continue]) with the backoff
    counter. *)
Inductive step : Type :=
  | Done (value : json)
  | Continue (backoff : nat).

(** [except httpx.HTTPStatusError as e:] *)
Definition on_status_error (status : Z) (backoff : nat) (c : t) : step * t :=
  let c := incr_failed_requests c in
  if status =? 404 then (Done (http_status_marker 404), c)
  else if status =? 403 then (Done (http_status_marker 403), c)
  else if 500 <=? status then
    let '(b, c) := backoff_wait backoff c in (Continue b, c)
  else (Done JNull, c).

(** [except Exception as e:] *)
Definition on_other_error (attempt max_retries : nat) (backoff : nat) (c : t) : step * t :=
  let c := incr_failed_requests c in
  if Z.of_nat attempt <? Z.of_nat max_retries - 1 then
    let '(b, c) := backoff_wait backoff c in (Continue b, c)
  else (Done JNull, c).

Definition on_exception (e : exn) (attempt max_retries : nat) (backoff : nat) (c : t) : step * t :=
  match e with
  | HTTPStatusError status => on_status_error status backoff c
  | OtherError => on_other_error attempt max_retries backoff c
  end.

(** The [try] body and its handlers for one [attempt].  The limiter's
    [acquire()] and the random delay are effects that return: called without
    timeout on a limiter with capacities of at least one, [acquire] neither
    answers [False] nor raises (see [acquire_without_timeout] and
    [acquire_no_error] below). *)
Definition attempt_body (w : world) (url : string) (attempt max_retries : nat)
    (backoff : nat) (c : t) : step * t :=
  let c := emit EvRandomDelay (emit EvAcquire c) in
  let outcome := net w (n_request c) in
  let c := next_request (emit (EvRequest url) c) in
  match outcome with
  | TransportError => on_other_error attempt max_retries backoff c
  | Response status_code retry_after body =>
      let c := incr_total_requests c in
      if status_code =? 429 then
        match retry_after with
        | RetryAfterBad => on_other_error attempt max_retries backoff c
        | RetryAfterInt n =>
            (Continue backoff, emit (EvSleep n) (incr_rate_limit_hits c))
        | NoRetryAfter =>
            (Continue backoff, emit (EvSleep 60) (incr_rate_limit_hits c))
        end
      else if status_code =? 401 then
        match _authenticate w (set_token None c) with
        | (Returns _, c) => (Continue backoff, c)
        | (Raises e, c) => on_exception e attempt max_retries backoff c
        end
      else if status_code =? 302 then (Done JNull, c)
      else if is_success status_code then
        match body with
        | Some j => (Done j, c)
        | None => on_other_error attempt max_retries backoff c
        end
      else on_status_error status_code backoff c
  end.

(** [for attempt in range(max_retries):] with [remaining] iterations left;
    falling out of the loop returns [None]. *)
Fixpoint attempts (w : world) (url : string) (max_retries : nat)
    (remaining : nat) (backoff : nat) (c : t) : json * t :=
  match remaining with
  | O => (JNull, c)
  | S remaining' =>
      let attempt := (max_retries - remaining)%nat in
      match attempt_body w url attempt max_retries backoff c with
      | (Done value, c) => (value, c)
      | (Continue backoff, c) => attempts w url max_retries remaining' backoff c
      end
  end.

(** [_make_request(method, url, max_retries)]: [_ensure_token_valid] runs
    outside the [try], so its exception leaves the function. *)
Definition _make_request (w : world) (url : string) (max_retries : nat) (c : t)
    : outcome json * t :=
  match _ensure_token_valid w c with
  | (Raises e, c) => (Raises e, c)
  | (Returns _, c) =>
      let '(value, c) := attempts w url max_retries max_retries 0%nat c in
      (Returns value, c)
  end.

Definition diversity_endpoints : list string :=
  [ "https://oauth.reddit.com/hot";
    "https://oauth.reddit.com/new";
    "https://oauth.reddit.com/r/all/hot?limit=5";
    "https://oauth.reddit.com/r/popular/hot?limit=5" ]%string.

(** [_make_diversity_request]: the [try] swallows every exception of the
    cover request. *)
Definition _make_diversity_request (w : world) (c : t) : outcome unit * t :=
  if negb (request_diversity c) then (Returns tt, c)
  else
    let skip := skip_diversity w (n_random c) in
    let c := next_random c in
    if skip then (Returns tt, c)
    else
      let i := (endpoint_choice w (n_random c) mod length diversity_endpoints)%nat in
      let endpoint := nth i diversity_endpoints ""%string in
      let c := next_random c in
      match _make_request w endpoint 1 c with
      | (Returns _, c) => (Returns tt, incr_diversity_requests c)
      | (Raises _, c) => (Returns tt, c)
      end.

(** The statements of [get_subreddit_info] after [_make_request] returned
    [data], inside the [try]; [None] stands for an exception they raise. *)
Definition classify (data : json) : option (json * string) :=
  match data with
  | JNull => Some (JNull, "error"%string)
  | _ =>
      let marker :=
        match data with
        | JObj fields =>
            match dict_lookup "_http_status" fields with
            | Some v =>
                if eq_int v 404 then Some (JNull, "notfound"%string)
                else if eq_int v 403 then Some (JNull, "deleted"%string)
                else None
            | None => None
            end
        | _ => None
        end in
      match marker with
      | Some r => Some r
      | None =>
          if truthy data then
            match py_in "data" data with
            | None => None
            | Some false => Some (JNull, "error"%string)
            | Some true =>
                match py_getitem "data" data with
                | None => None
                | Some subreddit_data =>
                    match py_get "quarantine" (JBool false) subreddit_data with
                    | None => None
                    | Some quarantine =>
                        if truthy quarantine then Some (subreddit_data, "quarantined"%string)
                        else
                          match py_get "subreddit_type" (JStr "public") subreddit_data with
                          | None => None
                          | Some sub_type =>
                              if eq_str sub_type "private"
                              then Some (subreddit_data, "private"%string)
                              else Some (subreddit_data, "active"%string)
                          end
                    end
                end
            end
          else Some (JNull, "error"%string)
      end
  end.

Definition about_url (subreddit : string) : string :=
  ("https://oauth.reddit.com/r/" ++ subreddit ++ "/about")%string.

(** [get_subreddit_info(subreddit)]: the pair (metadata, status), with
    [JNull] for a metadata of [None].  The diversity request runs before the
    [try]; [_make_request] and the classification run inside it. *)
Definition get_subreddit_info (w : world) (subreddit : string) (c : t)
    : outcome (json * string) * t :=
  match _make_diversity_request w c with
  | (Raises e, c) => (Raises e, c)
  | (Returns _, c) =>
      let url := about_url subreddit in
      match _make_request w url 3 c with
      | (Raises _, c) => (Returns (JNull, "error"%string), c)
      | (Returns data, c) =>
          match classify data with
          | Some r => (Returns r, c)
          | None => (Returns (JNull, "error"%string), c)
          end
      end
  end.

(** *** Statistics *)

(** The dict [get_stats] returns. *)
Record stats := mk_stats {
  stats_total_requests : Z;
  stats_failed_requests : Z;
  stats_rate_limit_hits : Z;
  stats_diversity_requests : Z;
  success_rate : Q
}.

(** [get_stats] *)
Definition get_stats (c : t) : stats :=
  mk_stats (total_requests c) (failed_requests c) (rate_limit_hits c)
    (diversity_requests c)
    (if 0 <? total_requests c
     then (inject_Z (total_requests c - failed_requests c) / inject_Z (total_requests c))%Q
     else 0%Q).

End Client.

(** ** database.py *)

Module Database.

(** [str.lower()] and [str.strip()] on the ASCII names the scanner handles. *)
Definition lower_ascii (a : ascii) : ascii :=
  let n := nat_of_ascii a in
  if ((65 <=? n) && (n <=? 90))%nat then ascii_of_nat (n + 32) else a.

Fixpoint lower (s : string) : string :=
  match s with
  | EmptyString => EmptyString
  | String a s' => String (lower_ascii a) (lower s')
  end.

Definition is_space (a : ascii) : bool :=
  let n := nat_of_ascii a in
  ((n =? 32) || ((9 <=? n) && (n <=? 13)))%nat.

Fixpoint lstrip (s : string) : string :=
  match s with
  | EmptyString => EmptyString
  | String a s' => if is_space a then lstrip s' else s
  end.

Fixpoint rstrip (s : string) : string :=
  match s with
  | EmptyString => EmptyString
  | String a s' =>
      match rstrip s' with
      | EmptyString => if is_space a then EmptyString else String a EmptyString
      | rest => String a rest
      end
  end.

Definition strip (s : string) : string := rstrip (lstrip s).

(** A value stored in a column: NULL, a number, a text, or the text
    [html.unescape(s)], kept symbolically. *)
Inductive cell : Type :=
  | CNull
  | CNum (q : Q)
  | CText (s : string)
  | CUnescaped (s : string).

(** Binding a Python value as a query parameter: [None], numbers, booleans
    and strings are bound; a list or a dict makes [execute] raise. *)
Definition to_cell (j : json) : option cell :=
  match j with
  | JNull => Some CNull
  | JBool b => Some (CNum (if b then 1 else 0))
  | JNum q => Some (CNum q)
  | JStr s => Some (CText s)
  | JArr _ | JObj _ => None
  end.

(** [_decode_html_entities(text)] followed by the binding: a falsy value is
    passed on as it is, a string is unescaped, anything else makes
    [html.unescape] or the binding raise. *)
Definition _decode_html_entities (j : json) : option cell :=
  if negb (truthy j) then to_cell j
  else
    match j with
    | JStr s => Some (CUnescaped s)
    | _ => None
    end.

(** The columns of [subreddits] above the status block of the schema. *)
Record payload := mk_payload {
  title : cell;
  description : cell;
  subscribers : cell;
  active_users : cell;
  over_18 : cell;
  subreddit_type : cell;
  created_utc : cell;
  icon_url : cell;
  primary_color : cell;
  advertiser_category : cell;
  submission_type : cell;
  allow_images : cell;
  allow_videos : cell;
  allow_galleries : cell;
  allow_videogifs : cell;
  allow_polls : cell;
  link_flair_enabled : cell;
  spoilers_enabled : cell;
  whitelist_status : cell;
  category : cell;
  tags : cell;
  language : cell
}.

(** A row of [subreddits]; the primary key [name] is the key of the map
    that holds the rows. *)
Record row := mk_row {
  data : payload;
  status : string;
  is_accessible : Z;
  last_updated : option Z;
  retry_count : option Z;
  error_message : option string;
  metadata_collected : bool
}.

(** The table [subreddits]. *)
Abbreviation table := (gmap string row).

(** The column defaults of the schema. *)
Definition default_payload : payload :=
  mk_payload CNull CNull CNull CNull CNull CNull CNull CNull CNull CNull CNull
    (CNum 1) (CNum 1) (CNum 0) (CNum 0) (CNum 0) (CNum 0) (CNum 0)
    CNull CNull CNull (CText "en").

(** The row [INSERT ... (name, status, metadata_collected) VALUES (?, 'pending', 0)] creates. *)
Definition pending_row : row :=
  mk_row default_payload "pending" 1 None (Some 0) None false.

(** [add_subreddit(name)]: [INSERT OR IGNORE]; the answer is [rowcount > 0]. *)
Definition add_subreddit (name : string) (db : table) : bool * table :=
  match db !! lower name with
  | Some _ => (false, db)
  | None => (true, <[lower name := pending_row]> db)
  end.

(** The assignments of the [UPDATE] in [update_subreddit_metadata]; [None]
    when evaluating or binding a parameter raises. *)
Definition metadata_update (metadata : pydict) (now : Z) (r : row) : option row :=
  v_title ← to_cell (dict_get "title" JNull metadata);
  v_description ← _decode_html_entities (dict_get "public_description" JNull metadata);
  v_subscribers ← to_cell (dict_get "subscribers" JNull metadata);
  v_active_users ← to_cell (dict_get "active_user_count" JNull metadata);
  v_over_18 ← to_cell (dict_get "over18" (JBool false) metadata);
  v_subreddit_type ← to_cell (dict_get "subreddit_type" JNull metadata);
  v_created_utc ← to_cell (dict_get "created_utc" JNull metadata);
  v_icon_url ← _decode_html_entities (dict_get "community_icon" JNull metadata);
  v_primary_color ← to_cell (dict_get "primary_color" JNull metadata);
  v_advertiser_category ← to_cell (dict_get "advertiser_category" JNull metadata);
  v_submission_type ← to_cell (dict_get "submission_type" JNull metadata);
  v_allow_images ← to_cell (dict_get "allow_images" (JBool true) metadata);
  v_allow_videos ← to_cell (dict_get "allow_videos" (JBool true) metadata);
  v_allow_galleries ← to_cell (dict_get "allow_galleries" (JBool false) metadata);
  v_allow_videogifs ← to_cell (dict_get "allow_videogifs" (JBool false) metadata);
  v_allow_polls ← to_cell (dict_get "allow_polls" (JBool false) metadata);
  v_link_flair_enabled ← to_cell (dict_get "link_flair_enabled" (JBool false) metadata);
  v_spoilers_enabled ← to_cell (dict_get "spoilers_enabled" (JBool false) metadata);
  v_whitelist_status ← to_cell (dict_get "wls" JNull metadata);
  v_language ← to_cell (dict_get "lang" (JStr "en") metadata);
  Some (mk_row
          (mk_payload v_title v_description v_subscribers v_active_users v_over_18
             v_subreddit_type v_created_utc v_icon_url v_primary_color
             v_advertiser_category v_submission_type v_allow_images v_allow_videos
             v_allow_galleries v_allow_videogifs v_allow_polls v_link_flair_enabled
             v_spoilers_enabled v_whitelist_status
             (category (data r)) (tags (data r)) v_language)
          "active" 1 (Some now) (retry_count r) None (metadata_collected r)).

(** [update_subreddit_metadata(name, metadata)] at time [now]: an exception
    rolls the transaction back and the answer is [False]. *)
Definition update_subreddit_metadata (name : string) (metadata : pydict) (now : Z)
    (db : table) : bool * table :=
  match db !! lower name with
  | None =>
      match metadata_update metadata now pending_row with
      | Some _ => (true, db)
      | None => (false, db)
      end
  | Some r =>
      match metadata_update metadata now r with
      | Some r' => (true, <[lower name := r']> db)
      | None => (false, db)
      end
  end.

Definition set_status_fields (new_status : string) (accessible : Z)
    (message : option string) (r : row) : row :=
  mk_row (data r) new_status accessible (last_updated r) (retry_count r)
         message (metadata_collected r).

(** [update_subreddit_status(name, status, error_message)] *)
Definition update_subreddit_status (name : string) (new_status : string)
    (message : option string) (db : table) : table :=
  let accessible :=
    if String.eqb new_status "active" || String.eqb new_status "pending" then 1 else 0 in
  alter (set_status_fields new_status accessible message) (lower name) db.

Definition set_processing_fields (new_status : string) (message : option string)
    (collected : option bool) (r : row) : row :=
  mk_row (data r) new_status (is_accessible r) (last_updated r) (retry_count r)
         message
         (match collected with
          | Some b => b
          | None => metadata_collected r
          end).

(** [update_subreddit(subreddit, status, error_message, metadata_collected)] *)
Definition update_subreddit (subreddit : string) (new_status : string)
    (message : option string) (collected : option bool) (db : table) : table :=
  alter (set_processing_fields new_status message collected) (lower subreddit) db.

Definition set_retry_count (n : option Z) (r : row) : row :=
  mk_row (data r) (status r) (is_accessible r) (last_updated r) n
         (error_message r) (metadata_collected r).

(** [UPDATE subreddits SET retry_count = ? WHERE name = ?] *)
Definition update_retry_count (name : string) (n : Z) (db : table) : table :=
  alter (set_retry_count (Some n)) name db.

(** [DELETE FROM subreddits WHERE name = ?] *)
Definition delete_subreddit (name : string) (db : table) : table :=
  delete name db.

(** [SELECT retry_count ...] with [row[0] if row and row[0] is not None else 0]. *)
Definition select_retry_count (name : string) (db : table) : Z :=
  match db !! name with
  | Some r =>
      match retry_count r with
      | Some n => n
      | None => 0
      end
  | None => 0
  end.

Definition pending_with_metadata (r : row) : bool :=
  String.eqb (status r) "pending" && metadata_collected r.

Definition completed_without_metadata (r : row) : bool :=
  String.eqb (status r) "completed" && negb (metadata_collected r).

Definition set_metadata_collected (b : bool) (r : row) : row :=
  mk_row (data r) (status r) (is_accessible r) (last_updated r) (retry_count r)
         (error_message r) b.

Definition set_status (new_status : string) (r : row) : row :=
  mk_row (data r) new_status (is_accessible r) (last_updated r) (retry_count r)
         (error_message r) (metadata_collected r).

(** [UPDATE ... SET metadata_collected = 0 WHERE status = 'pending' AND metadata_collected = 1] *)
Definition fix_pending (r : row) : row :=
  if pending_with_metadata r then set_metadata_collected false r else r.

(** [UPDATE ... SET status = 'pending' WHERE status = 'completed' AND metadata_collected = 0] *)
Definition fix_completed (r : row) : row :=
  if completed_without_metadata r then set_status "pending" r else r.

(** [cursor.rowcount] of an [UPDATE] with the given [WHERE] clause. *)
Definition rowcount (where_clause : row -> bool) (db : table) : Z :=
  Z.of_nat (length (filter (fun kv => where_clause (snd kv) = true) (map_to_list db))).

(** The dict [fix_inconsistent_states] returns. *)
Record fixed_counts := mk_fixed {
  fixed_pending_with_metadata : Z;
  fixed_completed_without_metadata : Z
}.

(** [fix_inconsistent_states]: the two updates run in this order inside
    one transaction. *)
Definition fix_inconsistent_states (db : table) : fixed_counts * table :=
  let n1 := rowcount pending_with_metadata db in
  let db1 := fix_pending <$> db in
  let n2 := rowcount completed_without_metadata db1 in
  let db2 := fix_completed <$> db1 in
  (mk_fixed n1 n2, db2).

(** The [WHERE] clause of [get_subreddits_for_update]. *)
Definition needs_update (stale_cutoff : Z) (nsfw_only : bool) (r : row) : bool :=
  metadata_collected r && String.eqb (status r) "active"
  && match last_updated r with
     | None => true
     | Some u => u <? stale_cutoff
     end
  && (if nsfw_only
      then match over_18 (data r) with
           | CNum q => Qeq_bool q 1
           | _ => false
           end
      else true).

(** Numeric reading of a cell under [COALESCE(x, 0)] and unary minus: NULL
    counts as 0, and so does a text, which is what SQLite computes for a
    text without numeric prefix. *)
Definition cell_number (c : cell) : Q :=
  match c with
  | CNum q => q
  | _ => 0%Q
  end.

(** [subscribers DESC NULLS LAST]: texts sort above numbers in SQLite, so
    they come first in descending order, then the numbers from the largest
    down, then the NULLs. *)
Definition subscribers_desc_le (a b : cell) : bool :=
  match a, b with
  | CNull, CNull => true
  | CNull, _ => false
  | _, CNull => true
  | CNum x, CNum y => Qle_bool y x
  | CNum _, _ => false
  | _, CNum _ => true
  | (CText s | CUnescaped s), (CText s' | CUnescaped s') => String.leb s' s
  end.

(** The second [ORDER BY] key. *)
Definition second_key (r : row) : Q :=
  match last_updated r with
  | None => (- cell_number (subscribers (data r)))%Q
  | Some u => inject_Z u
  end.

(** The [ORDER BY] of [get_subreddits_for_update] as "comes no later than". *)
Definition update_order (a b : string * row) : bool :=
  let ra := snd a in
  let rb := snd b in
  match last_updated ra, last_updated rb with
  | None, Some _ => true
  | Some _, None => false
  | _, _ =>
      if Qlt_bool (second_key ra) (second_key rb) then true
      else if Qlt_bool (second_key rb) (second_key ra) then false
      else subscribers_desc_le (subscribers (data ra)) (subscribers (data rb))
  end.

#[local] Instance update_order_dec (a b : string * row) :
  Decision (update_order a b = true) := _.

(** [LIMIT ?], used only when [limit] is truthy; a negative limit is no
    limit in SQLite. *)
Definition apply_limit {A} (limit : option Z) (l : list A) : list A :=
  match limit with
  | Some n => if (0 <? n) then take (Z.to_nat n) l else l
  | None => l
  end.

(** [get_subreddits_for_update(limit, stale_days, nsfw_only)] at time
    [now]; rows with equal keys come in the order of the table scan. *)
Definition get_subreddits_for_update (limit : option Z) (stale_days : Z)
    (nsfw_only : bool) (now : Z) (db : table) : list string :=
  let stale_cutoff := now - stale_days * 24 * 60 * 60 in
  let selected :=
    filter (fun kv => needs_update stale_cutoff nsfw_only (snd kv) = true)
           (map_to_list db) in
  let ordered := merge_sort (fun a b => update_order a b = true) selected in
  fst <$> apply_limit limit ordered.

(** *** Queries of the statistics mode and clean-up *)

(** [get_subreddit_info(name)]: the row as a dict, or [None]. *)
Definition get_subreddit_info (name : string) (db : table) : option row :=
  db !! lower name.

(** [SELECT COUNT( * ) FROM subreddits WHERE ...] *)
Definition select_count (where_clause : row -> bool) (db : table) : Z :=
  Z.of_nat (length (filter (fun kv => where_clause (snd kv) = true) (map_to_list db))).

(** The two [WHERE] clauses of [count_stale_subreddits]. *)
Definition never_updated_row (r : row) : bool :=
  metadata_collected r && String.eqb (status r) "active"
  && match last_updated r with
     | None => true
     | Some _ => false
     end.

Definition stale_row (stale_cutoff : Z) (r : row) : bool :=
  metadata_collected r && String.eqb (status r) "active"
  && match last_updated r with
     | None => false
     | Some u => u <? stale_cutoff
     end.

(** The dict [count_stale_subreddits] returns. *)
Record stale_counts := mk_stale {
  never_updated : Z;
  stale : Z;
  total_needing_update : Z;
  stale_days : Z
}.

(** [count_stale_subreddits(stale_days)] at time [now]. *)
Definition count_stale_subreddits (days : Z) (now : Z) (db : table) : stale_counts :=
  let stale_cutoff := now - days * 24 * 60 * 60 in
  let never := select_count never_updated_row db in
  let old := select_count (stale_row stale_cutoff) db in
  mk_stale never old (never + old) days.

(** [dict(cursor.fetchall())] of [SELECT status, COUNT( * ) ... GROUP BY
    status]: one key per status that occurs, with its number of rows. *)
Definition count_by_status (db : table) : gmap string Z :=
  foldr (fun kv acc => <[status (snd kv) := default 0 (acc !! status (snd kv)) + 1]> acc)
        ∅ (map_to_list db).

Definition metadata_pending_row (r : row) : bool :=
  negb (metadata_collected r) || String.eqb (status r) "error"
  || String.eqb (status r) "pending".

(** [get_processing_stats]: the three totals are stored under their names
    in the dict of the counts by status. *)
Definition get_processing_stats (db : table) : gmap string Z :=
  let stats := count_by_status db in
  let stats := <["total_subreddits"%string := select_count (fun _ => true) db]> stats in
  let stats := <["metadata_collected"%string := select_count metadata_collected db]> stats in
  <["metadata_pending"%string := select_count metadata_pending_row db]> stats.

(** [text LIKE pattern] of SQLite without [ESCAPE]: [%] stands for any
    run of characters, [_] for any one character, and a letter matches in
    either case. *)
Fixpoint like (pattern : string) (text : string) : bool :=
  match pattern with
  | EmptyString =>
      match text with
      | EmptyString => true
      | String _ _ => false
      end
  | String p pattern' =>
      if Ascii.eqb p "%" then
        (fix any (text : string) : bool :=
           like pattern' text
           || match text with
              | EmptyString => false
              | String _ text' => any text'
              end) text
      else
        match text with
        | EmptyString => false
        | String a text' =>
            (Ascii.eqb p "_" || Ascii.eqb (lower_ascii p) (lower_ascii a))
            && like pattern' text'
        end
  end.

(** [subreddit_type = 'user' OR name LIKE 'u_%'].  The column is written
    by [update_subreddit_metadata] as a plain text. *)
Definition user_profile_row (name : string) (r : row) : bool :=
  match subreddit_type (data r) with
  | CText s => String.eqb s "user"
  | _ => false
  end
  || like "u_%" name.

(** [cleanup_user_profiles]: the count, and the table without the rows
    counted. *)
Definition cleanup_user_profiles (db : table) : Z * table :=
  let count :=
    Z.of_nat (length (filter (fun kv => user_profile_row (fst kv) (snd kv) = true)
                             (map_to_list db))) in
  if 0 <? count
  then (count, filter (fun kv => user_profile_row (fst kv) (snd kv) = false) db)
  else (count, db).

End Database.

(** ** scanner.py *)

Module Scanner.

(** [SubredditScanner]: the two thresholds read from the configuration,
    the store, the API client, the run parameters and the counters. *)
Record t := mk {
  max_consecutive_403 : Z;
  max_total_429 : Z;
  db : Database.table;
  reddit_client : Client.t;
  shutdown_requested : bool;
  limit : option Z;
  nsfw_only : bool;
  subreddits_processed : Z;
  subreddits_failed : Z;
  consecutive_403s : Z;
  total_429s : Z;
  recent_successes : list bool
}.

Definition set_db (v : Database.table) (s : t) : t :=
  mk (max_consecutive_403 s) (max_total_429 s) v (reddit_client s)
     (shutdown_requested s) (limit s) (nsfw_only s) (subreddits_processed s)
     (subreddits_failed s) (consecutive_403s s) (total_429s s) (recent_successes s).
Definition set_reddit_client (v : Client.t) (s : t) : t :=
  mk (max_consecutive_403 s) (max_total_429 s) (db s) v
     (shutdown_requested s) (limit s) (nsfw_only s) (subreddits_processed s)
     (subreddits_failed s) (consecutive_403s s) (total_429s s) (recent_successes s).
Definition set_shutdown_requested (v : bool) (s : t) : t :=
  mk (max_consecutive_403 s) (max_total_429 s) (db s) (reddit_client s)
     v (limit s) (nsfw_only s) (subreddits_processed s)
     (subreddits_failed s) (consecutive_403s s) (total_429s s) (recent_successes s).
Definition set_subreddits_processed (v : Z) (s : t) : t :=
  mk (max_consecutive_403 s) (max_total_429 s) (db s) (reddit_client s)
     (shutdown_requested s) (limit s) (nsfw_only s) v
     (subreddits_failed s) (consecutive_403s s) (total_429s s) (recent_successes s).
Definition set_subreddits_failed (v : Z) (s : t) : t :=
  mk (max_consecutive_403 s) (max_total_429 s) (db s) (reddit_client s)
     (shutdown_requested s) (limit s) (nsfw_only s) (subreddits_processed s)
     v (consecutive_403s s) (total_429s s) (recent_successes s).
Definition set_consecutive_403s (v : Z) (s : t) : t :=
  mk (max_consecutive_403 s) (max_total_429 s) (db s) (reddit_client s)
     (shutdown_requested s) (limit s) (nsfw_only s) (subreddits_processed s)
     (subreddits_failed s) v (total_429s s) (recent_successes s).
Definition set_total_429s (v : Z) (s : t) : t :=
  mk (max_consecutive_403 s) (max_total_429 s) (db s) (reddit_client s)
     (shutdown_requested s) (limit s) (nsfw_only s) (subreddits_processed s)
     (subreddits_failed s) (consecutive_403s s) v (recent_successes s).
Definition set_recent_successes (v : list bool) (s : t) : t :=
  mk (max_consecutive_403 s) (max_total_429 s) (db s) (reddit_client s)
     (shutdown_requested s) (limit s) (nsfw_only s) (subreddits_processed s)
     (subreddits_failed s) (consecutive_403s s) (total_429s s) v.

(** [__init__] with the thresholds of the configuration (10 and 3 by
    default) over a given store. *)
Definition init (max_403 max_429 : Z) (store : Database.table) (diversity : bool) : t :=
  mk max_403 max_429 store (Client.init diversity) false None false 0 0 0 0 [].

Definition recent_success_window : nat := 10.

(** [_track_success] *)
Definition _track_success (s : t) : t :=
  let l := recent_successes s ++ [true] in
  set_recent_successes
    (if (recent_success_window <? length l)%nat then drop 1 l else l) s.

(** [_should_trust_403] *)
Definition _should_trust_403 (s : t) : bool :=
  (5 <=? length (recent_successes s))%nat.

(** [_check_error_thresholds] *)
Definition _check_error_thresholds (s : t) : bool * t :=
  let s := set_total_429s (Client.rate_limit_hits (reddit_client s)) s in
  if max_consecutive_403 s <=? consecutive_403s s then (true, s)
  else if max_total_429 s <=? total_429s s then (true, s)
  else (false, s).

(** *** The interleaving transform *)

Section Interleave.
Context {A : Type} `{EqDecision A}.

(** [remaining.discard(x)] on a set kept as a duplicate-free list. *)
Definition discard (x : A) (remaining : list A) : list A :=
  filter (fun y => y ≠ x) remaining.

(** [while ordered_idx < len(ordered_list) and
    ordered_list[ordered_idx] not in remaining: ordered_idx += 1],
    run over the part of the list from [ordered_idx] on. *)
Fixpoint skip_used (suffix remaining : list A) (ordered_idx : nat) : nat :=
  match suffix with
  | [] => ordered_idx
  | x :: suffix' =>
      if bool_decide (x ∈ remaining) then ordered_idx
      else skip_used suffix' remaining (S ordered_idx)
  end.

(** The first half of the loop body: the next item of the ordered list
    that is still in [remaining]. *)
Definition pick_ordered (ordered_list result remaining : list A) (ordered_idx : nat)
    : list A * list A * nat :=
  let take_at (i : nat) :=
    match ordered_list !! i with
    | Some sub => (result ++ [sub], discard sub remaining, S i)
    | None => (result, remaining, i)
    end in
  match ordered_list !! ordered_idx with
  | Some sub =>
      if bool_decide (sub ∈ remaining) then take_at ordered_idx
      else take_at (skip_used (drop ordered_idx ordered_list) remaining ordered_idx)
  | None =>
      take_at (skip_used (drop ordered_idx ordered_list) remaining ordered_idx)
  end.

(** The [while remaining:] loop.  [choice k] is the index the [k]-th call
    of [random.choice(list(remaining))] draws in the listing of the set;
    [fuel] bounds the iterations. *)
Fixpoint interleave_loop (fuel : nat) (choice : nat -> nat) (k : nat)
    (ordered_list result remaining : list A) (ordered_idx : nat)
    : option (list A) :=
  match fuel with
  | O => None
  | S fuel' =>
      match remaining with
      | [] => Some result
      | _ =>
          let '(result, remaining, ordered_idx) :=
            pick_ordered ordered_list result remaining ordered_idx in
          match remaining with
          | [] => Some result
          | _ =>
              match remaining !! (choice k mod length remaining)%nat with
              | Some random_pick =>
                  interleave_loop fuel' choice (S k) ordered_list
                    (result ++ [random_pick]) (discard random_pick remaining)
                    ordered_idx
              | None => None
              end
          end
      end
  end.

(** [_interleave_with_random(ordered_list)]; one unit of fuel per element
    and one for the test that ends the loop. *)
Definition _interleave_with_random (choice : nat -> nat) (ordered_list : list A)
    : option (list A) :=
  if (length ordered_list <=? 2)%nat then Some ordered_list
  else
    interleave_loop (S (length ordered_list)) choice 0 ordered_list []
      (remove_dups ordered_list) 0.
End Interleave.

(** *** Refresh mode *)

(** [str(e)] in the handlers; the text of the Python message is not
    modelled. *)
Definition str_of_exn (e : Client.exn) : string :=
  match e with
  | Client.HTTPStatusError _ => "HTTPStatusError"
  | Client.OtherError => "Exception"
  end.

(** [metadata and metadata.get('subreddit_type') == 'user']; [None] is the
    [AttributeError] of a truthy value that is not a dict. *)
Definition is_user_profile (metadata : json) : option bool :=
  if truthy metadata then
    match py_get "subreddit_type" JNull metadata with
    | Some v => Some (eq_str v "user")
    | None => None
    end
  else Some false.

(** [metadata.get('subscribers', 0) or 0] on a dict. *)
Definition subscribers_of (metadata : pydict) : json :=
  let v := dict_get "subscribers" (JNum 0) metadata in
  if truthy v then v else JNum 0.

(** Whether the log line [f"... {subscribers:>12,} subs"] can be built:
    the format is defined on numbers only. *)
Definition formats_as_number (v : json) : bool :=
  match v with
  | JNum _ | JBool _ => true
  | _ => false
  end.

(** The [try] body of [process_subreddit], after the fetch answered
    [(metadata, status)]; [now] is the clock reading of
    [update_subreddit_metadata]. *)
Definition handle_result (now : Z) (subreddit : string) (metadata : json)
    (status : string) (s : t) : Client.outcome bool * t :=
  match is_user_profile metadata with
  | None => (Client.Raises Client.OtherError, s)
  | Some true =>
      (Client.Returns true, set_db (Database.delete_subreddit subreddit (db s)) s)
  | Some false =>
      match String.eqb status "active" && truthy metadata, metadata with
      | true, JObj fields =>
          let s := set_consecutive_403s 0 s in
          let s := set_db (snd (Database.update_subreddit_metadata subreddit fields now (db s))) s in
          let subscribers := subscribers_of fields in
          let s := set_db (Database.update_subreddit subreddit "active" None (Some true) (db s)) s in
          let s := set_db (Database.update_retry_count subreddit 0 (db s)) s in
          let s := set_subreddits_processed (subreddits_processed s + 1) s in
          if formats_as_number subscribers then (Client.Returns true, s)
          else (Client.Raises Client.OtherError, s)
      | true, _ => (Client.Raises Client.OtherError, s)
      | false, _ =>
          let retry_count := Database.select_retry_count subreddit (db s) in
          if String.eqb status "notfound" then
            let s := set_db (Database.delete_subreddit subreddit (db s)) s in
            (Client.Returns true, set_consecutive_403s 0 s)
          else if String.eqb status "deleted" then
            let s := set_consecutive_403s (consecutive_403s s + 1) s in
            let retry_count := retry_count + 1 in
            if 3 <=? retry_count then
              let s := set_db (Database.delete_subreddit subreddit (db s)) s in
              (Client.Returns true, set_consecutive_403s 0 s)
            else
              (Client.Returns true,
               set_db (Database.update_retry_count subreddit retry_count (db s)) s)
          else
            let s := set_consecutive_403s 0 s in
            let s := set_db (Database.update_subreddit_status subreddit status None (db s)) s in
            let s := set_db (Database.update_subreddit subreddit status
                               (Some ("Status: " ++ status)%string) (Some true) (db s)) s in
            let s := set_db (Database.update_retry_count subreddit 0 (db s)) s in
            (Client.Returns true, s)
      end
  end.

(** [process_subreddit(subreddit)] *)
Definition process_subreddit (w : Client.world) (now : Z) (subreddit : string)
    (s : t) : bool * t :=
  let s := set_db (Database.update_subreddit subreddit "processing" None None (db s)) s in
  let '(fetched, c) := Client.get_subreddit_info w subreddit (reddit_client s) in
  let s := set_reddit_client c s in
  let '(r, s) :=
    match fetched with
    | Client.Raises e => (Client.Raises e, s)
    | Client.Returns (metadata, status) => handle_result now subreddit metadata status s
    end in
  match r with
  | Client.Returns b => (b, s)
  | Client.Raises e =>
      let s := set_db (Database.update_subreddit subreddit "error"
                         (Some (str_of_exn e)) None (db s)) s in
      (false, set_subreddits_failed (subreddits_failed s + 1) s)
  end.

(** The [for] loop of [run]; [idx] is the position of the next item and
    [now_at idx] the clock reading while it is processed.  The cooldown, the
    batch pause and the progress reports only sleep and print; no signal
    arrives during the run, so [shutdown_requested] changes only where the
    loop sets it. *)
Fixpoint run_loop (w : Client.world) (now_at : nat -> Z) (idx : nat)
    (subreddits : list string) (s : t) : t :=
  match subreddits with
  | [] => s
  | subreddit :: rest =>
      if shutdown_requested s then s
      else
        let '(stop, s) := _check_error_thresholds s in
        if stop then set_shutdown_requested true s
        else
          let '(_, s) := process_subreddit w (now_at idx) subreddit s in
          let '(stop, s) := _check_error_thresholds s in
          if stop then set_shutdown_requested true s
          else run_loop w now_at (S idx) rest s
  end.

(** [run]: [now] is the clock reading of the staleness query, [choice] the
    draws of the interleaving; [None] only if the interleaving runs out of
    fuel. *)
Definition run (w : Client.world) (now : Z) (now_at : nat -> Z)
    (choice : nat -> nat) (s : t) : option t :=
  let '(_, fixed_db) := Database.fix_inconsistent_states (db s) in
  let s := set_db fixed_db s in
  let subreddits_to_process :=
    Database.get_subreddits_for_update (limit s) 30 (nsfw_only s) now (db s) in
  match _interleave_with_random choice subreddits_to_process with
  | None => None
  | Some subreddits_to_process => Some (run_loop w now_at 0 subreddits_to_process s)
  end.

(** *** List-file mode *)

(** A row of the CSV file as [csv.DictReader] yields it: a dict from column
    names to texts.  Rows without a [subreddit] text are dropped when the
    file is loaded. *)
Abbreviation csv_row := (list (string * string)).

Fixpoint csv_field (key : string) (row : csv_row) : string :=
  match row with
  | [] => ""
  | (k, v) :: row' => if String.eqb k key then v else csv_field key row'
  end.

(** The local counters of [run_csv_scan] and the rows it keeps. *)
Record progress := mk_progress {
  processed : Z;
  duplicates_removed : Z;
  scanned_and_saved : Z;
  errors : Z;
  rows_to_keep : list csv_row
}.

Definition start : progress := mk_progress 0 0 0 0 [].

(** [rows_to_keep.extend(rows)] *)
Definition keep (rows : list csv_row) (p : progress) : progress :=
  mk_progress (processed p) (duplicates_removed p) (scanned_and_saved p)
              (errors p) (rows_to_keep p ++ rows).
Definition incr_processed (p : progress) : progress :=
  mk_progress (processed p + 1) (duplicates_removed p) (scanned_and_saved p)
              (errors p) (rows_to_keep p).
Definition incr_duplicates_removed (p : progress) : progress :=
  mk_progress (processed p) (duplicates_removed p + 1) (scanned_and_saved p)
              (errors p) (rows_to_keep p).
Definition incr_scanned_and_saved (p : progress) : progress :=
  mk_progress (processed p) (duplicates_removed p) (scanned_and_saved p + 1)
              (errors p) (rows_to_keep p).
Definition incr_errors (p : progress) : progress :=
  mk_progress (processed p) (duplicates_removed p) (scanned_and_saved p)
              (errors p + 1) (rows_to_keep p).

(** How the [try] body of an item ends: with [continue], after counting
    the item as saved, or without counting it. *)
Inductive csv_end : Type :=
  | SkipToNext
  | Saved
  | NotSaved.

(** [subscribers < 100]; [None] is the [TypeError] of a value that is not
    a number. *)
Definition below_100 (v : json) : option bool :=
  match v with
  | JNum q => Some (Qlt_bool q 100)
  | JBool b => Some true
  | _ => None
  end.

(** The [try] body of [run_csv_scan] after the fetch answered
    [(metadata, status)]. *)
Definition csv_handle_result (now : Z) (subreddit : string) (metadata : json)
    (status : string) (s : t) : Client.outcome csv_end * t :=
  match is_user_profile metadata with
  | None => (Client.Raises Client.OtherError, s)
  | Some true =>
      (Client.Returns SkipToNext, set_db (Database.delete_subreddit subreddit (db s)) s)
  | Some false =>
      match String.eqb status "active" && truthy metadata, metadata with
      | true, JObj fields =>
          let s := _track_success (set_consecutive_403s 0 s) in
          let subscribers := subscribers_of fields in
          match below_100 subscribers with
          | None => (Client.Raises Client.OtherError, s)
          | Some true =>
              (Client.Returns SkipToNext,
               set_db (Database.delete_subreddit subreddit (db s)) s)
          | Some false =>
              let s := set_db (snd (Database.update_subreddit_metadata subreddit fields now (db s))) s in
              let s := set_db (Database.update_subreddit subreddit "active" None (Some true) (db s)) s in
              (Client.Returns Saved, s)
          end
      | true, _ => (Client.Raises Client.OtherError, s)
      | false, _ =>
          if String.eqb status "notfound" then
            let s := _track_success (set_consecutive_403s 0 s) in
            (Client.Returns NotSaved,
             set_db (Database.delete_subreddit subreddit (db s)) s)
          else if String.eqb status "deleted" then
            let s := _track_success (set_consecutive_403s 0 s) in
            (Client.Returns NotSaved,
             set_db (Database.delete_subreddit subreddit (db s)) s)
          else
            let s := _track_success (set_consecutive_403s 0 s) in
            let s := set_db (Database.update_subreddit_status subreddit status None (db s)) s in
            let s := set_db (Database.update_subreddit subreddit status
                               (Some ("Status: " ++ status)%string) (Some true) (db s)) s in
            (Client.Returns Saved, s)
      end
  end.

(** The [else] branch of the duplicate test: add the item as pending,
    fetch it, handle the answer. *)
Definition csv_fetch (w : Client.world) (now : Z) (subreddit : string) (s : t)
    : Client.outcome csv_end * t :=
  let s := set_db (snd (Database.add_subreddit subreddit (db s))) s in
  let '(fetched, c) := Client.get_subreddit_info w subreddit (reddit_client s) in
  let s := set_reddit_client c s in
  match fetched with
  | Client.Raises e => (Client.Raises e, s)
  | Client.Returns (metadata, status) => csv_handle_result now subreddit metadata status s
  end.

(** What the loop does with one row once the three guards have passed;
    the answer tells whether [processed += 1] is reached. *)
Definition csv_item (w : Client.world) (now : Z) (row : csv_row)
    (p : progress) (s : t) : progress * t :=
  let subreddit := Database.lower (Database.strip (csv_field "subreddit" row)) in
  match db s !! subreddit with
  | Some _ => (incr_processed (incr_duplicates_removed p), s)
  | None =>
      match csv_fetch w now subreddit s with
      | (Client.Returns SkipToNext, s) => (p, s)
      | (Client.Returns Saved, s) => (incr_processed (incr_scanned_and_saved p), s)
      | (Client.Returns NotSaved, s) => (incr_processed p, s)
      | (Client.Raises _, s) => (incr_processed (keep [row] (incr_errors p)), s)
      end
  end.

(** The [for] loop of [run_csv_scan] over the rows not yet visited. *)
Fixpoint csv_loop (w : Client.world) (now_at : nat -> Z) (idx : nat) (row_limit : Z)
    (rows : list csv_row) (p : progress) (s : t) : progress * t :=
  match rows with
  | [] => (p, s)
  | row :: rest =>
      if shutdown_requested s then (keep rows p, s)
      else
        let '(stop, s) := _check_error_thresholds s in
        if stop then (keep rows p, set_shutdown_requested true s)
        else if row_limit <=? processed p then (keep rows p, s)
        else
          let '(p, s) := csv_item w (now_at idx) row p s in
          csv_loop w now_at (S idx) row_limit rest p s
  end.

(** [run_csv_scan] on the rows loaded and sorted; [rows_to_keep] of the
    answer is what the file is rewritten with. *)
Definition run_csv_scan (w : Client.world) (now_at : nat -> Z)
    (csv_rows : list csv_row) (s : t) : progress * t :=
  let row_limit :=
    match limit s with
    | Some n => if n =? 0 then Z.of_nat (length csv_rows) else n
    | None => Z.of_nat (length csv_rows)
    end in
  csv_loop w now_at 0 row_limit csv_rows start s.

(** *** Shutdown signal and deduplication of the list file *)

(** [_signal_handler]: SIGINT or SIGTERM asks for the shutdown. *)
Definition _signal_handler (s : t) : t := set_shutdown_requested true s.

(** Loading the list file: [if row.get('subreddit'): csv_rows.append(row)]. *)
Definition load_rows (rows : list csv_row) : list csv_row :=
  filter (fun row => csv_field "subreddit" row <> ""%string) rows.

(** [row['subreddit'].strip().lower()] *)
Definition csv_name (row : csv_row) : string :=
  Database.lower (Database.strip (csv_field "subreddit" row)).

(** Step 1 of [dedupe_csv]: the rows whose name was not seen before, and
    the number of the others. *)
Fixpoint unique_rows (seen_subreddits : gset string) (rows : list csv_row)
    : list csv_row * Z :=
  match rows with
  | [] => ([], 0)
  | row :: rest =>
      let subreddit := csv_name row in
      if bool_decide (subreddit ∈ seen_subreddits) then
        let '(unique, internal_dupes) := unique_rows seen_subreddits rest in
        (unique, internal_dupes + 1)
      else
        let '(unique, internal_dupes) :=
          unique_rows ({[subreddit]} ∪ seen_subreddits) rest in
        (row :: unique, internal_dupes)
  end.

(** Step 2: the rows whose name is not in the table, and the number of
    the others. *)
Fixpoint rows_not_in_db (store : Database.table) (rows : list csv_row)
    : list csv_row * Z :=
  match rows with
  | [] => ([], 0)
  | row :: rest =>
      let '(keep, db_duplicates) := rows_not_in_db store rest in
      match store !! csv_name row with
      | Some _ => (keep, db_duplicates + 1)
      | None => (row :: keep, db_duplicates)
      end
  end.

(** What [dedupe_csv] counts, and the rows it writes back. *)
Record dedupe_report := mk_dedupe {
  initial_count : Z;
  internal_dupes : Z;
  db_duplicates : Z;
  dedupe_rows_to_keep : list csv_row
}.

(** [dedupe_csv] on the rows of the file; neither the table nor the
    client is used for anything but the lookups. *)
Definition dedupe_csv (rows : list csv_row) (s : t) : dedupe_report :=
  let csv_rows := load_rows rows in
  let '(unique, internal) := unique_rows ∅ csv_rows in
  let '(keep, dups) := rows_not_in_db (db s) unique in
  mk_dedupe (Z.of_nat (length csv_rows)) internal dups keep.

(** *** The list file as [run_csv_scan] reads it *)

(** [int(x.get('subscribers', 0) or 0)], the sort key of a row.  [int] is
    the builtin applied to a text: the number it reads, or [None] for its
    [ValueError]; a missing or empty field counts as 0. *)
Definition csv_sort_key (int : string -> option Z) (row : csv_row) : option Z :=
  let subscribers := csv_field "subscribers" row in
  if String.eqb subscribers "" then Some 0 else int subscribers.

(** Where a stable descending sort puts an item that stood before all
    items of [sorted]: behind the items with a larger key and in front of
    those with an equal or a smaller one. *)
Fixpoint insert_desc (x : Z * csv_row) (sorted : list (Z * csv_row))
    : list (Z * csv_row) :=
  match sorted with
  | [] => [x]
  | y :: rest => if fst x <? fst y then y :: insert_desc x rest else x :: sorted
  end.

(** [csv_rows.sort(key=..., reverse=True)]: the keys of all rows are
    computed first, then the rows are sorted by descending key, rows with
    equal keys staying in their order.  [None] is the [ValueError] of a
    key. *)
Definition sort_csv_rows (int : string -> option Z) (csv_rows : list csv_row)
    : option (list csv_row) :=
  keyed ← mapM (fun row => key ← csv_sort_key int row; Some (key, row)) csv_rows;
  Some (snd <$> foldr insert_desc [] keyed).

(** [run_csv_scan] from the rows [csv.DictReader] yields: they are
    loaded, sorted and scanned.  The sort stands outside every [try]: its
    [ValueError] ends the function, [None] here, before any row is processed
    and without the file being rewritten. *)
Definition run_csv_scan_file (int : string -> option Z) (w : Client.world)
    (now_at : nat -> Z) (rows : list csv_row) (s : t) : option (progress * t) :=
  csv_rows ← sort_csv_rows int (load_rows rows);
  Some (run_csv_scan w now_at csv_rows s).

End Scanner.

(** ** config.py *)

Module Config.

(** The values an attribute of the configuration holds. *)
Inductive value : Type :=
  | VNone
  | VBool (b : bool)
  | VInt (n : Z)
  | VFloat (q : Q)
  | VStr (s : string).

(** A [Config] object is the dict of its attributes: [setattr] stores any
    value under any name. *)
Abbreviation t := (gmap string value).

(** The default of [user_agent] in [from_env]. *)
Definition user_agent_for (username : string) : string :=
  ("python:com.github.subdir:v1.0.0 (Subreddit Discovery Tool; https://github.com/justriverjames/subdir by /u/"
   ++ username ++ ")")%string.

(** [cls(...)] as [from_env] calls it: eight fields given, the others at
    the defaults of the dataclass. *)
Definition cls (reddit_client_id reddit_client_secret reddit_username
    reddit_password user_agent db_path log_dir log_level : string) : t :=
  list_to_map
    [("reddit_client_id", VStr reddit_client_id);
     ("reddit_client_secret", VStr reddit_client_secret);
     ("reddit_username", VStr reddit_username);
     ("reddit_password", VStr reddit_password);
     ("user_agent", VStr user_agent);
     ("db_path", VStr db_path);
     ("log_dir", VStr log_dir);
     ("log_level", VStr log_level);
     ("rate_limit_per_minute", VInt 60);
     ("rate_limit_per_10s", VInt 12);
     ("rate_limit_per_1s", VInt 2);
     ("min_request_delay", VFloat (3 # 2));
     ("max_request_delay", VFloat 3);
     ("subreddit_cooldown", VInt 2);
     ("max_retries", VInt 3);
     ("shuffle_order", VBool true);
     ("request_diversity", VBool true);
     ("batch_pause_interval", VInt 100);
     ("batch_pause_min", VFloat 20);
     ("batch_pause_max", VFloat 40);
     ("max_consecutive_403", VInt 10);
     ("max_total_429", VInt 3);
     ("resume", VBool false);
     ("force_refresh", VBool false)]%string.

(** The environment after the [.env] file was loaded: [os.getenv(k)] is
    the lookup of [k]. *)
Abbreviation environ := (gmap string string).

(** Truth value of [os.getenv(k)]. *)
Definition env_truthy (v : option string) : bool :=
  match v with
  | Some s => negb (String.eqb s "")
  | None => false
  end.

(** The names [from_env] lists in its [ValueError]. *)
Definition missing (env : environ) : list string :=
  (if env_truthy (env !! "REDDIT_CLIENT_ID") then [] else ["REDDIT_CLIENT_ID"])
  ++ (if env_truthy (env !! "REDDIT_CLIENT_SECRET") then [] else ["REDDIT_CLIENT_SECRET"])
  ++ (if env_truthy (env !! "REDDIT_USERNAME") then [] else ["REDDIT_USERNAME"])
  ++ (if env_truthy (env !! "REDDIT_PASSWORD") then [] else ["REDDIT_PASSWORD"]).

(** [from_env]: the configuration, or the [ValueError] with the names of
    the credentials that are missing. *)
Definition from_env (env : environ) : list string + t :=
  match env !! "REDDIT_CLIENT_ID", env !! "REDDIT_CLIENT_SECRET",
        env !! "REDDIT_USERNAME", env !! "REDDIT_PASSWORD" with
  | Some client_id, Some client_secret, Some username, Some password =>
      if env_truthy (Some client_id) && env_truthy (Some client_secret)
         && env_truthy (Some username) && env_truthy (Some password)
      then inr (cls client_id client_secret username password
                  (default (user_agent_for username) (env !! "USER_AGENT"))
                  (default "subreddit_scanner.db" (env !! "SCANNER_DB_PATH"))
                  (default "logs" (env !! "SCANNER_LOG_DIR"))
                  (default "INFO" (env !! "LOG_LEVEL")))
      else inl (missing env)
  | _, _, _, _ => inl (missing env)
  end.

(** The methods of the class; the attributes every object has are left
    out, no caller names them. *)
Definition methods : list string :=
  ["from_env"; "update_from_args"; "validate"; "__str__"].

(** [hasattr(self, key)] *)
Definition hasattr (c : t) (key : string) : bool :=
  bool_decide (is_Some (c !! key)) || bool_decide (key ∈ methods).

(** [update_from_args] over the keyword arguments, in call order. *)
Definition update_from_args (kwargs : list (string * value)) (c : t) : t :=
  foldl (fun c kv =>
           match snd kv with
           | VNone => c
           | v => if hasattr c (fst kv) then <[fst kv := v]> c else c
           end) c kwargs.

(** What [validate] ends with. *)
Inductive outcome : Type :=
  | Valid
  | ValueError (message : string)
  | TypeError
  | AttributeError.

(** A number as Python compares it. *)
Definition number (v : value) : option Q :=
  match v with
  | VBool b => Some (if b then 1 else 0)%Q
  | VInt n => Some (inject_Z n)
  | VFloat q => Some q
  | _ => None
  end.

(** [a < b]: defined on two numbers and on two strings. *)
Definition py_lt (a b : value) : option bool :=
  match a, b with
  | VStr x, VStr y => Some (String.ltb x y)
  | _, _ =>
      match number a, number b with
      | Some x, Some y => Some (Qlt_bool x y)
      | _, _ => None
      end
  end.

(** What a path names in the file system. *)
Inductive path_kind : Type :=
  | File
  | Directory
  | Other.

(** One comparison of [validate]: [if a < b: raise ValueError(message)],
    then the rest. *)
Definition check_lt (a b : option value) (message : string) (rest : outcome)
    : outcome :=
  match a, b with
  | Some a, Some b =>
      match py_lt a b with
      | Some true => ValueError message
      | Some false => rest
      | None => TypeError
      end
  | _, _ => AttributeError
  end.

(** One path test of [validate]: [if p.exists() and not p.is_file()] (or
    [is_dir()]). *)
Definition check_path (fs : string -> option path_kind) (p : option value)
    (wanted : path_kind -> bool) (message : string) (rest : outcome) : outcome :=
  match p with
  | Some (VStr path) =>
      match fs path with
      | Some k => if wanted k then rest else ValueError (message ++ path)
      | None => rest
      end
  | Some _ => TypeError
  | None => AttributeError
  end.

Definition is_file (k : path_kind) : bool :=
  match k with File => true | _ => false end.
Definition is_dir (k : path_kind) : bool :=
  match k with Directory => true | _ => false end.

(** [validate] *)
Definition validate (fs : string -> option path_kind) (c : t) : outcome :=
  check_lt (c !! "rate_limit_per_minute") (Some (VInt 1))
    "rate_limit_per_minute must be >= 1"
  (check_lt (c !! "rate_limit_per_minute") (c !! "rate_limit_per_10s")
     "rate_limit_per_10s cannot exceed rate_limit_per_minute"
  (check_lt (c !! "rate_limit_per_10s") (c !! "rate_limit_per_1s")
     "rate_limit_per_1s cannot exceed rate_limit_per_10s"
  (check_path fs (c !! "db_path") is_file
     "Database path exists but is not a file: "
  (check_path fs (c !! "log_dir") is_dir
     "Log directory path exists but is not a directory: "
  (check_lt (c !! "subreddit_cooldown") (Some (VInt 0))
     "subreddit_cooldown must be >= 0"
  (check_lt (c !! "max_retries") (Some (VInt 0))
     "max_retries must be >= 0"
     Valid)))))).

End Config.

(** * Vocabulary of the properties *)

(** ** Rate limiter *)

(** The limiter after the three [_cleanup_window] calls of one
    [_get_wait_time], which read the clock at [t1], [t2] and [t3]. *)
Definition prune3 (l : RateLimiter.t) (t1 t2 t3 : Q) : RateLimiter.t :=
  RateLimiter.set_window_1s
    (RateLimiter.popleft_while (t3 - 1) (RateLimiter.window_1s l))
    (RateLimiter.set_window_10s
       (RateLimiter.popleft_while (t2 - 10) (RateLimiter.window_10s l))
       (RateLimiter.set_window_60s
          (RateLimiter.popleft_while (t1 - 60) (RateLimiter.window_60s l)) l)).

(** [w'] is [w] without some of its oldest entries, each of which was
    older than the horizon [h] at one of the clock readings [used]. *)
Definition expired_prefix (used : list Q) (h : Q) (w w' : list Q) : Prop :=
  exists p, w = p ++ w' /\
    Forall (fun x => exists now, now ∈ used /\ (x < now - h)%Q) p.

(** [l'] differs from [l] by pruning only (and possibly by the counter
    [requests_blocked], which the record leaves free). *)
Record pruning (used : list Q) (l l' : RateLimiter.t) : Prop := {
  pr_minute : RateLimiter.requests_per_minute l' = RateLimiter.requests_per_minute l;
  pr_10s : RateLimiter.requests_per_10s l' = RateLimiter.requests_per_10s l;
  pr_1s : RateLimiter.requests_per_1s l' = RateLimiter.requests_per_1s l;
  pr_total : RateLimiter.total_requests l' = RateLimiter.total_requests l;
  pr_wait : RateLimiter.total_wait_time l' = RateLimiter.total_wait_time l;
  pr_w60 : expired_prefix used 60 (RateLimiter.window_60s l) (RateLimiter.window_60s l');
  pr_w10 : expired_prefix used 10 (RateLimiter.window_10s l) (RateLimiter.window_10s l');
  pr_w1 : expired_prefix used 1 (RateLimiter.window_1s l) (RateLimiter.window_1s l')
}.

(** The capacities the configuration admits for a working limiter. *)
Definition positive_capacities (l : RateLimiter.t) : Prop :=
  1 <= RateLimiter.requests_per_minute l /\ 1 <= RateLimiter.requests_per_10s l /\ 1 <= RateLimiter.requests_per_1s l.

(** Number of recorded timestamps in the trailing interval
    [(now - horizon, now]]. *)
Definition grants_within (now horizon : Q) (window : list Q) : nat :=
  length (filter (fun x => Qlt_bool (now - horizon) x && Qle_bool x now = true) window).

(** A clock that stands at [t0] during three calls of [acquire] and at
    [t0 + 1] during twelve more; every granted call reads it six times. *)
Definition burst_t0 : Q := 1700000000.
Definition burst_t1 : Q := 1700000001.
Definition burst_clock : list Q := repeat burst_t0 18 ++ repeat burst_t1 72.

(** A limiter whose one-second window is full, and a clock half a second
    later. *)
Definition full_limiter : RateLimiter.t :=
  RateLimiter.mk 60 15 1 [0%Q] [0%Q] [0%Q] 1 0 0.
Definition half_second_clock : list Q := repeat (1 # 2)%Q 7.

(** ** API client *)

(** The client after the limiter, the delay and one request that was
    answered by a response. *)
Definition after_request (url : string) (c : Client.t) : Client.t :=
  Client.incr_total_requests
    (Client.next_request
       (Client.emit (Client.EvRequest url)
          (Client.emit Client.EvRandomDelay (Client.emit Client.EvAcquire c)))).


(** [int(response.headers.get('Retry-After', 60))] when it does not
    raise. *)
Definition retry_after_seconds (h : Client.retry_after_header) : option Z :=
  match h with
  | Client.NoRetryAfter => Some 60
  | Client.RetryAfterInt n => Some n
  | Client.RetryAfterBad => None
  end.

(** A 429 response whose Retry-After header is absent or an integer. *)
Definition counted_429 (o : Client.net_outcome) : bool :=
  match o with
  | Client.Response code h _ =>
      (code =? 429) && match retry_after_seconds h with Some _ => true | None => false end
  | Client.TransportError => false
  end.


(** A successful payload, a network that answers 429 once and 200 from
    then on, and a client that holds a token. *)
Definition ok_body : json := JObj [("data"%string, JObj [("subscribers"%string, JNum 5000)])].


Definition authed_client : Client.t :=
  Client.set_token (Some "token"%string) (Client.init true).

(** The retry loop of [_make_request], started with [r] iterations left,
    backoff counter [b] and client [c], arrives by [continue] steps at
    [r'], [b'], [c']. *)
Inductive loop_reaches (w : Client.world) (url : string) (m : nat)
    : nat -> nat -> Client.t -> nat -> nat -> Client.t -> Prop :=
  | reaches_here r b c : loop_reaches w url m r b c r b c
  | reaches_continue r b c b1 c1 r' b' c' :
      Client.attempt_body w url (m - S r) m b c = (Client.Continue b1, c1) ->
      loop_reaches w url m r b1 c1 r' b' c' ->
      loop_reaches w url m (S r) b c r' b' c'.

(** The fetch of [subreddit] started from [c] arrives at an attempt of
    the item request with [S remaining] iterations left, in state [c']. *)
Definition item_attempt (w : Client.world) (subreddit : string) (c : Client.t)
    (remaining backoff : nat) (c' : Client.t) : Prop :=
  exists c1 c2,
    Client._make_diversity_request w c = (Client.Returns tt, c1)
    /\ Client._ensure_token_valid w c1 = (Client.Returns tt, c2)
    /\ loop_reaches w (Client.about_url subreddit) 3 3 0 c2 (S remaining) backoff c'.

(** A transient failure: a transport error or a 5xx response. *)
Definition transient (o : Client.net_outcome) : Prop :=
  match o with
  | Client.TransportError => True
  | Client.Response code _ _ => 500 <= code
  end.

(** A network that always answers [o]; authentication succeeds, the token
    has not expired and no diversity request is drawn. *)
Definition world_always (o : Client.net_outcome) : Client.world :=
  Client.Build_world (fun _ => o) (fun _ => Client.AuthOk "token")
    (fun _ => false) (fun _ => true) (fun _ => O).

(** The reading of "a 3xx response yields notfound". *)
Definition redirect_means_notfound : Prop :=
  forall w subreddit c remaining backoff c' code h body,
    item_attempt w subreddit c remaining backoff c' ->
    Client.net w (Client.n_request c') = Client.Response code h body ->
    300 <= code < 400 ->
    fst (Client.get_subreddit_info w subreddit c)
    = Client.Returns (JNull, "notfound"%string).

(** The statuses [get_subreddit_info] can answer. *)
Definition classifications : list string :=
  ["active"; "private"; "quarantined"; "deleted"; "notfound"; "error"]%string.

(** [authed_client] after the diversity draw and the token check. *)
Definition ready_client : Client.t :=
  Client.next_clock (Client.next_random authed_client).

(** ** Store *)

(** A store with one row that is pending and marked as collected, and
    one with a plain pending row. *)
Definition inconsistent_row : Database.row :=
  Database.mk_row Database.default_payload "pending" 1 None (Some 0) None true.

Definition inconsistent_store : Database.table :=
  {[ "x"%string := inconsistent_row ]}.

Definition pending_store : Database.table :=
  {[ "x"%string := Database.pending_row ]}.

(** ** Interleaving *)

(** The items of the ordered list that are not in [seen], in priority
    order: the remaining set after [seen] was output. *)
Definition unused {A} `{EqDecision A} (ordered_list seen : list A) : list A :=
  filter (fun x => x ∉ seen) ordered_list.

(** Position [i] of [out] follows the pattern: at an even position stands
    the first remaining item of the priority order, at an odd position the
    item the [i / 2]-th random draw selects among the remaining ones. *)
Definition interleaved_at {A} `{EqDecision A} (ordered_list : list A)
    (choice : nat -> nat) (out : list A) (i : nat) : Prop :=
  let remaining := unused ordered_list (take i out) in
  out !! i = if Nat.even i then head remaining
             else remaining !! (choice (i / 2)%nat mod length remaining)%nat.

Definition alternates {A} `{EqDecision A} (ordered_list : list A)
    (choice : nat -> nat) (out : list A) : Prop :=
  forall i, (i < length out)%nat -> interleaved_at ordered_list choice out i.

(** Ten distinct names. *)
Definition ten_subreddits : list string :=
  ["s0"; "s1"; "s2"; "s3"; "s4"; "s5"; "s6"; "s7"; "s8"; "s9"]%string.

(** ** Orchestrator *)

(** The upstream answers 403 to every request. *)
Definition forbidden_world : Client.world :=
  world_always (Client.Response 403 Client.NoRetryAfter None).

(** A row as refresh mode selects it (active, collected, never updated),
    and the same row after one pass that was answered 403. *)
Definition active_row : Database.row :=
  Database.mk_row Database.default_payload "active" 1 None (Some 0) None true.

Definition stranded_row : Database.row :=
  Database.mk_row Database.default_payload "processing" 1 None (Some 1) None true.

Definition refresh_store : Database.table := {[ "x"%string := active_row ]}.

(** A scanner with the default thresholds over [store], its client
    holding a token. *)
Definition scanner_on (store : Database.table) : Scanner.t :=
  Scanner.mk 10 3 store authed_client false None false 0 0 0 0 [].

Definition run_time : Z := 1700000000.


(** A row of the list file naming the subreddit [x]. *)
Definition csv_row_x : Scanner.csv_row := [("subreddit", " X "); ("subscribers", "5000")]%string.

(** ** A refused token, and the list-file reading of C7 *)

(** The item request is answered 401 and the token endpoint refuses the
    new token with 403. *)
Definition world_token_refused : Client.world :=
  Client.Build_world (fun _ => Client.Response 401 Client.NoRetryAfter None)
    (fun _ => Client.AuthStatusError 403)
    (fun _ => false) (fun _ => true) (fun _ => O).

(** The reading of "the inconsistent states are corrected before a scan
    run begins" for the list-file run: a row that is pending and collected
    when [run_csv_scan] starts is no longer collected when it ends. *)
Definition csv_scan_fixes_first : Prop :=
  forall w now_at csv_rows s name r,
    Scanner.db s !! name = Some r ->
    Database.status r = "pending"%string ->
    Database.metadata_collected r = true ->
    exists r',
      Scanner.db (snd (Scanner.run_csv_scan w now_at csv_rows s)) !! name = Some r'
      /\ Database.metadata_collected r' = false.

(** ** Further vocabulary *)

Section RateLimiterVocabulary.
Import RateLimiter.

(** Every window of the limiter is below its capacity. *)
Definition below_capacity (l : RateLimiter.t) : Prop :=
  Z.of_nat (length (window_60s l)) < requests_per_minute l
  /\ Z.of_nat (length (window_10s l)) < requests_per_10s l
  /\ Z.of_nat (length (window_1s l)) < requests_per_1s l.

(** A window lets a request through at the reading [now]: it is below
    its capacity, or its oldest entry is exactly one horizon old. *)
Definition window_free (window : list Q) (capacity : Z) (horizon now : Q) : Prop :=
  Z.of_nat (length window) < capacity
  \/ exists oldest rest, window = oldest :: rest /\ (oldest + horizon == now)%Q.

(** The limiter and the pending clock readings are in chronological
    order: the recorded timestamps are sorted and not later than the
    readings to come, which are sorted too; the shorter windows are the ends
    of the longer ones; at most [total_requests] timestamps are held and the
    waiting time added up is not negative. *)
Record well_formed (l : RateLimiter.t) (c : list Q) : Prop := {
  wf_sorted : StronglySorted Qle (window_60s l ++ c);
  wf_10s : window_10s l `suffix_of` window_60s l;
  wf_1s : window_1s l `suffix_of` window_10s l;
  wf_count : Z.of_nat (length (window_60s l)) <= total_requests l;
  wf_wait : (0 <= total_wait_time l)%Q
}.

(** The same backoff with the jitter switched off. *)
Definition without_jitter (b : ExponentialBackoff.t) : ExponentialBackoff.t :=
  ExponentialBackoff.mk (ExponentialBackoff.base_delay b) (ExponentialBackoff.max_delay b)
    (ExponentialBackoff.multiplier b) false (ExponentialBackoff.current_attempt b).

(** A clock that stands at 0 during one call of [acquire] and at 1
    during the next, and the limiter after these two calls. *)
Definition chrono_clock : list Q := repeat 0%Q 6 ++ repeat 1%Q 6.

Definition two_grants : RateLimiter.t :=
  fst (snd (acquire_many 2 None (init 60 15 3, chrono_clock))).

End RateLimiterVocabulary.

(** The attempt numbers of the backoff waits in a trace, in order. *)
Definition backoff_waits (tr : list Client.event) : list nat :=
  omap (fun e => match e with Client.EvBackoffWait n => Some n | _ => None end) tr.

(** A response with a 5xx status. *)
Definition server_error (o : Client.net_outcome) : Prop :=
  match o with
  | Client.Response code _ _ => 500 <= code
  | Client.TransportError => False
  end.

(** A network that fails twice, with a transport error and a 503, and
    then answers 200. *)
Definition world_two_failures : Client.world :=
  Client.Build_world
    (fun n => match n with
              | O => Client.TransportError
              | S O => Client.Response 503 Client.NoRetryAfter None
              | _ => Client.Response 200 Client.NoRetryAfter (Some ok_body)
              end)
    (fun _ => Client.AuthOk "token")
    (fun _ => false) (fun _ => true) (fun _ => O).

Section ScannerVocabulary.
Import Scanner.

(** [db'] differs from [db] at most at the keys [name] and [lower name],
    and holds no key that [db] does not hold. *)
Definition changes_only (name : string) (db db' : Database.table) : Prop :=
  (forall n, n <> name -> n <> Database.lower name -> db' !! n = db !! n)
  /\ (forall n, is_Some (db' !! n) -> is_Some (db !! n)).

(** The state of the loop of [run_csv_scan] when it ends, in terms of the
    number [k] of rows it went through. *)
Inductive csv_loop_result (row_limit : Z) (rows : list csv_row)
    (p : progress) (s : t) (p' : progress) (s' : t) : Prop :=
  | csv_loop_ends (visited : nat) (errored : list csv_row)
      (clr_visited : (visited <= length rows)%nat)
      (clr_keep : rows_to_keep p' = rows_to_keep p ++ errored ++ drop visited rows)
      (clr_errored : errored `sublist_of` take visited rows)
      (clr_errors : errors p' = errors p + Z.of_nat (length errored))
      (clr_processed : processed p <= processed p' <= processed p + Z.of_nat visited)
      (clr_limit : processed p' <= Z.max (processed p) row_limit)
      (clr_counts :
         (duplicates_removed p' + scanned_and_saved p' + errors p')
         - (duplicates_removed p + scanned_and_saved p + errors p)
         <= processed p' - processed p)
      (clr_pending : forall row, row ∈ errored -> is_Some (db s' !! csv_name row))
      (clr_table : db s ⊆ db s')
      (clr_new : forall n, is_Some (db s' !! n) ->
         is_Some (db s !! n)
         \/ exists row, row ∈ take visited rows /\ n = csv_name row).

End ScannerVocabulary.
Arguments csv_loop_ends {_ _ _ _ _ _} visited errored.

(** A payload whose subscriber count is a text, and the networks that
    always answer it, or a well-formed payload. *)
Definition text_subscribers_body : json :=
  JObj [("data"%string, JObj [("subscribers"%string, JStr "many")])].

Definition world_text_subscribers : Client.world :=
  world_always (Client.Response 200 Client.NoRetryAfter (Some text_subscribers_body)).

Definition world_ok : Client.world :=
  world_always (Client.Response 200 Client.NoRetryAfter (Some ok_body)).

(** [active_row] after a refresh at [run_time] that stored [ok_body]. *)
Definition refreshed_row : Database.row :=
  Database.mk_row
    (Database.mk_payload Database.CNull Database.CNull (Database.CNum 5000)
       Database.CNull (Database.CNum 0) Database.CNull Database.CNull
       Database.CNull Database.CNull Database.CNull Database.CNull
       (Database.CNum 1) (Database.CNum 1) (Database.CNum 0) (Database.CNum 0)
       (Database.CNum 0) (Database.CNum 0) (Database.CNum 0)
       Database.CNull Database.CNull Database.CNull (Database.CText "en"))
    "active" 1 (Some run_time) (Some 0) None true.






(** A reader of plain decimal texts, for the examples. *)
Fixpoint decimal_digits (acc : Z) (text : string) : option Z :=
  match text with
  | EmptyString => Some acc
  | String a text' =>
      let n := Z.of_nat (nat_of_ascii a) in
      if (48 <=? n) && (n <=? 57) then decimal_digits (10 * acc + (n - 48)) text'
      else None
  end.

Definition decimal (text : string) : option Z :=
  match text with
  | EmptyString => None
  | _ => decimal_digits 0 text
  end.

(** A list file with three rows, the second without a count, and one
    whose count is no number. *)
Definition three_rows : list Scanner.csv_row :=
  [[("subreddit", "a"); ("subscribers", "5")];
   [("subreddit", "b"); ("subscribers", "")];
   [("subreddit", "c"); ("subscribers", "70")]]%string.

Definition bad_rows : list Scanner.csv_row :=
  [[("subreddit", "a"); ("subscribers", "5")];
   [("subreddit", "b"); ("subscribers", "many")]]%string.

(** A scanner started with [--limit -1] over an empty table. *)
Definition negative_limit_scanner : Scanner.t :=
  Scanner.mk 10 3 ∅ authed_client false (Some (-1)) false 0 0 0 0 [].

(** The limiter [SubredditScanner.__init__] builds from the
    configuration, for integer capacities. *)
Definition rate_limiter_of (c : Config.t) : option RateLimiter.t :=
  match c !! "rate_limit_per_minute", c !! "rate_limit_per_10s",
        c !! "rate_limit_per_1s" with
  | Some (Config.VInt per_minute), Some (Config.VInt per_10s),
    Some (Config.VInt per_1s) => Some (RateLimiter.init per_minute per_10s per_1s)
  | _, _, _ => None
  end.

(** The four credentials, and a file system without the two paths. *)
Definition credentials : Config.environ :=
  list_to_map [("REDDIT_CLIENT_ID", "id"); ("REDDIT_CLIENT_SECRET", "secret");
               ("REDDIT_USERNAME", "user"); ("REDDIT_PASSWORD", "password")]%string.

Definition empty_fs : string -> option Config.path_kind := fun _ => None.

(** * Properties *)

(** ** Rate limiter *)

Section RateLimiterProperties.
Import RateLimiter.

Lemma Qlt_bool_iff (x y : Q) : Qlt_bool x y = true <-> (x < y)%Q.
Proof.
  unfold Qlt_bool. rewrite negb_true_iff. split; intros H.
  - apply Qnot_le_lt. intros Hle. apply Qle_bool_iff in Hle. congruence.
  - apply not_true_is_false. intros Hle. apply Qle_bool_iff in Hle.
    apply (Qlt_not_le _ _ H Hle).
Qed.

(** With fewer than four readings left, [_get_wait_time] is stuck. *)
Lemma _get_wait_time_short l c :
  (length c < 4)%nat -> fst (_get_wait_time (l, c)) = Stuck.
Proof.
  intros H. destruct c as [|t0 [|t1 [|t2 [|t3 c]]]]; try reflexivity.
  simpl in H. lia.
Qed.

(** Otherwise it consumes four readings, prunes the three windows and
    changes nothing else, whether it returns or raises. *)
Lemma _get_wait_time_run l t0 t1 t2 t3 c :
  exists r, _get_wait_time (l, t0 :: t1 :: t2 :: t3 :: c) = (r, (prune3 l t1 t2 t3, c))
    /\ r <> Stuck.
Proof.
  unfold _get_wait_time, check_window, oldest_of, _cleanup_window, bind,
    time_time, get, modify, ret, raise_IndexError.
  cbn [fst snd]. fold (prune3 l t1 t2 t3).
  repeat case_match; simplify_eq; eauto.
Qed.

Lemma popleft_while_prefix cutoff w :
  exists p, w = p ++ popleft_while cutoff w /\ Forall (fun x => (x < cutoff)%Q) p.
Proof.
  induction w as [|x w IH]; simpl.
  - exists []. by split.
  - destruct (Qlt_bool x cutoff) eqn:E.
    + destruct IH as (p & Hp & HF). exists (x :: p). split.
      * simpl. by rewrite <- Hp.
      * constructor; [by apply Qlt_bool_iff | done].
    + exists []. by split.
Qed.

Lemma expired_prefix_step used now h w :
  now ∈ used -> expired_prefix used h w (popleft_while (now - h) w).
Proof.
  intros Hin. destruct (popleft_while_prefix (now - h) w) as (p & Hp & HF).
  exists p. split; [done|]. eapply Forall_impl; [exact HF|].
  intros x Hx. by exists now.
Qed.

Lemma expired_prefix_trans u1 u2 h w1 w2 w3 :
  expired_prefix u1 h w1 w2 -> expired_prefix u2 h w2 w3 ->
  expired_prefix (u1 ++ u2) h w1 w3.
Proof.
  intros (p & -> & Hp) (q & -> & Hq). exists (p ++ q). split.
  - by rewrite app_assoc.
  - apply Forall_app. split; (eapply Forall_impl; [eassumption|]);
      intros x (now & Hin & Hlt); exists now; (split; [|done]);
      apply elem_of_app; auto.
Qed.

Lemma expired_prefix_cons t used h w w' :
  expired_prefix used h w w' -> expired_prefix (t :: used) h w w'.
Proof.
  intros (p & ? & HF). exists p. split; [done|].
  eapply Forall_impl; [exact HF|]. intros x (now & ? & ?). exists now. set_solver.
Qed.

Lemma pruning_prune3 l t0 t1 t2 t3 rest :
  pruning (t0 :: t1 :: t2 :: t3 :: rest) l (prune3 l t1 t2 t3).
Proof.
  split; try reflexivity; simpl; apply expired_prefix_step; set_solver.
Qed.

Lemma pruning_incr_blocked used l l' :
  pruning used l l' -> pruning used l (incr_blocked l').
Proof. intros []. by split. Qed.

Lemma pruning_trans u1 u2 l1 l2 l3 :
  pruning u1 l1 l2 -> pruning u2 l2 l3 -> pruning (u1 ++ u2) l1 l3.
Proof.
  intros [] []. split; try congruence; eapply expired_prefix_trans; eassumption.
Qed.

(** The loop of [acquire] can answer [False] only from the timeout test:
    up to there it has pruned and counted blocked iterations. *)
Lemma acquire_loop_timed_out fuel timeout start l c l' c' :
  acquire_loop fuel timeout start (l, c) = (Return false, (l', c')) ->
  exists used k, c = used ++ c' /\ pruning used l l' /\ (1 <= k)%Z /\
    requests_blocked l' = requests_blocked l + k.
Proof.
  revert l c. induction fuel as [|fuel IH]; intros l c H; [discriminate|].
  cbn [acquire_loop] in H. unfold bind at 1 in H.
  destruct c as [|t0 [|t1 [|t2 [|t3 c1]]]];
    [discriminate H|discriminate H|discriminate H|discriminate H|].
  destruct (_get_wait_time_run l t0 t1 t2 t3 c1) as (r & E & Hr).
  rewrite E in H. destruct r as [w| |]; try done.
  destruct (Qle_bool w 0).
  { unfold bind, time_time, modify, ret in H. cbn [fst snd] in H.
    destruct c1; cbn in H; discriminate H. }
  destruct timeout as [tmo|].
  - unfold bind at 1 in H. unfold time_time in H. cbn [snd fst] in H.
    destruct c1 as [|t4 c2]; [discriminate|].
    destruct (Qlt_bool tmo (t4 - start + w)).
    + unfold bind, modify, ret in H. simpl in H. inversion H; subst.
      exists [t0; t1; t2; t3; t4], 1. split; [done|]. split; [|done].
      apply pruning_incr_blocked, pruning_prune3.
    + unfold bind at 1 2, modify, sleep, ret in H. cbn [fst snd] in H.
      apply IH in H as (used & k & -> & Hp & Hk & Hb).
      exists ([t0; t1; t2; t3; t4] ++ used), (k + 1). split; [done|].
      split; [|simpl in Hb; lia].
      eapply pruning_trans; [|exact Hp].
      apply pruning_incr_blocked, pruning_prune3.
  - unfold bind at 1 2, modify, sleep, ret in H. cbn [fst snd] in H.
    apply IH in H as (used & k & -> & Hp & Hk & Hb).
    exists ([t0; t1; t2; t3] ++ used), (k + 1). split; [done|].
    split; [|simpl in Hb; lia].
    eapply pruning_trans; [|exact Hp].
    apply pruning_incr_blocked, pruning_prune3.
Qed.

Lemma _get_wait_time_stuck l c l' c' :
  _get_wait_time (l, c) = (Stuck, (l', c')) -> c' = [].
Proof.
  destruct c as [|t0 [|t1 [|t2 [|t3 c1]]]]; try (intros [= <- <-]; done).
  destruct (_get_wait_time_run l t0 t1 t2 t3 c1) as (r & -> & Hr).
  intros [= -> _ _]. done.
Qed.

(** The fuel of [acquire] is never the reason for being stuck: a stuck
    call has used up the clock. *)
Lemma acquire_loop_stuck fuel timeout start l c l' c' :
  (length c < fuel)%nat ->
  acquire_loop fuel timeout start (l, c) = (Stuck, (l', c')) -> c' = [].
Proof.
  revert l c. induction fuel as [|fuel IH]; intros l c Hlen H; [lia|].
  cbn [acquire_loop] in H. unfold bind at 1 in H.
  destruct (_get_wait_time (l, c)) as [[w| |] [l1 c1]] eqn:E; [|discriminate H|].
  2:{ injection H as <- <-. by apply _get_wait_time_stuck in E. }
  destruct c as [|t0 [|t1 [|t2 [|t3 c2]]]]; try discriminate E.
  destruct (_get_wait_time_run l t0 t1 t2 t3 c2) as (r & E' & Hr).
  rewrite E' in E. injection E as -> <- <-.
  destruct (Qle_bool w 0).
  { unfold bind, time_time, modify, ret in H. cbn [fst snd] in H.
    destruct c2; cbn in H; [by injection H as <- <-|discriminate H]. }
  destruct timeout as [tmo|].
  - unfold bind at 1 in H. unfold time_time in H. cbn [snd fst] in H.
    destruct c2 as [|t4 c3]; [by injection H as <- <-|].
    destruct (Qlt_bool tmo (t4 - start + w)).
    + unfold bind, modify, ret in H. simpl in H. discriminate H.
    + unfold bind at 1 2, modify, sleep, ret in H. cbn [fst snd] in H.
      apply IH in H; [done|]. simpl in Hlen. lia.
  - unfold bind at 1 2, modify, sleep, ret in H. cbn [fst snd] in H.
    apply IH in H; [done|]. simpl in Hlen. lia.
Qed.

Lemma acquire_stuck timeout l c l' c' :
  acquire timeout (l, c) = (Stuck, (l', c')) -> c' = [].
Proof.
  unfold acquire, bind at 1, time_time. cbn [snd fst].
  destruct c as [|t c1]; [by intros [= <- <-]|].
  apply acquire_loop_stuck. simpl. lia.
Qed.

Lemma check_window_positive w cap h now wt s :
  1 <= cap -> exists wt', check_window w cap h now wt s = (Return wt', s).
Proof.
  intros Hcap. unfold check_window.
  destruct (cap <=? Z.of_nat (length w)) eqn:E; [|by eexists].
  destruct w as [|x w]; [apply Z.leb_le in E; simpl in E; lia|by eexists].
Qed.

Lemma _get_wait_time_positive l t0 t1 t2 t3 c :
  positive_capacities l ->
  exists w, _get_wait_time (l, t0 :: t1 :: t2 :: t3 :: c)
            = (Return w, (prune3 l t1 t2 t3, c)).
Proof.
  intros (H60 & H10 & H1).
  unfold _get_wait_time, check_window, oldest_of, _cleanup_window, bind,
    time_time, get, modify, ret, raise_IndexError.
  cbn [fst snd]. fold (prune3 l t1 t2 t3).
  repeat case_match; simplify_eq; try (by eexists); exfalso;
    repeat match goal with
           | H : (_ <=? _) = true |- _ => apply Z.leb_le in H
           end;
    simpl in *;
    repeat match goal with
           | H : popleft_while _ _ = [] |- _ => rewrite H in *
           end;
    simpl in *; lia.
Qed.

(** With capacities of at least one, [acquire] raises no [IndexError]. *)
Lemma acquire_loop_no_error fuel timeout start l c :
  positive_capacities l ->
  fst (acquire_loop fuel timeout start (l, c)) <> IndexError.
Proof.
  revert l c. induction fuel as [|fuel IH]; intros l c Hpos; [done|].
  cbn [acquire_loop]. unfold bind at 1.
  destruct c as [|t0 [|t1 [|t2 [|t3 c1]]]]; try done.
  destruct (_get_wait_time_positive l t0 t1 t2 t3 c1 Hpos) as [w ->].
  assert (Hpos' : positive_capacities (incr_blocked (prune3 l t1 t2 t3))) by exact Hpos.
  destruct (Qle_bool w 0).
  { unfold bind, time_time, modify, ret. cbn [fst snd]. by destruct c1. }
  destruct timeout as [tmo|].
  - unfold bind at 1. unfold time_time. cbn [snd fst].
    destruct c1 as [|t4 c2]; [done|].
    destruct (Qlt_bool tmo (t4 - start + w)); [done|].
    unfold bind at 1 2, modify, sleep, ret. cbn [fst snd]. by apply IH.
  - unfold bind at 1 2, modify, sleep, ret. cbn [fst snd]. by apply IH.
Qed.

Lemma acquire_no_error timeout l c :
  positive_capacities l -> fst (acquire timeout (l, c)) <> IndexError.
Proof.
  intros Hpos. unfold acquire, bind at 1, time_time. cbn [snd fst].
  destruct c as [|t c1]; [done|]. by apply acquire_loop_no_error.
Qed.

(** Called without timeout, as the client does, [acquire] never answers
    [False]. *)
Lemma acquire_loop_without_timeout fuel start l c s' :
  acquire_loop fuel None start (l, c) <> (Return false, s').
Proof.
  revert l c. induction fuel as [|fuel IH]; intros l c H; [discriminate|].
  cbn [acquire_loop] in H. unfold bind at 1 in H.
  destruct c as [|t0 [|t1 [|t2 [|t3 c1]]]];
    [discriminate H|discriminate H|discriminate H|discriminate H|].
  destruct (_get_wait_time_run l t0 t1 t2 t3 c1) as (r & E & Hr).
  rewrite E in H. destruct r as [w| |]; try done.
  destruct (Qle_bool w 0).
  { unfold bind, time_time, modify, ret in H. cbn [fst snd] in H.
    destruct c1; cbn in H; discriminate H. }
  unfold bind at 1 2, modify, sleep, ret in H. cbn [fst snd] in H.
  by apply IH in H.
Qed.

Lemma acquire_without_timeout l c s' :
  acquire None (l, c) <> (Return false, s').
Proof.
  unfold acquire, bind at 1, time_time. cbn [snd fst].
  destruct c as [|t c1]; [discriminate|]. apply acquire_loop_without_timeout.
Qed.
(** C9.  A call of [acquire] that answers [False] (timed out) has
    appended no timestamp and granted nothing: the capacities,
    [total_requests] and [total_wait_time] are unchanged, each window
    has only lost a prefix of entries that were older than its horizon at
    a clock reading consumed by the call, and [requests_blocked] has been
    incremented (once per iteration of the loop, at least once). *)
Theorem acquire_timed_out_state timeout l c l' c' :
  acquire timeout (l, c) = (Return false, (l', c')) ->
  exists used k, c = used ++ c' /\ pruning used l l' /\ (1 <= k)%Z /\
    requests_blocked l' = requests_blocked l + k.
Proof.
  unfold acquire, bind at 1, time_time. cbn [snd fst].
  destruct c as [|t c1]; [discriminate|]. intros H.
  apply acquire_loop_timed_out in H as (used & k & -> & Hp & Hk & Hb).
  exists (t :: used), k. split; [done|]. split; [|done].
  destruct Hp. split; try done; by apply expired_prefix_cons.
Qed.

Lemma acquire_timed_out_state_witness :
  exists l', acquire (Some 0%Q) (full_limiter, half_second_clock)
             = (Return false, (l', [(1 # 2)%Q]))
    /\ exists used k, half_second_clock = used ++ [(1 # 2)%Q]
         /\ pruning used full_limiter l' /\ (1 <= k)%Z
         /\ requests_blocked l' = requests_blocked full_limiter + k.
Proof.
  eexists. split; [vm_compute; reflexivity|].
  apply (acquire_timed_out_state (Some 0%Q) full_limiter half_second_clock).
  vm_compute. reflexivity.
Defined.

(** C1 (the code departs from it).  With the capacities 60, 15 and 3,
    three calls of [acquire] at the clock reading [t0] are granted.  When
    the clock then stands at [t0 + 1], pruning keeps the three entries of the
    one-second window, which is therefore at capacity, and the fourth call is
    granted nonetheless; so are eleven more calls at the same reading.  In
    the end the window holds fifteen timestamps, twelve of them within the
    trailing second [(t0, t0 + 1]]. *)
Theorem acquire_grants_beyond_capacity :
  exists l3 c3 l4 c4 l15,
    acquire_many 3 None (init 60 15 3, burst_clock)
      = (Return [true; true; true], (l3, c3))
    /\ requests_per_1s l3 = 3
    /\ head c3 = Some burst_t1
    /\ popleft_while (burst_t1 - 1) (window_1s l3) = [burst_t0; burst_t0; burst_t0]
    /\ acquire None (l3, c3) = (Return true, (l4, c4))
    /\ window_1s l4 = [burst_t0; burst_t0; burst_t0; burst_t1]
    /\ acquire_many 15 None (init 60 15 3, burst_clock)
      = (Return (repeat true 15), (l15, []))
    /\ window_1s l15 = repeat burst_t0 3 ++ repeat burst_t1 12
    /\ grants_within burst_t1 1 (window_1s l15) = 12%nat.
Proof.
  do 5 eexists.
  split; [vm_compute; reflexivity|].
  split; [vm_compute; reflexivity|].
  split; [vm_compute; reflexivity|].
  split; [vm_compute; reflexivity|].
  split; [vm_compute; reflexivity|].
  split; [vm_compute; reflexivity|].
  split; [vm_compute; reflexivity|].
  split; vm_compute; reflexivity.
Qed.

(** Inside the window the limiter does refuse: a fourth call at the
    reading of the first three times out. *)
Example acquire_refuses_inside_window :
  fst (acquire_many 4 (Some 0%Q) (init 60 15 3, repeat burst_t0 24))
  = Return [true; true; true; false].
Proof. vm_compute. reflexivity. Qed.
End RateLimiterProperties.

(** ** API client *)

Section ClientProperties.
Import Client.

Lemma _authenticate_counters w c r c' :
  _authenticate w c = (r, c') ->
  n_request c' = n_request c /\ rate_limit_hits c' = rate_limit_hits c
  /\ exists rest, trace c' = trace c ++ rest.
Proof.
  unfold _authenticate. intros H.
  destruct (auth w (n_auth c)); simplify_eq; simpl; eauto.
Qed.

Lemma attempt_body_counters w url attempt m b c s c' :
  attempt_body w url attempt m b c = (s, c') ->
  n_request c' = S (n_request c)
  /\ rate_limit_hits c' = rate_limit_hits c
       + (if counted_429 (net w (n_request c)) then 1 else 0)
  /\ exists rest, trace c' = trace c ++ [EvAcquire; EvRandomDelay; EvRequest url] ++ rest.
Proof.
  unfold attempt_body, on_exception, on_status_error, on_other_error, backoff_wait.
  cbn [n_request emit next_request]. intros H.
  destruct (net w (n_request c)) as [|code h body]; simpl.
  - case_match; simplify_eq; simpl; rewrite <- ?app_assoc; split_and!; eauto; lia.
  - destruct (code =? 429) eqn:E429; simpl.
    { destruct h; simpl; repeat case_match; simplify_eq; simpl;
        rewrite <- ?app_assoc; split_and!; eauto; lia. }
    destruct (code =? 401) eqn:E401.
    { destruct (_authenticate w _) as [r c1] eqn:EA.
      apply _authenticate_counters in EA as (Hn & Hh & rest & Ht).
      simpl in *. 
      destruct r as [[]|[st|]]; repeat case_match; simplify_eq; simpl;
        rewrite ?Hn, ?Hh, ?Ht, <- ?app_assoc; split_and!; eauto; lia. }
    repeat case_match; simplify_eq; simpl; rewrite <- ?app_assoc; split_and!; eauto; lia.
Qed.






Lemma loop_reaches_attempts w url m r b c r' b' c' :
  loop_reaches w url m r b c r' b' c' ->
  attempts w url m r b c = attempts w url m r' b' c'.
Proof.
  induction 1 as [|r b c b1 c1 r' b' c' Hb _ IH]; [done|].
  cbn [attempts]. by rewrite Hb.
Qed.

Lemma _make_diversity_request_returns w c :
  exists c1, _make_diversity_request w c = (Returns tt, c1).
Proof. unfold _make_diversity_request. repeat case_match; eauto. Qed.

Lemma attempt_body_terminal w url attempt m b c code h body :
  net w (n_request c) = Response code h body ->
  (code = 404 ->
     attempt_body w url attempt m b c
     = (Done (http_status_marker 404), incr_failed_requests (after_request url c)))
  /\ (code = 403 ->
     attempt_body w url attempt m b c
     = (Done (http_status_marker 403), incr_failed_requests (after_request url c)))
  /\ (300 <= code < 400 ->
     exists c', attempt_body w url attempt m b c = (Done JNull, c')
       /\ n_request c' = S (n_request c)
       /\ trace c' = trace c ++ [EvAcquire; EvRandomDelay; EvRequest url]).
Proof.
  intros Hnet. unfold attempt_body. cbn [n_request emit]. rewrite Hnet.
  split_and!.
  - intros ->. reflexivity.
  - intros ->. reflexivity.
  - intros Hc.
    destruct (code =? 429) eqn:E1; [lia|].
    destruct (code =? 401) eqn:E2; [lia|].
    destruct (code =? 302) eqn:E3.
    { eexists. split; [reflexivity|]. simpl. by rewrite <- !app_assoc. }
    unfold is_success. destruct (200 <=? code) eqn:E4; [|lia].
    destruct (code <=? 299) eqn:E5; [lia|]. simpl.
    unfold on_status_error.
    destruct (code =? 404) eqn:E6; [lia|].
    destruct (code =? 403) eqn:E7; [lia|].
    destruct (500 <=? code) eqn:E8; [lia|].
    eexists. split; [reflexivity|]. simpl. by rewrite <- !app_assoc.
Qed.

Lemma get_subreddit_info_at w subreddit c remaining backoff c' :
  item_attempt w subreddit c remaining backoff c' ->
  get_subreddit_info w subreddit c
  = let '(data, c'') := attempts w (about_url subreddit) 3 (S remaining) backoff c' in
    match classify data with
    | Some r => (Returns r, c'')
    | None => (Returns (JNull, "error"%string), c'')
    end.
Proof.
  intros (c1 & c2 & Hd & He & Hl). unfold get_subreddit_info, _make_request.
  rewrite Hd, He. rewrite (loop_reaches_attempts _ _ _ _ _ _ _ _ _ Hl).
  by destruct (attempts _ _ _ _ _ _).
Qed.

(** What a final answer of the item request gives.  Whenever an attempt is
    answered 404, the fetch returns [(None, 'notfound')]; answered 403, it
    returns [(None, 'deleted')]: the two clauses of C5 that hold.  Answered
    with a 3xx status, it returns [(None, 'error')].  In the three cases the
    answer is final: no other request, sleep or backoff follows it. *)
Theorem terminal_classification w subreddit c remaining backoff c' code h body :
  item_attempt w subreddit c remaining backoff c' ->
  net w (n_request c') = Response code h body ->
  (code = 404 ->
     get_subreddit_info w subreddit c
     = (Returns (JNull, "notfound"%string),
        incr_failed_requests (after_request (about_url subreddit) c')))
  /\ (code = 403 ->
     get_subreddit_info w subreddit c
     = (Returns (JNull, "deleted"%string),
        incr_failed_requests (after_request (about_url subreddit) c')))
  /\ (300 <= code < 400 ->
     exists c'', get_subreddit_info w subreddit c = (Returns (JNull, "error"%string), c'')
       /\ n_request c'' = S (n_request c')
       /\ trace c'' = trace c' ++ [EvAcquire; EvRandomDelay; EvRequest (about_url subreddit)]).
Proof.
  intros Hat Hnet. rewrite (get_subreddit_info_at _ _ _ _ _ _ Hat).
  destruct (attempt_body_terminal w (about_url subreddit) (3 - S remaining) 3 backoff c'
              code h body Hnet) as (H404 & H403 & H3xx).
  cbn [attempts]. split_and!.
  - intros Hc. by rewrite (H404 Hc).
  - intros Hc. by rewrite (H403 Hc).
  - intros Hc. destruct (H3xx Hc) as (c'' & -> & Hn & Ht). exists c''. by split.
Qed.


Lemma terminal_classification_witness :
  get_subreddit_info (world_always (Response 404 NoRetryAfter None)) "x" authed_client
  = (Returns (JNull, "notfound"%string),
     incr_failed_requests (after_request (about_url "x") ready_client)).
Proof.
  assert (Hat : item_attempt (world_always (Response 404 NoRetryAfter None)) "x"
                  authed_client 2 0 ready_client).
  { exists (next_random authed_client), ready_client.
    split; [reflexivity|]. split; [reflexivity|]. apply reaches_here. }
  destruct (terminal_classification (world_always (Response 404 NoRetryAfter None)) "x"
              authed_client 2 0 ready_client 404 NoRetryAfter None Hat eq_refl)
    as (H & _).
  exact (H eq_refl).
Defined.

(** The classification order on a successful payload: the quarantine flag
    wins over the type, the private type over the default. *)
Example classify_quarantined :
  classify (JObj [("data", JObj [("quarantine", JBool true);
                                 ("subreddit_type", JStr "private")])]%string)
  = Some (JObj [("quarantine", JBool true); ("subreddit_type", JStr "private")]%string,
          "quarantined"%string).
Proof. reflexivity. Qed.

Example classify_private :
  classify (JObj [("data", JObj [("subreddit_type", JStr "private")])]%string)
  = Some (JObj [("subreddit_type", JStr "private")]%string, "private"%string).
Proof. reflexivity. Qed.

Example classify_active :
  classify ok_body = Some (JObj [("subscribers"%string, JNum 5000)], "active"%string).
Proof. reflexivity. Qed.

(** A body that is not a dict: the statements of the [try] raise, or find
    nothing. *)
Example classify_text_raises : classify (JStr "no data here") = None.
Proof. reflexivity. Qed.

Example classify_text_without_key :
  classify (JStr "html page") = Some (JNull, "error"%string).
Proof. reflexivity. Qed.
Lemma classify_shape data metadata status :
  classify data = Some (metadata, status) ->
  (metadata = JNull \/ exists fields, metadata = JObj fields)
  /\ status ∈ classifications.
Proof.
  unfold classify, classifications, py_get, py_getitem. intros H.
  repeat case_match; simplify_eq; split; eauto; set_solver.
Qed.

Lemma attempts_transient w url m remaining b c :
  (remaining <= m)%nat ->
  (forall n, (n_request c <= n)%nat -> transient (net w n)) ->
  exists c', attempts w url m remaining b c = (JNull, c')
    /\ n_request c' = (n_request c + remaining)%nat.
Proof.
  revert b c. induction remaining as [|r IH]; intros b c Hle Htr.
  - exists c. split; [done|lia].
  - cbn [attempts].
    destruct (attempt_body w url (m - S r) m b c) as [s c1] eqn:E.
    pose proof (attempt_body_counters _ _ _ _ _ _ _ _ E) as (Hn & _ & _).
    assert (Hs : match s with Done v => v = JNull /\ r = 0%nat | Continue _ => True end).
    { pose proof (Htr (n_request c) ltac:(lia)) as Ht.
      revert E. unfold attempt_body. cbn [n_request emit].
      destruct (net w (n_request c)) as [|code h body]; simpl in Ht.
      - unfold on_other_error, backoff_wait.
        destruct (Z.of_nat (m - S r) <? Z.of_nat m - 1) eqn:Elt;
          intros; simplify_eq; [done|].
        apply Z.ltb_ge in Elt. split; [done|lia].
      - destruct (code =? 429) eqn:E1; [lia|].
        destruct (code =? 401) eqn:E2; [lia|].
        destruct (code =? 302) eqn:E3; [lia|].
        unfold is_success. destruct (code <=? 299) eqn:E5; [lia|].
        rewrite andb_false_r. unfold on_status_error, backoff_wait.
        destruct (code =? 404) eqn:E6; [lia|].
        destruct (code =? 403) eqn:E7; [lia|].
        destruct (500 <=? code) eqn:E8; [|lia].
        intros; by simplify_eq. }
    destruct s as [v|b1].
    + destruct Hs as [-> ->]. exists c1. split; [done|lia].
    + destruct (IH b1 c1 ltac:(lia)) as (c' & Ha & Hc).
      { intros n Hn'. apply Htr. lia. }
      exists c'. split; [done|lia].
Qed.

(** The part of C6 that holds.  [get_subreddit_info] never raises: it
    always returns a pair whose metadata is [None] or a dict and whose
    status is one of the six classifications.  When the item request raises
    or returns [None] the pair is [(None, 'error')]; in particular when
    every answer is a transport error or a 5xx response it is returned
    after exactly three requests. *)
Theorem get_subreddit_info_never_raises w subreddit c :
  (exists metadata status c',
      get_subreddit_info w subreddit c = (Returns (metadata, status), c')
      /\ (metadata = JNull \/ exists fields, metadata = JObj fields)
      /\ status ∈ classifications)
  /\ (forall c1 r c2,
        _make_diversity_request w c = (Returns tt, c1) ->
        _make_request w (about_url subreddit) 3 c1 = (r, c2) ->
        r = Returns JNull \/ (exists e, r = Raises e) ->
        get_subreddit_info w subreddit c = (Returns (JNull, "error"%string), c2))
  /\ (forall c1 c2,
        _make_diversity_request w c = (Returns tt, c1) ->
        _ensure_token_valid w c1 = (Returns tt, c2) ->
        (forall n, (n_request c2 <= n)%nat -> transient (net w n)) ->
        exists c3,
          get_subreddit_info w subreddit c = (Returns (JNull, "error"%string), c3)
          /\ n_request c3 = (n_request c2 + 3)%nat).
Proof.
  split_and!.
  - unfold get_subreddit_info.
    destruct (_make_diversity_request_returns w c) as [c1 ->].
    destruct (_make_request w (about_url subreddit) 3 c1) as [[data|e] c2].
    + destruct (classify data) as [[metadata status]|] eqn:E.
      * apply classify_shape in E as [? ?]. by exists metadata, status, c2.
      * exists JNull, "error"%string, c2. split; [done|]. split; [by left|].
        unfold classifications. set_solver.
    + exists JNull, "error"%string, c2. split; [done|]. split; [by left|].
      unfold classifications. set_solver.
  - intros c1 r c2 Hd Hm Hr. unfold get_subreddit_info. rewrite Hd, Hm.
    destruct Hr as [-> | [e ->]]; reflexivity.
  - intros c1 c2 Hd He Htr. unfold get_subreddit_info, _make_request.
    rewrite Hd, He.
    destruct (attempts_transient w (about_url subreddit) 3 3 0 c2 ltac:(lia) Htr)
      as (c3 & -> & Hn).
    by exists c3.
Qed.

Lemma get_subreddit_info_never_raises_witness :
  exists c3,
    get_subreddit_info (world_always (Response 503 NoRetryAfter None)) "x" authed_client
    = (Returns (JNull, "error"%string), c3)
    /\ n_request c3 = (n_request ready_client + 3)%nat.
Proof.
  destruct (get_subreddit_info_never_raises
              (world_always (Response 503 NoRetryAfter None)) "x" authed_client)
    as (_ & _ & H).
  apply (H (next_random authed_client) ready_client); [reflexivity|reflexivity|].
  intros n _. simpl. lia.
Defined.

(** C6.  A failure that is not one of the item is reported as a verdict
    on the item.  With a token in place, an item request answered 401 makes
    the client authenticate again inside the retry loop; when the token
    endpoint answers 403, the fetch returns [(None, 'deleted')] and not
    [(None, 'error')], where the same refusal met before the first attempt
    gives [(None, 'error')].  Refresh mode then counts a forbidden answer
    against the item: the consecutive counter and the retry count of the row
    go to 1. *)
Theorem token_endpoint_status_taken_for_item :
  fst (get_subreddit_info world_token_refused "x" authed_client)
  = Returns (JNull, "deleted"%string)
  /\ fst (get_subreddit_info world_token_refused "x" (Client.init true))
     = Returns (JNull, "error"%string)
  /\ Scanner.consecutive_403s
       (snd (Scanner.process_subreddit world_token_refused run_time "x"
               (scanner_on refresh_store))) = 1
  /\ Database.retry_count
     <$> Scanner.db (snd (Scanner.process_subreddit world_token_refused run_time "x"
                            (scanner_on refresh_store))) !! "x"%string
     = Some (Some 1).
Proof. split_and!; vm_compute; reflexivity. Qed.

End ClientProperties.

(** ** Interleaving *)

Section InterleaveProperties.
Import Scanner.
Context {A : Type} `{EqDecision A}.
Implicit Types (ol result remaining out : list A) (x y : A).
Local Open Scope nat_scope.

Lemma discard_unused ol result x :
  discard x (unused ol result) = unused ol (result ++ [x]).
Proof.
  unfold discard, unused. rewrite list_filter_filter.
  apply list_filter_iff. intros y. rewrite elem_of_app, list_elem_of_singleton.
  tauto.
Qed.

Lemma elem_of_unused ol result x : x ∈ unused ol result <-> (x ∉ result) /\ (x ∈ ol).
Proof. unfold unused. by rewrite list_elem_of_filter. Qed.

Lemma skip_used_app l1 x l2 remaining n :
  Forall (fun y => y ∉ remaining) l1 -> x ∈ remaining ->
  skip_used (l1 ++ x :: l2) remaining n = n + length l1.
Proof.
  intros Hl Hx. revert n. induction Hl as [|y l1 Hy _ IH]; intros n; simpl.
  - rewrite bool_decide_eq_true_2 by done. lia.
  - rewrite bool_decide_eq_false_2 by done. rewrite IH. lia.
Qed.

(** Both branches of the first half of the loop body take the item at
    the index where the skipping loop stops. *)
Lemma pick_ordered_skip ol result remaining idx :
  pick_ordered ol result remaining idx
  = let i := skip_used (drop idx ol) remaining idx in
    match ol !! i with
    | Some sub => (result ++ [sub], discard sub remaining, S i)
    | None => (result, remaining, i)
    end.
Proof.
  unfold pick_ordered. destruct (ol !! idx) as [sub|] eqn:E; [|done].
  destruct (bool_decide (sub ∈ remaining)) eqn:Eb; [|done].
  rewrite (drop_S _ _ _ E). simpl. rewrite Eb. simpl. by rewrite E.
Qed.

(** Under the loop invariant the item taken is the first one of the
    ordered list that is not yet in the result. *)
Lemma pick_ordered_next ol result idx x rest :
  (forall j y, j < idx -> ol !! j = Some y -> y ∈ result) ->
  unused ol result = x :: rest ->
  exists i, ol !! i = Some x
    /\ (forall j y, j < S i -> ol !! j = Some y -> y ∈ result ++ [x])
    /\ pick_ordered ol result (unused ol result) idx
       = (result ++ [x], discard x (unused ol result), S i).
Proof.
  intros Hidx Hrem.
  assert (Hhead : head (filter (fun y => y ∉ result) ol) = Some x).
  { fold (unused ol result). by rewrite Hrem. }
  apply head_filter_Some in Hhead as (l1 & l2 & -> & Hl1).
  assert (Hx : x ∈ unused (l1 ++ x :: l2) result).
  { rewrite Hrem. left. }
  assert (Hle : idx <= length l1).
  { destruct (decide (idx <= length l1)) as [|Hn]; [done|].
    apply elem_of_unused in Hx as [Hx _]. exfalso. apply Hx.
    apply (Hidx (length l1)); [lia|]. by rewrite list_lookup_middle. }
  exists (length l1). split; [by rewrite list_lookup_middle|]. split.
  - intros j y Hj Hy. apply elem_of_app.
    destruct (decide (j = length l1)) as [->|Hne].
    + rewrite list_lookup_middle in Hy by done. simplify_eq. right. left.
    + left. rewrite lookup_app_l in Hy by lia.
      apply list_elem_of_lookup_2 in Hy.
      rewrite Forall_forall in Hl1. specialize (Hl1 _ Hy).
      by apply dec_stable in Hl1.
  - rewrite pick_ordered_skip. cbn zeta.
    assert (Hskip : skip_used (drop idx (l1 ++ x :: l2))
                      (unused (l1 ++ x :: l2) result) idx = length l1).
    { rewrite drop_app_le by done.
      rewrite skip_used_app; [rewrite length_drop; lia| |done].
      apply Forall_forall. intros y Hy Hin.
      apply elem_of_unused in Hin as [Hin _]. apply Hin.
      rewrite Forall_forall in Hl1.
      assert (Hy' : y ∈ l1) by (by apply (subseteq_drop idx l1)).
      specialize (Hl1 _ Hy'). by apply dec_stable in Hl1. }
    rewrite Hskip. by rewrite list_lookup_middle.
Qed.

Lemma remove_dups_NoDup_id ol : NoDup ol -> remove_dups ol = ol.
Proof.
  induction 1 as [|x l Hx _ IH]; simpl; [done|].
  case_decide; [done|]. by rewrite IH.
Qed.

Lemma unused_nil ol : unused ol [] = ol.
Proof.
  unfold unused. induction ol as [|x l IH]; [done|].
  rewrite filter_cons_True; [by rewrite IH|]. apply not_elem_of_nil.
Qed.

Lemma unused_nil_permutation ol result :
  NoDup ol -> NoDup result -> (forall x, x ∈ result -> x ∈ ol) ->
  unused ol result = [] -> result ≡ₚ ol.
Proof.
  intros Hol Hres Hsub Hnil. apply NoDup_Permutation; [done|done|].
  intros x. split; [apply Hsub|]. intros Hx.
  destruct (decide (x ∈ result)) as [|Hn]; [done|].
  assert (Hin : x ∈ unused ol result) by (by apply elem_of_unused).
  rewrite Hnil in Hin. by apply not_elem_of_nil in Hin.
Qed.

Lemma alternates_snoc ol choice l x :
  alternates ol choice l ->
  interleaved_at ol choice (l ++ [x]) (length l) ->
  alternates ol choice (l ++ [x]).
Proof.
  intros Hl Hx i Hi. rewrite length_app in Hi. simpl in Hi.
  destruct (decide (i = length l)) as [->|Hne]; [done|].
  assert (Hlt : i < length l) by lia.
  specialize (Hl i Hlt). unfold interleaved_at in *. cbn zeta in *.
  rewrite lookup_app_l by done. rewrite take_app_le by lia. exact Hl.
Qed.

Lemma even_double k : Nat.even (2 * k) = true.
Proof. rewrite Nat.even_mul. reflexivity. Qed.

Lemma even_double_succ k : Nat.even (S (2 * k)) = false.
Proof. rewrite Nat.even_succ, <- Nat.negb_even, even_double. reflexivity. Qed.

Lemma half_double_succ k : S (2 * k) / 2 = k.
Proof. symmetry. apply (Nat.div_unique _ _ _ 1); lia. Qed.

Lemma interleave_loop_spec ol choice :
  NoDup ol ->
  forall fuel k result idx,
    (forall j y, j < idx -> ol !! j = Some y -> y ∈ result) ->
    NoDup result -> (forall x, x ∈ result -> x ∈ ol) ->
    length result = 2 * k ->
    alternates ol choice result ->
    length (unused ol result) < fuel ->
    exists out,
      interleave_loop fuel choice k ol result (unused ol result) idx = Some out
      /\ out ≡ₚ ol /\ alternates ol choice out
      /\ take (length result) out = result.
Proof.
  intros Hol. induction fuel as [|fuel IH];
    intros k result idx Hidx Hres Hsub Hlen Halt Hfuel; [lia|].
  cbn [interleave_loop].
  destruct (unused ol result) as [|x rest] eqn:Hrem.
  { exists result. split; [done|]. split; [by apply unused_nil_permutation|].
    split; [done|]. by rewrite take_ge. }
  destruct (pick_ordered_next ol result idx x rest Hidx Hrem) as (i & Hi & Hpre & Hpick).
  rewrite Hrem in Hpick. rewrite Hpick.
  assert (Hx : x ∈ unused ol result) by (rewrite Hrem; left).
  apply elem_of_unused in Hx as [Hxr Hxo].
  assert (Hrem1 : discard x (x :: rest) = unused ol (result ++ [x])).
  { by rewrite <- Hrem, discard_unused. }
  rewrite Hrem1.
  assert (Hres1 : NoDup (result ++ [x])).
  { apply NoDup_app. split; [done|]. split; [|apply NoDup_singleton].
    intros y Hy Hyx. apply list_elem_of_singleton in Hyx. by subst. }
  assert (Hsub1 : forall y, y ∈ result ++ [x] -> y ∈ ol).
  { intros y Hy. apply elem_of_app in Hy as [Hy|Hy]; [by apply Hsub|].
    apply list_elem_of_singleton in Hy. by subst. }
  assert (Halt1 : alternates ol choice (result ++ [x])).
  { apply alternates_snoc; [done|]. unfold interleaved_at. cbn zeta.
    rewrite list_lookup_middle by done. rewrite take_app_length.
    rewrite Hlen, even_double. by rewrite Hrem. }
  assert (Hlt1 : length (unused ol (result ++ [x])) < length (unused ol result)).
  { rewrite <- discard_unused. unfold discard.
    apply (length_filter_lt _ _ x); [rewrite Hrem; left|]. by intros Hne. }
  destruct (unused ol (result ++ [x])) as [|y0 rest1] eqn:Hrem2.
  { exists (result ++ [x]). split; [done|].
    split; [by apply unused_nil_permutation|]. split; [done|].
    by rewrite take_app_length. }
  destruct (lookup_lt_is_Some_2 (y0 :: rest1) (choice k mod length (y0 :: rest1)))
    as [y Hy].
  { apply Nat.mod_upper_bound. simpl. lia. }
  rewrite Hy.
  assert (Hyin : y ∈ unused ol (result ++ [x])).
  { rewrite Hrem2. by eapply list_elem_of_lookup_2. }
  apply elem_of_unused in Hyin as [Hyr Hyo].
  assert (Hrem3 : discard y (y0 :: rest1) = unused ol ((result ++ [x]) ++ [y])).
  { by rewrite <- Hrem2, discard_unused. }
  rewrite Hrem3.
  destruct (IH (S k) ((result ++ [x]) ++ [y]) (S i)) as (out & Hout & Hperm & Halt2 & Htake).
  - intros j z Hj Hz. apply elem_of_app. left. by eapply Hpre.
  - apply NoDup_app. split; [done|]. split; [|apply NoDup_singleton].
    intros z Hz Hzy. apply list_elem_of_singleton in Hzy. by subst.
  - intros z Hz. apply elem_of_app in Hz as [Hz|Hz]; [by apply Hsub1|].
    apply list_elem_of_singleton in Hz. by subst.
  - rewrite !length_app. simpl. lia.
  - apply alternates_snoc; [done|]. unfold interleaved_at. cbn zeta.
    rewrite list_lookup_middle by done. rewrite take_app_length.
    assert (Hl1 : length (result ++ [x]) = S (2 * k)).
    { rewrite length_app. simpl. lia. }
    rewrite Hl1, even_double_succ, half_double_succ. by rewrite Hrem2.
  - assert (Hlt2 : length (unused ol ((result ++ [x]) ++ [y]))
                   < length (unused ol (result ++ [x]))).
    { rewrite <- discard_unused. unfold discard.
      apply (length_filter_lt _ _ y); [|by intros Hne].
      rewrite Hrem2. by eapply list_elem_of_lookup_2. }
    rewrite Hrem2 in Hlt2. rewrite ?Hrem in Hlt1. simpl in Hlt1, Hfuel, Hlt2. lia.
  - exists out. split; [done|]. split; [done|]. split; [done|].
    transitivity (take (length result) (take (length ((result ++ [x]) ++ [y])) out)).
    { rewrite take_take. f_equal. rewrite !length_app. simpl. lia. }
    rewrite Htake, <- app_assoc. apply take_app_length.
Qed.

Lemma interleave_spec choice ol :
  2 < length ol -> NoDup ol ->
  exists out,
    _interleave_with_random choice ol = Some out
    /\ out ≡ₚ ol /\ alternates ol choice out.
Proof.
  intros Hlen Hol. unfold _interleave_with_random.
  destruct (length ol <=? 2) eqn:E; [apply Nat.leb_le in E; lia|].
  rewrite (remove_dups_NoDup_id ol Hol).
  destruct (interleave_loop_spec ol choice Hol (S (length ol)) 0 [] 0)
    as (out & Hout & Hperm & Halt & _).
  - intros j y Hj. lia.
  - apply NoDup_nil_2.
  - intros x Hx. by apply not_elem_of_nil in Hx.
  - reflexivity.
  - intros i Hi. simpl in Hi. lia.
  - rewrite unused_nil. lia.
  - rewrite unused_nil in Hout. by exists out.
Qed.

(** C8.  On an ordered list of ten distinct items the interleaving
    returns, whatever the random draws, a permutation of the list in which
    every item occurs once; the item at an even position is the first item
    of the priority order not yet output, the item at an odd position is
    the item drawn from the set of those not yet output, and the first
    item is the first of the priority order. *)
Theorem interleave_ten choice ol :
  length ol = 10 -> NoDup ol ->
  exists out,
    _interleave_with_random choice ol = Some out
    /\ out ≡ₚ ol
    /\ NoDup out
    /\ length out = 10
    /\ alternates ol choice out
    /\ head out = head ol.
Proof.
  intros Hlen Hol.
  destruct (interleave_spec choice ol ltac:(lia) Hol) as (out & Hout & Hperm & Halt).
  exists out. split; [done|]. split; [done|].
  split; [by rewrite Hperm|].
  assert (Hlo : length out = 10) by (by rewrite Hperm).
  split; [done|]. split; [done|].
  specialize (Halt 0 ltac:(lia)). unfold interleaved_at in Halt. cbn zeta in Halt.
  rewrite head_lookup, Halt. simpl. by rewrite unused_nil.
Qed.
(** On a list without duplicates the interleaving always returns. *)
Lemma interleave_total (choice : nat -> nat) (ol : list A) :
  NoDup ol -> exists out, _interleave_with_random choice ol = Some out /\ out ≡ₚ ol.
Proof.
  intros Hol. destruct (decide (2 < length ol)%nat) as [Hlen|Hlen].
  - destruct (interleave_spec choice ol Hlen Hol) as (out & Hout & Hperm & _).
    by exists out.
  - exists ol. split; [|done]. unfold _interleave_with_random.
    destruct (length ol <=? 2)%nat eqn:E; [done|]. apply Nat.leb_gt in E. lia.
Qed.

End InterleaveProperties.

Lemma interleave_ten_witness :
  exists out,
    Scanner._interleave_with_random (fun k => (3 * k + 1)%nat) ten_subreddits = Some out
    /\ out ≡ₚ ten_subreddits /\ head out = Some "s0"%string.
Proof.
  destruct (interleave_ten (fun k => (3 * k + 1)%nat) ten_subreddits)
    as (out & H1 & H2 & _ & _ & _ & H3).
  - reflexivity.
  - apply (bool_decide_unpack (NoDup ten_subreddits)). vm_compute. reflexivity.
  - exists out. split; [exact H1|]. split; [exact H2|exact H3].
Defined.

(** The output for the draws [1, 4, 7, 10, 13]. *)
Example ten_subreddits_interleaved :
  Scanner._interleave_with_random (fun k => (3 * k + 1)%nat) ten_subreddits
  = Some ["s0"; "s2"; "s1"; "s7"; "s3"; "s6"; "s4"; "s8"; "s5"; "s9"]%string.
Proof. vm_compute. reflexivity. Qed.

(** ** Store *)

Section DatabaseProperties.
Import Database.

Lemma fix_inconsistent_states_lookup (db : table) name :
  snd (fix_inconsistent_states db) !! name
  = (fun r => fix_completed (fix_pending r)) <$> db !! name.
Proof.
  unfold fix_inconsistent_states. cbn [snd].
  rewrite !lookup_fmap. by destruct (db !! name).
Qed.

Lemma fix_row_consistent r :
  ~ (status (fix_completed (fix_pending r)) = "pending"%string
     /\ metadata_collected (fix_completed (fix_pending r)) = true).
Proof.
  unfold fix_completed, fix_pending, pending_with_metadata, completed_without_metadata.
  destruct (String.eqb (status r) "pending") eqn:E1;
    destruct (metadata_collected r) eqn:E2; simpl;
    rewrite ?E1, ?E2; simpl.
  - apply String.eqb_eq in E1. rewrite E1. simpl. intros [_ ?]. done.
  - rewrite andb_true_r. destruct (String.eqb (status r) "completed") eqn:E3; simpl.
    + rewrite E2. intros [_ ?]. done.
    + rewrite E2. intros [_ ?]. done.
  - rewrite andb_false_r. simpl. intros [H _].
    apply String.eqb_neq in E1. done.
  - rewrite andb_true_r. destruct (String.eqb (status r) "completed") eqn:E3; simpl.
    + rewrite E2. intros [_ ?]. done.
    + rewrite E2. intros [_ ?]. done.
Qed.

(** The work list names every selected row once. *)
Lemma get_subreddits_for_update_NoDup lim days nsfw now (db : table) :
  NoDup (get_subreddits_for_update lim days nsfw now db).
Proof.
  unfold get_subreddits_for_update.
  eapply sublist_NoDup.
  2:{ apply fmap_sublist. unfold apply_limit.
      destruct lim as [n|]; [destruct (0 <? n)|]; [apply sublist_take|done|done]. }
  rewrite merge_sort_Permutation.
  eapply sublist_NoDup; [|apply fmap_sublist, sublist_filter].
  apply NoDup_fst_map_to_list.
Qed.

(** C7, as amended.  [fix_inconsistent_states] sets [metadata_collected]
    to false on every row that is pending and collected, sets the status to
    pending on every row that is completed and not collected, leaves the
    other rows as they are, and leaves no row that is pending and collected.
    [run], the refresh run, calls it first: the work list is selected from
    the corrected store and interleaved, and the loop over the items starts
    on that store.  The list-file run does not call it. *)
Theorem fix_inconsistent_states_corrects (s : Scanner.t) :
  let db := Scanner.db s in
  let db' := snd (fix_inconsistent_states db) in
  (forall name r, db !! name = Some r ->
     status r = "pending"%string -> metadata_collected r = true ->
     db' !! name = Some (set_metadata_collected false r))
  /\ (forall name r, db !! name = Some r ->
     status r = "completed"%string -> metadata_collected r = false ->
     db' !! name = Some (set_status "pending" r))
  /\ (forall name r, db !! name = Some r ->
     ~ (status r = "pending"%string /\ metadata_collected r = true) ->
     ~ (status r = "completed"%string /\ metadata_collected r = false) ->
     db' !! name = Some r)
  /\ (forall name r', db' !! name = Some r' ->
     ~ (status r' = "pending"%string /\ metadata_collected r' = true))
  /\ (forall name, db' !! name = None <-> db !! name = None)
  /\ (forall w now now_at choice,
       exists work,
         work ≡ₚ get_subreddits_for_update (Scanner.limit s) 30 (Scanner.nsfw_only s) now db'
         /\ Scanner.run w now now_at choice s
            = Some (Scanner.run_loop w now_at 0 work (Scanner.set_db db' s))).
Proof.
  intros db db'. subst db'. split_and!.
  - intros name r Hr Hs Hc. rewrite fix_inconsistent_states_lookup, Hr. simpl. f_equal.
    unfold fix_pending, pending_with_metadata. rewrite Hs, Hc. simpl.
    unfold fix_completed, completed_without_metadata. simpl. by rewrite Hs.
  - intros name r Hr Hs Hc. rewrite fix_inconsistent_states_lookup, Hr. simpl. f_equal.
    unfold fix_pending, pending_with_metadata. rewrite Hs, Hc. simpl.
    unfold fix_completed, completed_without_metadata. by rewrite Hs, Hc.
  - intros name r Hr Hp Hc. rewrite fix_inconsistent_states_lookup, Hr. simpl. f_equal.
    unfold fix_pending, pending_with_metadata.
    destruct (String.eqb (status r) "pending" && metadata_collected r) eqn:E1.
    { apply andb_true_iff in E1 as [E1 E2]. apply String.eqb_eq in E1. tauto. }
    unfold fix_completed, completed_without_metadata.
    destruct (String.eqb (status r) "completed" && negb (metadata_collected r)) eqn:E2; [|done].
    apply andb_true_iff in E2 as [E2 E3]. apply String.eqb_eq in E2.
    apply negb_true_iff in E3. tauto.
  - intros name r'. rewrite fix_inconsistent_states_lookup.
    destruct (db !! name) as [r|]; simpl; [|done].
    intros [= <-]. apply fix_row_consistent.
  - intros name. rewrite fix_inconsistent_states_lookup. by destruct (db !! name).
  - intros w now now_at choice. unfold Scanner.run. subst db.
    destruct (fix_inconsistent_states (Scanner.db s)) as [counts fixed].
    cbn [snd Scanner.set_db Scanner.db Scanner.limit Scanner.nsfw_only].
    destruct (interleave_total choice
                (get_subreddits_for_update (Scanner.limit s) 30 (Scanner.nsfw_only s) now fixed)
                (get_subreddits_for_update_NoDup _ _ _ _ _)) as (work & -> & Hperm).
    by exists work.
Qed.

Lemma fix_inconsistent_states_corrects_witness :
  snd (fix_inconsistent_states inconsistent_store) !! "x"%string
  = Some (set_metadata_collected false inconsistent_row).
Proof.
  destruct (fix_inconsistent_states_corrects
              (Scanner.init 10 3 inconsistent_store true)) as (H & _).
  apply (H "x"%string inconsistent_row); reflexivity.
Defined.

(** C10.  After [update_subreddit_status(name, status, error_message)]
    on an existing row, [is_accessible] is 1 exactly when the new status is
    [active] or [pending] and 0 otherwise; [status] and [error_message] hold
    the arguments; no other column of the row and no other row is
    changed. *)
Theorem update_subreddit_status_columns name new_status message (db : table) r :
  db !! lower name = Some r ->
  exists r',
    update_subreddit_status name new_status message db !! lower name = Some r'
    /\ status r' = new_status
    /\ error_message r' = message
    /\ (is_accessible r' = 1 <-> new_status = "active"%string \/ new_status = "pending"%string)
    /\ (is_accessible r' = 0 <-> ~ (new_status = "active"%string \/ new_status = "pending"%string))
    /\ data r' = data r
    /\ last_updated r' = last_updated r
    /\ retry_count r' = retry_count r
    /\ metadata_collected r' = metadata_collected r
    /\ (forall other, other <> lower name ->
          update_subreddit_status name new_status message db !! other = db !! other).
Proof.
  intros Hr. unfold update_subreddit_status. eexists. split.
  { rewrite lookup_alter_eq, Hr. reflexivity. }
  cbn [set_status_fields status error_message is_accessible data last_updated
       retry_count metadata_collected].
  split_and!; try reflexivity.
  - destruct (String.eqb new_status "active") eqn:E1; simpl.
    { apply String.eqb_eq in E1. tauto. }
    destruct (String.eqb new_status "pending") eqn:E2; simpl.
    { apply String.eqb_eq in E2. tauto. }
    apply String.eqb_neq in E1, E2. split; [done|]. tauto.
  - destruct (String.eqb new_status "active") eqn:E1; simpl.
    { apply String.eqb_eq in E1. split; [done|]. tauto. }
    destruct (String.eqb new_status "pending") eqn:E2; simpl.
    { apply String.eqb_eq in E2. split; [done|]. tauto. }
    apply String.eqb_neq in E1, E2. tauto.
  - intros other Hne. by rewrite lookup_alter_ne.
Qed.

Lemma update_subreddit_status_columns_witness :
  exists r',
    update_subreddit_status "X" "private" None pending_store !! "x"%string = Some r'
    /\ status r' = "private"%string /\ is_accessible r' = 0.
Proof.
  destruct (update_subreddit_status_columns "X" "private" None pending_store pending_row)
    as (r' & H1 & H2 & _ & _ & H4 & _); [reflexivity|].
  exists r'. split; [exact H1|]. split; [exact H2|].
  apply H4. intros [H|H]; discriminate H.
Defined.
End DatabaseProperties.

(** ** Orchestrator *)

Section ScannerProperties.
Import Scanner.

Lemma needs_update_active cutoff nsfw r :
  Database.needs_update cutoff nsfw r = true ->
  Database.status r = "active"%string /\ Database.metadata_collected r = true.
Proof.
  unfold Database.needs_update. intros H.
  apply andb_true_iff in H as [H _]. apply andb_true_iff in H as [H _].
  apply andb_true_iff in H as [H1 H2]. apply String.eqb_eq in H2. done.
Qed.

Lemma elem_of_apply_limit {B} lim (l : list B) x :
  x ∈ Database.apply_limit lim l -> x ∈ l.
Proof.
  unfold Database.apply_limit. destruct lim as [n|]; [|done].
  destruct (0 <? n); [|done]. apply (subseteq_take (Z.to_nat n)).
Qed.

(** Only rows with status [active] are ever put on the work list. *)
Lemma get_subreddits_for_update_active lim days nsfw now (store : Database.table) name :
  name ∈ Database.get_subreddits_for_update lim days nsfw now store ->
  exists r, store !! name = Some r /\ Database.status r = "active"%string.
Proof.
  unfold Database.get_subreddits_for_update. intros H.
  apply list_elem_of_fmap in H as ([k r] & -> & H).
  apply elem_of_apply_limit in H. rename H into Hin.
  rewrite merge_sort_Permutation in Hin.
  apply list_elem_of_filter in Hin as [Hneed Hin].
  apply elem_of_map_to_list in Hin. apply needs_update_active in Hneed as [? _].
  exists r. by split.
Qed.

(** What [process_subreddit] does when the fetch is classified deleted:
    the counter and the retry count are incremented; from three on the row
    is deleted and the counter reset, below three the count is stored.  The
    status stays [processing]. *)
Lemma process_subreddit_deleted w now subreddit s c' :
  Client.get_subreddit_info w subreddit (reddit_client s)
    = (Client.Returns (JNull, "deleted"%string), c') ->
  let marked := Database.update_subreddit subreddit "processing" None None (db s) in
  let retry_count := Database.select_retry_count subreddit marked + 1 in
  exists s', process_subreddit w now subreddit s = (true, s')
    /\ reddit_client s' = c'
    /\ (3 <= retry_count ->
          db s' = Database.delete_subreddit subreddit marked
          /\ consecutive_403s s' = 0)
    /\ (retry_count < 3 ->
          db s' = Database.update_retry_count subreddit retry_count marked
          /\ consecutive_403s s' = consecutive_403s s + 1).
Proof.
  intros Hfetch marked retry_count. unfold process_subreddit.
  cbn [reddit_client set_db]. rewrite Hfetch.
  unfold handle_result. cbn [is_user_profile truthy String.eqb andb].
  change (String.eqb "deleted" "active") with false.
  change (String.eqb "deleted" "notfound") with false.
  change (String.eqb "deleted" "deleted") with true.
  cbn [andb db set_reddit_client set_consecutive_403s consecutive_403s set_db].
  fold marked. fold retry_count.
  destruct (3 <=? retry_count) eqn:E.
  - eexists. split; [reflexivity|]. split; [reflexivity|].
    apply Z.leb_le in E. split; [done|lia].
  - eexists. split; [reflexivity|]. split; [reflexivity|].
    apply Z.leb_gt in E. split; [lia|done].
Qed.

(** Three calls of [process_subreddit] on the same item, each answered 403:
    the retry count reaches 1, then 2, then the row is deleted and the
    counter is back at 0. *)
Example three_strikes_simulated :
  let s1 := snd (process_subreddit forbidden_world run_time "x" (scanner_on refresh_store)) in
  let s2 := snd (process_subreddit forbidden_world run_time "x" s1) in
  let s3 := snd (process_subreddit forbidden_world run_time "x" s2) in
  (Database.retry_count <$> db s1 !! "x"%string, consecutive_403s s1) = (Some (Some 1), 1)
  /\ (Database.retry_count <$> db s2 !! "x"%string, consecutive_403s s2) = (Some (Some 2), 2)
  /\ (db s3 !! "x"%string, consecutive_403s s3) = (None, 0).
Proof. vm_compute. repeat split; reflexivity. Qed.
(** C2 (the code departs from it).  A row that refresh mode selects and
    whose fetch is answered 403 ends the pass with retry count 1 and the
    status [processing], which [process_subreddit] set before the fetch and
    the deleted branch does not restore.  No later work list contains the
    item, whatever the limit, the staleness and the time, since the query
    selects active rows only: a second pass does nothing, and the three
    strikes are never reached. *)
Theorem refresh_forbidden_item_is_stranded :
  Database.get_subreddits_for_update None 30 false run_time refresh_store = ["x"%string]
  /\ exists s1,
      run forbidden_world run_time (fun _ => run_time) (fun k => k) (scanner_on refresh_store)
        = Some s1
      /\ db s1 !! "x"%string = Some stranded_row
      /\ consecutive_403s s1 = 1
      /\ (forall lim days nsfw now,
            "x"%string ∉ Database.get_subreddits_for_update lim days nsfw now (db s1))
      /\ run forbidden_world run_time (fun _ => run_time) (fun k => k) s1 = Some s1.
Proof.
  split; [vm_compute; reflexivity|].
  eexists. split; [vm_compute; reflexivity|].
  split; [vm_compute; reflexivity|]. split; [vm_compute; reflexivity|].
  split; [|vm_compute; reflexivity].
  intros lim days nsfw now Hin.
  apply get_subreddits_for_update_active in Hin as (r & Hr & Hs).
  vm_compute in Hr. injection Hr as <-. discriminate Hs.
Qed.

Lemma lower_ascii_idempotent a :
  Database.lower_ascii (Database.lower_ascii a) = Database.lower_ascii a.
Proof.
  destruct a as [[] [] [] [] [] [] [] []]; vm_compute; reflexivity.
Qed.

Lemma lower_idempotent name :
  Database.lower (Database.lower name) = Database.lower name.
Proof.
  induction name as [|a name IH]; simpl; [done|].
  by rewrite lower_ascii_idempotent, IH.
Qed.

Lemma add_subreddit_absent name (store : Database.table) :
  store !! Database.lower name = None ->
  Database.add_subreddit name store
  = (true, <[Database.lower name := Database.pending_row]> store).
Proof. intros H. unfold Database.add_subreddit. by rewrite H. Qed.





(** C5.  The redirect clause fails on the code.  The branch for 302 is
    commented as the case of a subreddit that does not exist, as the 404
    branch is; yet a 302 answer is classified [error] and not [notfound],
    and refresh mode then keeps the row with status [error], while it
    deletes the row of an item answered 404. *)
Lemma redirect_is_classified_error :
  ~ redirect_means_notfound
  /\ Database.status
       <$> db (snd (process_subreddit
                      (world_always (Client.Response 302 Client.NoRetryAfter None))
                      run_time "x" (scanner_on refresh_store))) !! "x"%string
     = Some "error"%string
  /\ db (snd (process_subreddit
                (world_always (Client.Response 404 Client.NoRetryAfter None))
                run_time "x" (scanner_on refresh_store))) !! "x"%string
     = None.
Proof.
  split; [|split; vm_compute; reflexivity].
  intros H.
  assert (Hat : item_attempt
                  (world_always (Client.Response 302 Client.NoRetryAfter None)) "x"
                  authed_client 2 0 ready_client).
  { exists (Client.next_random authed_client), ready_client.
    split; [reflexivity|]. split; [reflexivity|]. apply reaches_here. }
  specialize (H _ _ _ _ _ _ 302 Client.NoRetryAfter None Hat eq_refl ltac:(lia)).
  vm_compute in H. discriminate H.
Qed.

(** C7 as stated fails for the list-file run: [run_csv_scan] does not
    call [fix_inconsistent_states]; a row that is pending and collected is
    met as a duplicate, dropped from the list and left as it is. *)
Lemma csv_scan_skips_the_fix :
  ~ csv_scan_fixes_first
  /\ db (snd (run_csv_scan forbidden_world (fun _ => run_time) [csv_row_x]
                (scanner_on inconsistent_store))) !! "x"%string
     = Some inconsistent_row
  /\ fst (run_csv_scan forbidden_world (fun _ => run_time) [csv_row_x]
            (scanner_on inconsistent_store))
     = mk_progress 1 1 0 0 [].
Proof.
  split; [|split; vm_compute; reflexivity].
  intros H.
  destruct (H forbidden_world (fun _ => run_time) [csv_row_x]
              (scanner_on inconsistent_store) "x"%string inconsistent_row
              eq_refl eq_refl eq_refl) as (r' & Hr' & Hc).
  vm_compute in Hr'. injection Hr' as <-. discriminate Hc.
Qed.
End ScannerProperties.

(** * Further properties of the code *)

(** ** Rate limiter and backoff *)

Section RateLimiterExtra.
Import RateLimiter.

Lemma acquire_loop_first_grant fuel timeout start l t0 t1 t2 t3 t4 c :
  below_capacity (prune3 l t1 t2 t3) ->
  acquire_loop (S fuel) timeout start (l, t0 :: t1 :: t2 :: t3 :: t4 :: c)
  = (Return true, (record_grant t4 start (prune3 l t1 t2 t3), c)).
Proof.
  intros (H60 & H10 & H1). cbn [acquire_loop]. unfold bind at 1.
  assert (E : _get_wait_time (l, t0 :: t1 :: t2 :: t3 :: t4 :: c)
              = (Return 0%Q, (prune3 l t1 t2 t3, t4 :: c))).
  { unfold _get_wait_time, check_window, _cleanup_window, bind,
      time_time, get, modify, ret. cbn [fst snd]. fold (prune3 l t1 t2 t3).
    cbn [requests_per_minute requests_per_10s requests_per_1s prune3
         set_window_60s set_window_10s set_window_1s window_60s window_10s window_1s] in *.
    destruct (requests_per_minute l <=? _) eqn:E1; [apply Z.leb_le in E1; lia|].
    destruct (requests_per_10s l <=? _) eqn:E2; [apply Z.leb_le in E2; lia|].
    destruct (requests_per_1s l <=? _) eqn:E3; [apply Z.leb_le in E3; lia|].
    reflexivity. }
  rewrite E. reflexivity.
Qed.

(** While every window, once pruned, is below its capacity, [acquire]
    grants at once: it reads the clock six times, never sleeps, records the
    sixth reading in the three windows and adds to the waiting time what
    passed since the first reading. *)
Theorem acquire_below_capacity timeout l t0 t1 t2 t3 t4 t5 c :
  below_capacity (prune3 l t2 t3 t4) ->
  acquire timeout (l, t0 :: t1 :: t2 :: t3 :: t4 :: t5 :: c)
  = (Return true, (record_grant t5 t0 (prune3 l t2 t3 t4), c)).
Proof.
  intros H. unfold acquire, bind at 1, time_time. cbn [snd fst length].
  by apply acquire_loop_first_grant.
Qed.


Lemma popleft_while_head cutoff w x rest :
  popleft_while cutoff w = x :: rest -> (cutoff <= x)%Q.
Proof.
  induction w as [|y w IH]; simpl; [done|].
  destruct (Qlt_bool y cutoff) eqn:E; [done|].
  intros [= -> ->]. apply Qnot_lt_le. intros Hlt.
  apply Qlt_bool_iff in Hlt. congruence.
Qed.

Lemma check_window_spec window cap h now wt s wt' s' :
  check_window window cap h now wt s = (Return wt', s') ->
  s' = s
  /\ ((Z.of_nat (length window) < cap /\ wt' = wt)
      \/ (cap <= Z.of_nat (length window)
          /\ exists x rest, window = x :: rest /\ wt' = wt ++ [(x + h - now)%Q])).
Proof.
  unfold check_window, oldest_of, bind, ret, raise_IndexError.
  destruct (cap <=? Z.of_nat (length window)) eqn:E.
  - apply Z.leb_le in E. destruct window as [|x rest]; [discriminate|].
    intros [= <- <-]. split; [done|]. right. split; [done|]. by exists x, rest.
  - apply Z.leb_gt in E. intros [= <- <-]. split; [done|]. by left.
Qed.

Lemma max_list_le d ws b :
  (max_list d ws <= b)%Q <-> (d <= b)%Q /\ Forall (fun x => (x <= b)%Q) ws.
Proof.
  unfold max_list. revert d. induction ws as [|x ws IH]; intros d; simpl.
  - split; [intros H; split; [done|constructor]|by intros [H _]].
  - rewrite IH, Q.max_lub_iff, Forall_cons. tauto.
Qed.

Lemma max_list_ge d ws : (d <= max_list d ws)%Q.
Proof.
  unfold max_list. revert d. induction ws as [|x ws IH]; intros d; simpl.
  - apply Qle_refl.
  - eapply Qle_trans; [|apply IH]. apply Q.le_max_l.
Qed.

Lemma max_or_zero_le wt :
  (max_or_zero wt <= 0)%Q <-> Forall (fun x => (x <= 0)%Q) wt.
Proof.
  destruct wt as [|x wt]; simpl.
  - split; [constructor|intros _; apply Qle_refl].
  - rewrite max_list_le, Forall_cons. tauto.
Qed.

Lemma max_or_zero_nonneg wt :
  Forall (fun x => (0 <= x)%Q) wt -> (0 <= max_or_zero wt)%Q.
Proof.
  destruct wt as [|x wt]; simpl; [intros _; apply Qle_refl|].
  intros H. apply Forall_cons in H as [H _].
  eapply Qle_trans; [exact H|apply max_list_ge].
Qed.

(** The wait a full window asks for is not negative when its pruning
    read the clock no earlier than [now]; it is zero exactly when the oldest
    entry kept is one horizon old. *)
Lemma pruned_wait now t h w x rest :
  (now <= t)%Q -> popleft_while (t - h) w = x :: rest ->
  (0 <= x + h - now)%Q /\ ((x + h - now <= 0)%Q <-> (x + h == now)%Q).
Proof.
  intros Ht Hw. apply popleft_while_head in Hw.
  split; [lra|]. split; intros H; lra.
Qed.

Lemma popleft_while_suffix cutoff w : popleft_while cutoff w `suffix_of` w.
Proof.
  destruct (popleft_while_prefix cutoff w) as (p & Hp & _). by exists p.
Qed.

Lemma popleft_while_mono c1 c2 w :
  (c1 <= c2)%Q -> popleft_while c2 w `suffix_of` popleft_while c1 w.
Proof.
  intros Hc. induction w as [|x w IH]; simpl; [done|].
  destruct (Qlt_bool x c1) eqn:E1.
  - apply Qlt_bool_iff in E1.
    assert (E2 : Qlt_bool x c2 = true) by (apply Qlt_bool_iff; lra).
    by rewrite E2.
  - apply (popleft_while_suffix c2 (x :: w)).
Qed.

(** Pruning the longer window at the earlier cutoff keeps the shorter
    window an end of it. *)
Lemma popleft_while_nested c1 c2 w1 w2 :
  (c1 <= c2)%Q -> w2 `suffix_of` w1 ->
  popleft_while c2 w2 `suffix_of` popleft_while c1 w1.
Proof.
  intros Hc [p ->]. induction p as [|y p IH]; simpl.
  - by apply popleft_while_mono.
  - destruct (Qlt_bool y c1); [done|].
    transitivity w2; [apply popleft_while_suffix|].
    by apply suffix_cons_r, suffix_app_r.
Qed.

Lemma sorted_shrink (w w' c c' : list Q) :
  w' `suffix_of` w -> c' `suffix_of` c ->
  StronglySorted Qle (w ++ c) -> StronglySorted Qle (w' ++ c').
Proof.
  intros [p ->] [q ->] H.
  apply StronglySorted_app in H as (H12 & H1 & H2).
  apply StronglySorted_app. split_and!.
  - intros x1 x2 Hx1 Hx2. apply H12; apply elem_of_app; by right.
  - by apply StronglySorted_app_1_r in H1.
  - by apply StronglySorted_app_1_r in H2.
Qed.

Lemma well_formed_tail l t c : well_formed l (t :: c) -> well_formed l c.
Proof.
  intros []. split; try done.
  eapply sorted_shrink; [done| |eassumption]. by apply suffix_cons_r.
Qed.

Lemma well_formed_prune3 l t0 t1 t2 t3 c :
  well_formed l (t0 :: t1 :: t2 :: t3 :: c) -> well_formed (prune3 l t1 t2 t3) c.
Proof.
  intros [Hs H10 H1 Hc Hw].
  assert (H12 : (t1 <= t2)%Q /\ (t2 <= t3)%Q).
  { apply StronglySorted_app_1_r in Hs.
    apply StronglySorted_cons in Hs as [_ Hs].
    apply StronglySorted_cons in Hs as [Ha Hs].
    apply StronglySorted_cons in Hs as [Hb _].
    apply Forall_cons in Ha as [Ha _]. apply Forall_cons in Hb as [Hb _]. done. }
  destruct H12 as [H12 H23].
  split; cbn [prune3 set_window_60s set_window_10s set_window_1s
              window_60s window_10s window_1s total_requests total_wait_time].
  - eapply sorted_shrink; [apply popleft_while_suffix| |exact Hs].
    do 4 apply suffix_cons_r. done.
  - apply popleft_while_nested; [lra|done].
  - apply popleft_while_nested; [lra|done].
  - pose proof (suffix_length _ _ (popleft_while_suffix (t1 - 60) (window_60s l))). lia.
  - done.
Qed.

Lemma well_formed_incr_blocked l c : well_formed l c -> well_formed (incr_blocked l) c.
Proof. intros []. by split. Qed.

Lemma well_formed_record_grant l now start c :
  (start <= now)%Q -> well_formed l (now :: c) ->
  well_formed (record_grant now start l) c.
Proof.
  intros Hst [Hs H10 H1 Hc Hw].
  split; cbn [record_grant window_60s window_10s window_1s total_requests total_wait_time].
  - by rewrite <- app_assoc.
  - by apply suffix_app.
  - by apply suffix_app.
  - rewrite length_app. simpl. lia.
  - lra.
Qed.

Lemma well_formed_clock_ge l t c : well_formed l (t :: c) -> Forall (Qle t) c.
Proof.
  intros [Hs _ _ _ _]. apply StronglySorted_app_1_r in Hs.
  by apply StronglySorted_cons in Hs as [? _].
Qed.

Lemma suffix_elem_of (l1 l2 : list Q) x : l1 `suffix_of` l2 -> x ∈ l1 -> x ∈ l2.
Proof. intros [k ->] Hx. apply elem_of_app. by right. Qed.

Lemma max_or_zero_upper wt b :
  (0 <= b)%Q -> Forall (fun x => (x <= b)%Q) wt -> (max_or_zero wt <= b)%Q.
Proof.
  intros Hb HF. destruct wt as [|x wt]; simpl; [done|].
  apply Forall_cons in HF as [? ?]. by apply max_list_le.
Qed.

(** What the test of one window adds to [wait_times], the window having
    been pruned at a reading not before [now] and holding no timestamp
    later than [now]. *)
Lemma window_free_pruned now t h w cap wt wt' s s' :
  (now <= t)%Q -> Forall (fun x => (x <= now)%Q) w -> (h <= 60)%Q ->
  check_window (popleft_while (t - h) w) cap h now wt s = (Return wt', s') ->
  s' = s /\ exists extra, wt' = wt ++ extra
    /\ Forall (fun x => (0 <= x)%Q) extra
    /\ Forall (fun x => (x <= 60)%Q) extra
    /\ (Forall (fun x => (x <= 0)%Q) extra
        <-> window_free (popleft_while (t - h) w) cap h now).
Proof.
  intros Ht Hpast Hh H.
  apply check_window_spec in H as [-> [[Hlt ->]|(Hle & x & rest & Hw & ->)]].
  - split; [done|]. exists []. rewrite app_nil_r. split; [done|].
    split; [constructor|]. split; [constructor|]. split; [by left|constructor].
  - split; [done|]. exists [(x + h - now)%Q]. split; [done|].
    destruct (pruned_wait now t h w x rest Ht Hw) as [H0 Hiff].
    assert (Hx : (x <= now)%Q).
    { rewrite Forall_forall in Hpast. apply Hpast.
      apply (suffix_elem_of _ _ _ (popleft_while_suffix (t - h) w)).
      rewrite Hw. left. }
    split; [by rewrite Forall_singleton|].
    split; [rewrite Forall_singleton; lra|]. split.
    + intros HF. rewrite Forall_singleton in HF. right.
      exists x, rest. split; [done|]. by apply Hiff.
    + intros [Hlt|(x' & rest' & Hw' & Heq)]; [lia|].
      rewrite Hw in Hw'. injection Hw' as <- <-.
      rewrite Forall_singleton. by apply Hiff.
Qed.

Lemma well_formed_past l t c :
  well_formed l (t :: c) ->
  Forall (fun x => (x <= t)%Q) (window_60s l)
  /\ Forall (fun x => (x <= t)%Q) (window_10s l)
  /\ Forall (fun x => (x <= t)%Q) (window_1s l).
Proof.
  intros [Hs H10 H1 _ _].
  assert (H60 : Forall (fun x => (x <= t)%Q) (window_60s l)).
  { apply Forall_forall. intros x Hx.
    eapply StronglySorted_app_1_elem_of; [exact Hs|done|left]. }
  assert (H10' : Forall (fun x => (x <= t)%Q) (window_10s l)).
  { apply Forall_forall. intros x Hx.
    rewrite Forall_forall in H60. apply H60.
    by apply (suffix_elem_of _ _ _ H10). }
  split; [done|]. split; [done|].
  apply Forall_forall. intros x Hx. rewrite Forall_forall in H10'. apply H10'.
  by apply (suffix_elem_of _ _ _ H1).
Qed.

(** On a limiter in chronological order [_get_wait_time] leaves the
    limiter pruned and returns a wait between 0 and 60 seconds; the wait is
    zero exactly when every window is below its capacity or has an oldest
    entry that is exactly one horizon old at the first reading. *)
Theorem _get_wait_time_bounds l t0 t1 t2 t3 c w s' :
  well_formed l (t0 :: t1 :: t2 :: t3 :: c) ->
  _get_wait_time (l, t0 :: t1 :: t2 :: t3 :: c) = (Return w, s') ->
  let p := prune3 l t1 t2 t3 in
  s' = (p, c)
  /\ (0 <= w <= 60)%Q
  /\ ((w <= 0)%Q <->
      window_free (window_60s p) (requests_per_minute l) 60 t0
      /\ window_free (window_10s p) (requests_per_10s l) 10 t0
      /\ window_free (window_1s p) (requests_per_1s l) 1 t0).
Proof.
  intros Hwf H p.
  destruct (well_formed_past _ _ _ Hwf) as (L60 & L10 & L1).
  pose proof (well_formed_clock_ge _ _ _ Hwf) as Hge.
  apply Forall_cons in Hge as [H1 Hge]. apply Forall_cons in Hge as [H2 Hge].
  apply Forall_cons in Hge as [H3 _].
  unfold _get_wait_time, _cleanup_window, bind, time_time, get, modify, ret in H.
  cbn [fst snd] in H. fold (prune3 l t1 t2 t3) in H. fold p in H.
  change (requests_per_minute p) with (requests_per_minute l) in H.
  change (requests_per_10s p) with (requests_per_10s l) in H.
  change (requests_per_1s p) with (requests_per_1s l) in H.
  change (window_60s p) with (popleft_while (t1 - 60) (window_60s l)) in *.
  change (window_10s p) with (popleft_while (t2 - 10) (window_10s l)) in *.
  change (window_1s p) with (popleft_while (t3 - 1) (window_1s l)) in *.
  destruct (check_window _ (requests_per_minute l) 60 t0 [] (p, c))
    as [[wt1| |] s1] eqn:E1; try discriminate H.
  apply (window_free_pruned t0 t1 60) in E1 as (-> & e1 & -> & P1 & U1 & F1);
    [|done|done|lra].
  destruct (check_window _ (requests_per_10s l) 10 t0 ([] ++ e1) (p, c))
    as [[wt2| |] s2] eqn:E2; try discriminate H.
  apply (window_free_pruned t0 t2 10) in E2 as (-> & e2 & -> & P2 & U2 & F2);
    [|done|done|lra].
  destruct (check_window _ (requests_per_1s l) 1 t0 (([] ++ e1) ++ e2) (p, c))
    as [[wt3| |] s3] eqn:E3; try discriminate H.
  apply (window_free_pruned t0 t3 1) in E3 as (-> & e3 & -> & P3 & U3 & F3);
    [|done|done|lra].
  injection H as <- <-. split; [done|]. split; [split|].
  - apply max_or_zero_nonneg. rewrite !Forall_app. simpl. by repeat split.
  - apply max_or_zero_upper; [lra|]. rewrite !Forall_app. simpl. by repeat split.
  - rewrite max_or_zero_le, !Forall_app. rewrite F1, F2, F3.
    split; [intros [[? ?] ?]; done|intros (? & ? & ?); by repeat split].
Qed.

Lemma acquire_loop_well_formed fuel timeout start l c b l' c' :
  well_formed l c -> Forall (Qle start) c ->
  acquire_loop fuel timeout start (l, c) = (Return b, (l', c')) ->
  well_formed l' c'.
Proof.
  revert l c. induction fuel as [|fuel IH]; intros l c Hwf Hst H; [discriminate|].
  cbn [acquire_loop] in H. unfold bind at 1 in H.
  destruct c as [|t0 [|t1 [|t2 [|t3 c1]]]];
    [discriminate H|discriminate H|discriminate H|discriminate H|].
  destruct (_get_wait_time_run l t0 t1 t2 t3 c1) as (r & E & Hr).
  rewrite E in H. destruct r as [w| |]; try done.
  pose proof (well_formed_prune3 _ _ _ _ _ _ Hwf) as Hwf1.
  assert (Hst1 : Forall (Qle start) c1).
  { do 4 apply Forall_cons in Hst as [_ Hst]. done. }
  destruct (Qle_bool w 0).
  { unfold bind, time_time, modify, ret in H. cbn [fst snd] in H.
    destruct c1 as [|now c2]; cbn in H; [discriminate H|].
    injection H as <- <- <-. apply well_formed_record_grant; [|done].
    by apply Forall_cons in Hst1 as [? _]. }
  destruct timeout as [tmo|].
  - unfold bind at 1 in H. unfold time_time in H. cbn [snd fst] in H.
    destruct c1 as [|t4 c2]; [discriminate|].
    apply well_formed_tail in Hwf1. apply Forall_cons in Hst1 as [_ Hst1].
    destruct (Qlt_bool tmo (t4 - start + w)).
    + unfold bind, modify, ret in H. simpl in H. injection H as <- <- <-.
      by apply well_formed_incr_blocked.
    + unfold bind at 1 2, modify, sleep, ret in H. cbn [fst snd] in H.
      eapply IH; [|exact Hst1|exact H]. by apply well_formed_incr_blocked.
  - unfold bind at 1 2, modify, sleep, ret in H. cbn [fst snd] in H.
    eapply IH; [|exact Hst1|exact H]. by apply well_formed_incr_blocked.
Qed.

Lemma well_formed_stats l c :
  well_formed l c ->
  current_1s_count (get_stats l) <= current_10s_count (get_stats l)
  /\ current_10s_count (get_stats l) <= current_60s_count (get_stats l)
  /\ current_60s_count (get_stats l) <= stats_total_requests (get_stats l)
  /\ (0 <= avg_wait_time (get_stats l))%Q.
Proof.
  intros [Hs H10 H1 Hc Hw]. unfold get_stats.
  cbn [current_1s_count current_10s_count current_60s_count stats_total_requests
       avg_wait_time].
  apply suffix_length in H10, H1. split_and!; try lia.
  destruct (0 <? total_requests l) eqn:E; [|lra].
  apply Z.ltb_lt in E. unfold Qdiv. apply Qmult_le_0_compat; [done|].
  apply Qinv_le_0_compat. change 0%Q with (inject_Z 0).
  rewrite <- Zle_Qle. lia.
Qed.


(** A fresh limiter is in chronological order before any sorted clock. *)
Lemma well_formed_init a b c0 c :
  StronglySorted Qle c -> well_formed (init a b c0) c.
Proof. intros Hc. split; simpl; try done. Qed.


Lemma acquire_many_well_formed n timeout l c bs l' c' :
  well_formed l c ->
  acquire_many n timeout (l, c) = (Return bs, (l', c')) ->
  well_formed l' c'.
Proof.
  revert l c bs. induction n as [|n IH]; intros l c bs Hwf H.
  - cbn in H. by injection H as <- <- <-.
  - cbn [acquire_many] in H. unfold bind at 1 in H.
    destruct (acquire timeout (l, c)) as [[b| |] [l1 c1]] eqn:E; try discriminate H.
    unfold bind at 1 in H.
    destruct (acquire_many n timeout (l1, c1)) as [[bs1| |] [l2 c2]] eqn:E2;
      try discriminate H.
    unfold ret in H. injection H as <- <- <-.
    eapply IH; [|exact E2].
    unfold acquire, bind at 1, time_time in E. cbn [snd fst] in E.
    destruct c as [|t c0]; [discriminate|].
    eapply acquire_loop_well_formed; [|by eapply well_formed_clock_ge|exact E].
    by eapply well_formed_tail.
Qed.

(** A run of calls of [acquire] under a clock that never goes back keeps
    the limiter in chronological order: the windows stay sorted, the
    one-second window is the end of the ten-second window and that one the
    end of the minute window.  So the counts [get_stats] reports are ordered,
    none exceeds [total_requests], and the average wait is not negative. *)
Theorem acquire_many_keeps_chronology n timeout l c bs l' c' :
  well_formed l c ->
  acquire_many n timeout (l, c) = (Return bs, (l', c')) ->
  well_formed l' c'
  /\ current_1s_count (get_stats l') <= current_10s_count (get_stats l')
  /\ current_10s_count (get_stats l') <= current_60s_count (get_stats l')
  /\ current_60s_count (get_stats l') <= stats_total_requests (get_stats l')
  /\ (0 <= avg_wait_time (get_stats l'))%Q.
Proof.
  intros Hwf H.
  assert (Hwf' : well_formed l' c') by (by eapply acquire_many_well_formed).
  split; [done|]. by eapply well_formed_stats.
Qed.

(** What a granted call has done: it has pruned, counted its blocked
    iterations and recorded one reading of the clock. *)
Lemma acquire_loop_granted fuel timeout start l c l' c' :
  acquire_loop fuel timeout start (l, c) = (Return true, (l', c')) ->
  exists used now lp k, c = used ++ now :: c' /\ pruning used l lp /\ 0 <= k
    /\ requests_blocked lp = requests_blocked l + k
    /\ l' = record_grant now start lp.
Proof.
  revert l c. induction fuel as [|fuel IH]; intros l c H; [discriminate|].
  cbn [acquire_loop] in H. unfold bind at 1 in H.
  destruct c as [|t0 [|t1 [|t2 [|t3 c1]]]];
    [discriminate H|discriminate H|discriminate H|discriminate H|].
  destruct (_get_wait_time_run l t0 t1 t2 t3 c1) as (r & E & Hr).
  rewrite E in H. destruct r as [w| |]; try done.
  destruct (Qle_bool w 0).
  { unfold bind, time_time, modify, ret in H. cbn [fst snd] in H.
    destruct c1 as [|now c2]; cbn in H; [discriminate H|].
    injection H as <- <-.
    exists [t0; t1; t2; t3], now, (prune3 l t1 t2 t3), 0.
    split; [done|]. split; [apply pruning_prune3|]. split; [done|].
    split; [simpl; lia|done]. }
  destruct timeout as [tmo|].
  - unfold bind at 1 in H. unfold time_time in H. cbn [snd fst] in H.
    destruct c1 as [|t4 c2]; [discriminate|].
    destruct (Qlt_bool tmo (t4 - start + w)).
    + unfold bind, modify, ret in H. simpl in H. discriminate H.
    + unfold bind at 1 2, modify, sleep, ret in H. cbn [fst snd] in H.
      apply IH in H as (used & now & lp & k & -> & Hp & Hk & Hb & ->).
      exists ([t0; t1; t2; t3; t4] ++ used), now, lp, (k + 1).
      split; [by rewrite <- app_assoc|]. split.
      { eapply pruning_trans; [|exact Hp].
        apply pruning_incr_blocked, pruning_prune3. }
      split; [lia|]. split; [simpl in Hb; lia|done].
  - unfold bind at 1 2, modify, sleep, ret in H. cbn [fst snd] in H.
    apply IH in H as (used & now & lp & k & -> & Hp & Hk & Hb & ->).
    exists ([t0; t1; t2; t3] ++ used), now, lp, (k + 1).
    split; [by rewrite <- app_assoc|]. split.
    { eapply pruning_trans; [|exact Hp].
      apply pruning_incr_blocked, pruning_prune3. }
    split; [lia|]. split; [simpl in Hb; lia|done].
Qed.

(** A granted call of [acquire] has consumed a stretch of the clock,
    dropped only entries that were older than their horizon at one of the
    readings, counted its blocked iterations and recorded its last reading in
    all three windows, with one request more in the total and the time since
    its first reading added to the waiting time. *)
Theorem acquire_granted_state timeout l c l' c' :
  acquire timeout (l, c) = (Return true, (l', c')) ->
  exists start used now lp k,
    c = start :: used ++ now :: c'
    /\ pruning (start :: used) l lp /\ 0 <= k
    /\ requests_blocked lp = requests_blocked l + k
    /\ l' = record_grant now start lp.
Proof.
  unfold acquire, bind at 1, time_time. cbn [snd fst].
  destruct c as [|t c1]; [discriminate|]. intros H.
  apply acquire_loop_granted in H as (used & now & lp & k & -> & Hp & Hk & Hb & ->).
  exists t, used, now, lp, k. split; [done|]. split; [|done].
  destruct Hp. split; try done; by apply expired_prefix_cons.
Qed.

(** The number of [True] answers in a list of answers. *)
Lemma acquire_counts timeout l c b l' c' :
  acquire timeout (l, c) = (Return b, (l', c')) ->
  total_requests l' = total_requests l + (if b then 1 else 0)
  /\ requests_blocked l + (if b then 0 else 1) <= requests_blocked l'.
Proof.
  intros H. destruct b.
  - unfold acquire, bind at 1, time_time in H. cbn [snd fst] in H.
    destruct c as [|t c1]; [discriminate|].
    apply acquire_loop_granted in H as (used & now & lp & k & -> & Hp & Hk & Hb & ->).
    destruct Hp. simpl. split; lia.
  - unfold acquire, bind at 1, time_time in H. cbn [snd fst] in H.
    destruct c as [|t c1]; [discriminate|].
    apply acquire_loop_timed_out in H as (used & k & -> & Hp & Hk & Hb).
    destruct Hp. split; lia.
Qed.


(** After [n] calls of [acquire] that returned, [total_requests] has
    grown by the number of granted calls and [requests_blocked] by at least
    the number of refused ones; a call that waits before it is granted is
    counted as blocked too. *)
Theorem acquire_many_counts n timeout l c bs l' c' :
  acquire_many n timeout (l, c) = (Return bs, (l', c')) ->
  length bs = n
  /\ total_requests l' = total_requests l + Z.of_nat (length (filter (fun b => b = true) bs))
  /\ requests_blocked l + Z.of_nat (length (filter (fun b => b = false) bs))
     <= requests_blocked l'.
Proof.
  revert l c bs. induction n as [|n IH]; intros l c bs H.
  - cbn in H. injection H as <- <- <-. simpl. split; [done|]. split; lia.
  - cbn [acquire_many] in H. unfold bind at 1 in H.
    destruct (acquire timeout (l, c)) as [[b| |] [l1 c1]] eqn:E; try discriminate H.
    unfold bind at 1 in H.
    destruct (acquire_many n timeout (l1, c1)) as [[bs1| |] [l2 c2]] eqn:E2;
      try discriminate H.
    unfold ret in H. injection H as <- <- <-.
    apply acquire_counts in E as [Ht Hb].
    apply IH in E2 as (Hlen & Ht2 & Hb2).
    split; [simpl; by rewrite Hlen|].
    destruct b.
    + rewrite filter_cons_True by done. rewrite filter_cons_False by done.
      simpl length. split; lia.
    + rewrite filter_cons_False by done. rewrite filter_cons_True by done.
      simpl length. split; lia.
Qed.

Lemma acquire_first_raises timeout l t0 t1 t2 t3 t4 c :
  ~ positive_capacities l ->
  fst (acquire timeout (reset l, t0 :: t1 :: t2 :: t3 :: t4 :: c)) = IndexError.
Proof.
  intros Hneg. unfold acquire, bind at 1, time_time. cbn [snd fst length].
  cbn [acquire_loop]. unfold bind at 1.
  unfold _get_wait_time, check_window, oldest_of, _cleanup_window, bind,
    time_time, get, modify, ret, raise_IndexError.
  cbn [fst snd reset window_60s window_10s window_1s popleft_while
       set_window_60s set_window_10s set_window_1s
       requests_per_minute requests_per_10s requests_per_1s length].
  unfold positive_capacities in Hneg.
  destruct (requests_per_minute l <=? Z.of_nat 0) eqn:E1; [done|].
  destruct (requests_per_10s l <=? Z.of_nat 0) eqn:E2; [done|].
  destruct (requests_per_1s l <=? Z.of_nat 0) eqn:E3; [done|].
  apply Z.leb_gt in E1, E2, E3. exfalso. apply Hneg. simpl in *. lia.
Qed.

(** On a limiter with empty windows [acquire] raises [IndexError]
    exactly when one of the three capacities is below 1: a window of
    capacity 0 counts as full when it is empty, and its oldest entry is
    read. *)
Theorem acquire_raises_without_capacity timeout l t0 t1 t2 t3 t4 c :
  fst (acquire timeout (reset l, t0 :: t1 :: t2 :: t3 :: t4 :: c)) = IndexError
  <-> ~ positive_capacities l.
Proof.
  split.
  - intros H Hpos. exact (acquire_no_error timeout (reset l) _ Hpos H).
  - apply acquire_first_raises.
Qed.


Lemma acquire_below_capacity_witness :
  acquire None (reset full_limiter, repeat 0%Q 6)
  = (Return true, (record_grant 0 0 (prune3 (reset full_limiter) 0 0 0), [])).
Proof.
  apply (acquire_below_capacity None (reset full_limiter) 0 0 0 0 0 0 []).
  unfold below_capacity. simpl. lia.
Defined.

Ltac sorted_readings :=
  repeat match goal with
         | |- StronglySorted _ [] => apply SSorted_nil
         | |- StronglySorted _ (_ :: _) => apply SSorted_cons
         | |- Forall _ [] => apply List.Forall_nil
         | |- Forall _ (_ :: _) => apply List.Forall_cons
         | |- Qle _ _ => unfold Qle; simpl; lia
         end.

Lemma sorted_chrono_clock : StronglySorted Qle chrono_clock.
Proof. unfold chrono_clock. simpl. sorted_readings. Qed.

Lemma well_formed_full_limiter : well_formed full_limiter (repeat 1%Q 4).
Proof.
  split; simpl; try done; try lia. sorted_readings.
Qed.

Lemma _get_wait_time_bounds_witness :
  (0 <= 0 <= 60)%Q
  /\ ((0 <= 0)%Q <->
      window_free (window_60s (prune3 full_limiter 1 1 1)) 60 60 1
      /\ window_free (window_10s (prune3 full_limiter 1 1 1)) 15 10 1
      /\ window_free (window_1s (prune3 full_limiter 1 1 1)) 1 1 1).
Proof.
  destruct (_get_wait_time_bounds full_limiter 1 1 1 1 [] 0
              (prune3 full_limiter 1 1 1, []) well_formed_full_limiter)
    as (_ & H1 & H2); [vm_compute; reflexivity|].
  split; [exact H1|exact H2].
Defined.

Lemma acquire_many_keeps_chronology_witness :
  well_formed two_grants []
  /\ current_1s_count (get_stats two_grants) <= current_10s_count (get_stats two_grants)
  /\ current_10s_count (get_stats two_grants) <= current_60s_count (get_stats two_grants)
  /\ current_60s_count (get_stats two_grants) <= stats_total_requests (get_stats two_grants)
  /\ (0 <= avg_wait_time (get_stats two_grants))%Q.
Proof.
  apply (acquire_many_keeps_chronology 2 None (init 60 15 3) chrono_clock [true; true]
           two_grants []).
  - apply well_formed_init, sorted_chrono_clock.
  - vm_compute. reflexivity.
Defined.

Lemma acquire_granted_state_witness :
  exists start used now lp k,
    repeat 0%Q 6 = start :: used ++ [now]
    /\ pruning (start :: used) (init 60 15 3) lp /\ 0 <= k
    /\ requests_blocked lp = requests_blocked (init 60 15 3) + k
    /\ record_grant 0 0 (prune3 (init 60 15 3) 0 0 0) = record_grant now start lp.
Proof.
  apply (acquire_granted_state None (init 60 15 3) (repeat 0%Q 6)
           (record_grant 0 0 (prune3 (init 60 15 3) 0 0 0)) []).
  vm_compute. reflexivity.
Defined.

Lemma acquire_many_counts_witness :
  length [true; true; true; false] = 4%nat
  /\ total_requests (fst (snd (acquire_many 4 (Some 0%Q) (init 60 15 3, repeat burst_t0 24))))
     = total_requests (init 60 15 3)
       + Z.of_nat (length (filter (fun b => b = true) [true; true; true; false]))
  /\ requests_blocked (init 60 15 3)
       + Z.of_nat (length (filter (fun b => b = false) [true; true; true; false]))
     <= requests_blocked
          (fst (snd (acquire_many 4 (Some 0%Q) (init 60 15 3, repeat burst_t0 24)))).
Proof.
  apply (acquire_many_counts 4 (Some 0%Q) (init 60 15 3) (repeat burst_t0 24)
           [true; true; true; false] _ (snd (snd (acquire_many 4 (Some 0%Q)
                                                   (init 60 15 3, repeat burst_t0 24))))).
  vm_compute. reflexivity.
Defined.

End RateLimiterExtra.

Section BackoffProperties.
Import ExponentialBackoff.

Lemma Qpower_succ (q : Q) (n : nat) :
  (q ^ Z.of_nat (S n) == q * q ^ Z.of_nat n)%Q.
Proof.
  rewrite Nat2Z.inj_succ, <- Z.add_1_l. rewrite Qpower_plus' by lia.
  by rewrite Qpower_1_r.
Qed.

Lemma py_min_spec a b :
  (py_min a b <= a)%Q /\ (py_min a b <= b)%Q
  /\ forall z, (z <= a)%Q -> (z <= b)%Q -> (z <= py_min a b)%Q.
Proof.
  unfold py_min. destruct (Qlt_bool b a) eqn:E.
  - apply Qlt_bool_iff in E. split; [lra|]. split; [lra|]. done.
  - assert (H : (a <= b)%Q).
    { apply Qnot_lt_le. intros Hlt. apply Qlt_bool_iff in Hlt. congruence. }
    split; [lra|]. split; [done|]. done.
Qed.


Lemma float_pow_Some x n y :
  float_pow x n = Some y -> y = (x ^ Z.of_nat n)%Q.
Proof. unfold float_pow. case_match; [done|]. by intros [= <-]. Qed.

(** With a base delay and a cap that are not negative, a multiplier of
    at least 1 and a jitter factor between 0.75 and 1.25, [get_delay] returns
    unless the power overflows.  The delay without jitter lies between 0 and
    [max_delay] and does not decrease from one [wait] to the next; the delay
    with jitter is within a quarter of it, so it can exceed the cap by a
    quarter. *)
Theorem backoff_delay_bounds uniform b :
  (0 <= base_delay b)%Q -> (1 <= multiplier b)%Q -> (0 <= max_delay b)%Q ->
  (3 # 4 <= uniform)%Q -> (uniform <= 5 # 4)%Q ->
  ((multiplier b ^ Z.of_nat (current_attempt b) <= float_max)%Q ->
     exists d, get_delay uniform b = Some d)
  /\ forall d, get_delay uniform b = Some d ->
       exists d0, get_delay uniform (without_jitter b) = Some d0
         /\ (0 <= d0)%Q /\ (d0 <= max_delay b)%Q
         /\ ((3 # 4) * d0 <= d)%Q /\ (d <= (5 # 4) * d0)%Q
         /\ (jitter b = false -> d = d0)
         /\ forall b1 d1, wait uniform (without_jitter b) = Some (d0, b1) ->
              get_delay uniform b1 = Some d1 -> (d0 <= d1)%Q.
Proof.
  intros Hbase Hmul Hmax Hu1 Hu2.
  assert (Hpow : forall n, (0 <= multiplier b ^ Z.of_nat n)%Q).
  { intros n. apply Qpower_0_le. lra. }
  split.
  - intros Hfit. unfold get_delay, float_pow.
    destruct (Qlt_bool float_max _) eqn:E; [|simpl; eauto].
    apply Qlt_bool_iff in E. rewrite Qabs_pos in E by apply Hpow. lra.
  - intros d Hd. unfold get_delay in *. cbn [without_jitter multiplier current_attempt
      base_delay max_delay jitter] in *.
    destruct (float_pow (multiplier b) (current_attempt b)) as [power|] eqn:Ep;
      [|discriminate]. simpl in *. injection Hd as <-.
    apply float_pow_Some in Ep. subst power.
    set (power := (multiplier b ^ Z.of_nat (current_attempt b))%Q) in *.
    assert (Hp : (0 <= power)%Q) by apply Hpow.
    destruct (py_min_spec (base_delay b * power)%Q (max_delay b)) as (Ha & Hb & Hc).
    set (d0 := py_min (base_delay b * power)%Q (max_delay b)) in *.
    assert (Hd0 : (0 <= d0)%Q).
    { apply Hc; [|done]. by apply Qmult_le_0_compat. }
    exists d0. split; [done|]. split; [done|]. split; [done|].
    split; [destruct (jitter b); nra|]. split; [destruct (jitter b); nra|].
    split; [by intros ->|].
    intros b1 d1 Hw Hd1. unfold wait, get_delay in Hw.
    cbn [without_jitter multiplier current_attempt base_delay max_delay jitter] in Hw.
    destruct (float_pow (multiplier b) (current_attempt b)) as [power'|] eqn:Ep';
      [|discriminate]. simpl in Hw. injection Hw as _ <-.
    cbn [multiplier current_attempt base_delay max_delay jitter] in Hd1.
    destruct (float_pow (multiplier b) (S (current_attempt b))) as [power1|] eqn:Ep1;
      [|discriminate]. simpl in Hd1. injection Hd1 as <-.
    apply float_pow_Some in Ep1. subst power1.
    destruct (py_min_spec (base_delay b * multiplier b ^ Z.of_nat (S (current_attempt b)))%Q
                (max_delay b)) as (_ & _ & Hc1).
    apply Hc1; [|done].
    eapply Qle_trans; [exact Ha|].
    rewrite Qpower_succ. fold power. nra.
Qed.


Lemma backoff_delay_bounds_witness :
  exists d, get_delay 1 ExponentialBackoff.init = Some d.
Proof.
  destruct (backoff_delay_bounds 1 ExponentialBackoff.init) as [H _];
    try (simpl; lra).
  apply H. vm_compute. discriminate.
Defined.

End BackoffProperties.

(** ** API client *)

Section ClientExtra.
Import Client.

Lemma _authenticate_totals w c r c' :
  _authenticate w c = (r, c') ->
  total_requests c' = total_requests c /\ failed_requests c' = failed_requests c
  /\ n_auth c' = S (n_auth c) /\ backoff_waits (trace c') = backoff_waits (trace c).
Proof.
  unfold _authenticate. intros H.
  destruct (auth w (n_auth c)); simplify_eq; simpl;
    unfold backoff_waits; rewrite omap_app; simpl; rewrite app_nil_r; done.
Qed.

Lemma attempt_body_totals w url attempt m b c s c' :
  attempt_body w url attempt m b c = (s, c') ->
  total_requests c <= total_requests c' <= total_requests c + 1
  /\ failed_requests c <= failed_requests c' <= failed_requests c + 1
  /\ (n_auth c <= n_auth c' <= S (n_auth c))%nat.
Proof.
  unfold attempt_body, on_exception, on_status_error, on_other_error, backoff_wait.
  cbn [n_request emit next_request]. intros H.
  destruct (net w (n_request c)) as [|code h body]; simpl in H.
  - case_match; simplify_eq; simpl; split_and!; lia.
  - destruct (code =? 429) eqn:E429; simpl in H.
    { destruct h; simpl in H; repeat case_match; simplify_eq; simpl; split_and!; lia. }
    destruct (code =? 401) eqn:E401.
    { destruct (_authenticate w _) as [r c1] eqn:EA.
      apply _authenticate_totals in EA as (Ht & Hf & Hn & _). simpl in *.
      destruct r as [[]|[st|]]; repeat case_match; simplify_eq; simpl;
        rewrite ?Ht, ?Hf, ?Hn; split_and!; lia. }
    repeat case_match; simplify_eq; simpl; split_and!; lia.
Qed.

Lemma attempts_budget w url m remaining b c v c' :
  attempts w url m remaining b c = (v, c') ->
  (n_request c <= n_request c' <= n_request c + remaining)%nat
  /\ rate_limit_hits c <= rate_limit_hits c' <= rate_limit_hits c + Z.of_nat remaining
  /\ total_requests c <= total_requests c' <= total_requests c + Z.of_nat remaining
  /\ failed_requests c <= failed_requests c' <= failed_requests c + Z.of_nat remaining
  /\ (n_auth c <= n_auth c' <= n_auth c + remaining)%nat.
Proof.
  revert b c. induction remaining as [|r IH]; intros b c H.
  - cbn in H. injection H as <- <-. split_and!; lia.
  - cbn [attempts] in H.
    destruct (attempt_body w url (m - S r) m b c) as [s c1] eqn:E.
    pose proof (attempt_body_counters _ _ _ _ _ _ _ _ E) as (Hn & Hh & _).
    pose proof (attempt_body_totals _ _ _ _ _ _ _ _ E) as (Ht & Hf & Ha).
    assert (Hh' : rate_limit_hits c <= rate_limit_hits c1 <= rate_limit_hits c + 1).
    { rewrite Hh. case_match; lia. }
    destruct s as [v1|b1].
    + injection H as <- <-. split_and!; lia.
    + apply IH in H as (H1 & H2 & H3 & H4 & H5). split_and!; lia.
Qed.


Lemma _ensure_token_valid_counters w c r c' :
  _ensure_token_valid w c = (r, c') ->
  n_request c' = n_request c /\ rate_limit_hits c' = rate_limit_hits c
  /\ total_requests c' = total_requests c /\ failed_requests c' = failed_requests c
  /\ (n_auth c <= n_auth c' <= S (n_auth c))%nat
  /\ request_diversity c' = request_diversity c.
Proof.
  unfold _ensure_token_valid, _authenticate. intros H.
  repeat case_match; simplify_eq; simpl; split_and!; first [lia|done].
Qed.

Lemma attempt_body_diversity w url attempt m b c s c' :
  attempt_body w url attempt m b c = (s, c') ->
  request_diversity c' = request_diversity c.
Proof.
  unfold attempt_body, on_exception, on_status_error, on_other_error, backoff_wait,
    _authenticate.
  cbn [n_request emit next_request]. intros H.
  repeat case_match; simplify_eq; reflexivity.
Qed.

Lemma attempts_diversity w url m remaining b c :
  request_diversity (snd (attempts w url m remaining b c)) = request_diversity c.
Proof.
  revert b c. induction remaining as [|r IH]; intros b c; [done|].
  cbn [attempts].
  destruct (attempt_body w url (m - S r) m b c) as [s c1] eqn:E.
  apply attempt_body_diversity in E. destruct s as [v|b1]; simpl; [done|].
  by rewrite IH.
Qed.

Lemma _make_request_budget w url m c r c' :
  _make_request w url m c = (r, c') ->
  (n_request c <= n_request c' <= n_request c + m)%nat
  /\ rate_limit_hits c <= rate_limit_hits c' <= rate_limit_hits c + Z.of_nat m
  /\ total_requests c <= total_requests c' <= total_requests c + Z.of_nat m
  /\ failed_requests c <= failed_requests c' <= failed_requests c + Z.of_nat m
  /\ (n_auth c <= n_auth c' <= n_auth c + m + 1)%nat
  /\ request_diversity c' = request_diversity c.
Proof.
  unfold _make_request. intros H.
  destruct (_ensure_token_valid w c) as [[[]|e] c1] eqn:E;
    apply _ensure_token_valid_counters in E as (E1 & E2 & E3 & E4 & E5 & E6).
  - destruct (attempts w url m m 0 c1) as [v c2] eqn:Ea.
    pose proof (attempts_diversity w url m m 0%nat c1) as Hd. rewrite Ea in Hd.
    simpl in Hd.
    apply attempts_budget in Ea as (H1 & H2 & H3 & H4 & H5).
    injection H as <- <-. split_and!; try lia. congruence.
  - injection H as <- <-. split_and!; try lia. done.
Qed.

Lemma _make_diversity_request_budget w c r c' :
  _make_diversity_request w c = (r, c') ->
  (n_request c <= n_request c' <= n_request c + 1)%nat
  /\ rate_limit_hits c <= rate_limit_hits c' <= rate_limit_hits c + 1
  /\ request_diversity c' = request_diversity c
  /\ (request_diversity c = false -> c' = c).
Proof.
  unfold _make_diversity_request. intros H.
  destruct (request_diversity c) eqn:Ed; simpl in H.
  2:{ injection H as <- <-. split_and!; try lia; done. }
  destruct (skip_diversity w (n_random c)).
  { injection H as <- <-. simpl. split_and!; try lia; done. }
  destruct (_make_request w _ 1 _) as [[v|e] c1] eqn:E;
    apply _make_request_budget in E as (H1 & H2 & _ & _ & _ & H6);
    injection H as <- <-; simpl in *; split_and!; try lia; try done; congruence.
Qed.

(** The number of requests one call can make is bounded by its retry
    budget: [_make_request] sends at most [max_retries] requests, receives
    at most that many 429 answers and authenticates at most once more; a
    fetch of one subreddit sends at most four requests, three when the
    diversity requests are switched off. *)
Lemma get_subreddit_info_budget w subreddit c r c' :
  get_subreddit_info w subreddit c = (r, c') ->
  (n_request c' <= n_request c + 4)%nat
  /\ rate_limit_hits c <= rate_limit_hits c' <= rate_limit_hits c + 4
  /\ (request_diversity c = false -> (n_request c' <= n_request c + 3)%nat).
Proof.
  intros H. unfold get_subreddit_info in H.
  destruct (_make_diversity_request w c) as [rd c1] eqn:Ed.
  apply _make_diversity_request_budget in Ed as (D1 & D2 & D3 & D4).
  destruct rd as [[]|e].
  - destruct (_make_request w (about_url subreddit) 3 c1) as [rm c2] eqn:Em.
    apply _make_request_budget in Em as (M1 & M2 & _).
    assert (c' = c2) as -> by (repeat case_match; by simplify_eq).
    split_and!; try lia. intros Hoff. specialize (D4 Hoff). subst c1. lia.
  - injection H as <- <-. split_and!; lia.
Qed.

(** One call of [_make_request] sends at most [max_retries] requests,
    counts at most as many 429 answers and authenticates at most
    [max_retries + 1] times.  One call of [get_subreddit_info] sends at most
    four requests, three when the diversity requests are switched off, and
    counts at most four 429 answers. *)
Theorem request_budget w :
  (forall url max_retries c r c',
     _make_request w url max_retries c = (r, c') ->
     (n_request c' <= n_request c + max_retries)%nat
     /\ rate_limit_hits c <= rate_limit_hits c' <= rate_limit_hits c + Z.of_nat max_retries
     /\ (n_auth c' <= n_auth c + max_retries + 1)%nat)
  /\ (forall subreddit c r c',
        get_subreddit_info w subreddit c = (r, c') ->
        (n_request c' <= n_request c + 4)%nat
        /\ rate_limit_hits c <= rate_limit_hits c' <= rate_limit_hits c + 4
        /\ (request_diversity c = false -> (n_request c' <= n_request c + 3)%nat)).
Proof.
  split.
  - intros url m c r c' H.
    apply _make_request_budget in H as (H1 & H2 & _ & _ & H5 & _). split_and!; lia.
  - intros subreddit c r c'. apply get_subreddit_info_budget.
Qed.


Lemma backoff_waits_app tr1 tr2 :
  backoff_waits (tr1 ++ tr2) = backoff_waits tr1 ++ backoff_waits tr2.
Proof. apply omap_app. Qed.

Lemma _ensure_token_valid_waits w c r c' :
  _ensure_token_valid w c = (r, c') ->
  backoff_waits (trace c') = backoff_waits (trace c).
Proof.
  unfold _ensure_token_valid, _authenticate. intros H.
  repeat case_match; simplify_eq; simpl;
    rewrite ?backoff_waits_app; simpl; rewrite ?app_nil_r; done.
Qed.

(** One attempt that meets a transport error, a 5xx answer or a 2xx
    answer with a JSON body. *)
Lemma attempt_body_transport w url attempt m b c :
  net w (n_request c) = TransportError ->
  exists c', n_request c' = S (n_request c)
    /\ total_requests c' = total_requests c
    /\ failed_requests c' = failed_requests c + 1
    /\ rate_limit_hits c' = rate_limit_hits c
    /\ ((attempt + 1 < m)%nat ->
          attempt_body w url attempt m b c = (Continue (S b), c')
          /\ backoff_waits (trace c') = backoff_waits (trace c) ++ [b])
    /\ ((m <= attempt + 1)%nat ->
          attempt_body w url attempt m b c = (Done JNull, c')
          /\ backoff_waits (trace c') = backoff_waits (trace c)).
Proof.
  intros Hnet. unfold attempt_body, on_other_error, backoff_wait.
  cbn [n_request emit]. rewrite Hnet.
  set (c1 := incr_failed_requests
               (next_request
                  (emit (EvRequest url) (emit EvRandomDelay (emit EvAcquire c))))).
  destruct (Z.of_nat attempt <? Z.of_nat m - 1) eqn:E.
  - apply Z.ltb_lt in E. exists (emit (EvBackoffWait b) c1).
    split_and!; try reflexivity.
    + intros _. split; [reflexivity|]. simpl.
      rewrite !backoff_waits_app. simpl. by rewrite !app_nil_r.
    + intros ?. lia.
  - apply Z.ltb_ge in E. exists c1. split_and!; try reflexivity.
    + intros ?. lia.
    + intros _. split; [reflexivity|]. simpl.
      rewrite !backoff_waits_app. simpl. by rewrite !app_nil_r.
Qed.

Lemma attempt_body_server_error w url attempt m b c :
  server_error (net w (n_request c)) ->
  exists c', attempt_body w url attempt m b c = (Continue (S b), c')
    /\ n_request c' = S (n_request c)
    /\ total_requests c' = total_requests c + 1
    /\ failed_requests c' = failed_requests c + 1
    /\ rate_limit_hits c' = rate_limit_hits c
    /\ backoff_waits (trace c') = backoff_waits (trace c) ++ [b].
Proof.
  intros Hnet. unfold attempt_body. cbn [n_request emit].
  destruct (net w (n_request c)) as [|code h body]; [done|]. simpl in Hnet.
  destruct (code =? 429) eqn:E1; [lia|].
  destruct (code =? 401) eqn:E2; [lia|].
  destruct (code =? 302) eqn:E3; [lia|].
  unfold is_success. destruct (code <=? 299) eqn:E5; [lia|].
  rewrite andb_false_r. unfold on_status_error, backoff_wait.
  destruct (code =? 404) eqn:E6; [lia|].
  destruct (code =? 403) eqn:E7; [lia|].
  destruct (500 <=? code) eqn:E8; [|lia].
  eexists. split_and!; try reflexivity.
  simpl. rewrite !backoff_waits_app. simpl. by rewrite !app_nil_r.
Qed.

Lemma attempt_body_success w url attempt m b c code h j :
  net w (n_request c) = Response code h (Some j) -> 200 <= code <= 299 ->
  attempt_body w url attempt m b c = (Done j, after_request url c).
Proof.
  intros Hnet Hc. unfold attempt_body. cbn [n_request emit]. rewrite Hnet.
  destruct (code =? 429) eqn:E1; [lia|].
  destruct (code =? 401) eqn:E2; [lia|].
  destruct (code =? 302) eqn:E3; [lia|].
  unfold is_success. destruct (200 <=? code) eqn:E4; [|lia].
  destruct (code <=? 299) eqn:E5; [|lia]. reflexivity.
Qed.

Lemma attempts_retry_success w url m k :
  forall r b c code h j,
    (k < r)%nat -> (r <= m)%nat ->
    (forall i, (i < k)%nat -> transient (net w (n_request c + i))) ->
    net w (n_request c + k) = Response code h (Some j) -> 200 <= code <= 299 ->
    exists c', attempts w url m r b c = (j, c')
      /\ n_request c' = (n_request c + k + 1)%nat
      /\ failed_requests c' = failed_requests c + Z.of_nat k
      /\ rate_limit_hits c' = rate_limit_hits c
      /\ backoff_waits (trace c') = backoff_waits (trace c) ++ seq b k.
Proof.
  induction k as [|k IH]; intros r b c code h j Hk Hr Htr Hnet Hc;
    (destruct r as [|r]; [lia|]); cbn [attempts].
  - rewrite Nat.add_0_r in Hnet.
    rewrite (attempt_body_success _ _ _ _ _ _ _ _ _ Hnet Hc).
    eexists. split; [reflexivity|]. simpl. split_and!; try lia; try done.
    rewrite !backoff_waits_app. simpl. by rewrite !app_nil_r.
  - pose proof (Htr 0%nat ltac:(lia)) as H0. rewrite Nat.add_0_r in H0.
    assert (Hstep : exists c1, attempt_body w url (m - S r) m b c = (Continue (S b), c1)
              /\ n_request c1 = S (n_request c)
              /\ failed_requests c1 = failed_requests c + 1
              /\ rate_limit_hits c1 = rate_limit_hits c
              /\ backoff_waits (trace c1) = backoff_waits (trace c) ++ [b]).
    { destruct (net w (n_request c)) as [|code0 h0 body0] eqn:En.
      - destruct (attempt_body_transport w url (m - S r) m b c En)
          as (c1 & Hn & _ & Hf & Hh & Hcont & _).
        destruct Hcont as [Hb Hw]; [lia|]. by exists c1.
      - destruct (attempt_body_server_error w url (m - S r) m b c)
          as (c1 & Hb & Hn & _ & Hf & Hh & Hw); [by rewrite En|]. by exists c1. }
    destruct Hstep as (c1 & -> & Hn & Hf & Hh & Hw).
    destruct (IH r (S b) c1 code h j) as (c' & Ha & Hn' & Hf' & Hh' & Hw'); try lia.
    + intros i Hi. rewrite Hn. replace (S (n_request c) + i)%nat
        with (n_request c + S i)%nat by lia. apply Htr. lia.
    + rewrite Hn. by replace (S (n_request c) + k)%nat with (n_request c + S k)%nat by lia.
    + exists c'. split; [done|]. split_and!; try lia.
      rewrite Hw', Hw, <- app_assoc. done.
Qed.

(** After [k] transient failures, fewer than the retry budget, a 2xx
    answer with a JSON body ends [_make_request] with that body: [k + 1]
    requests were sent, the [k] failures were counted and each was followed
    by one backoff wait, with attempt numbers 0 to [k - 1]. *)
Theorem retry_until_success w url max_retries c c0 k code h j :
  _ensure_token_valid w c = (Returns tt, c0) ->
  (k < max_retries)%nat ->
  (forall i, (i < k)%nat -> transient (net w (n_request c + i))) ->
  net w (n_request c + k) = Response code h (Some j) -> 200 <= code <= 299 ->
  exists c', _make_request w url max_retries c = (Returns j, c')
    /\ n_request c' = (n_request c + k + 1)%nat
    /\ failed_requests c' = failed_requests c + Z.of_nat k
    /\ rate_limit_hits c' = rate_limit_hits c
    /\ backoff_waits (trace c') = backoff_waits (trace c) ++ seq 0 k.
Proof.
  intros He Hk Htr Hnet Hc. unfold _make_request. rewrite He.
  pose proof (_ensure_token_valid_waits _ _ _ _ He) as Hw0.
  apply _ensure_token_valid_counters in He as (E1 & E2 & E3 & E4 & _).
  destruct (attempts_retry_success w url max_retries k max_retries 0%nat c0 code h j)
    as (c' & -> & Hn & Hf & Hh & Hw); try lia.
  - intros i Hi. rewrite E1. by apply Htr.
  - by rewrite E1.
  - exists c'. split; [done|]. split_and!; congruence.
Qed.

Lemma attempts_transport w url m :
  forall r b c,
    (r <= m)%nat ->
    (forall n, (n_request c <= n)%nat -> net w n = TransportError) ->
    exists c', attempts w url m r b c = (JNull, c')
      /\ n_request c' = (n_request c + r)%nat
      /\ total_requests c' = total_requests c
      /\ failed_requests c' = failed_requests c + Z.of_nat r
      /\ backoff_waits (trace c') = backoff_waits (trace c) ++ seq b (r - 1).
Proof.
  induction r as [|r IH]; intros b c Hr Hnet.
  - exists c. split; [done|]. simpl. rewrite app_nil_r. split_and!; first [lia|done].
  - cbn [attempts].
    destruct (attempt_body_transport w url (m - S r) m b c (Hnet (n_request c) ltac:(lia)))
      as (c1 & Hn & Ht & Hf & Hh & Hcont & Hdone).
    destruct r as [|r].
    + destruct Hdone as [-> Hw]; [lia|]. exists c1. split; [done|].
      simpl. rewrite app_nil_r. split_and!; first [lia|done].
    + destruct Hcont as [-> Hw]; [lia|].
      destruct (IH (S b) c1) as (c' & -> & Hn' & Ht' & Hf' & Hw'); [lia| |].
      { intros n Hle. apply Hnet. lia. }
      exists c'. split; [done|]. split_and!; try lia.
      rewrite Hw', Hw, <- app_assoc. simpl. by rewrite Nat.sub_0_r.
Qed.

Lemma attempts_server_error w url m :
  forall r b c,
    (forall n, (n_request c <= n)%nat -> server_error (net w n)) ->
    exists c', attempts w url m r b c = (JNull, c')
      /\ n_request c' = (n_request c + r)%nat
      /\ total_requests c' = total_requests c + Z.of_nat r
      /\ failed_requests c' = failed_requests c + Z.of_nat r
      /\ backoff_waits (trace c') = backoff_waits (trace c) ++ seq b r.
Proof.
  induction r as [|r IH]; intros b c Hnet.
  - exists c. split; [done|]. simpl. rewrite app_nil_r. split_and!; first [lia|done].
  - cbn [attempts].
    destruct (attempt_body_server_error w url (m - S r) m b c (Hnet (n_request c) ltac:(lia)))
      as (c1 & -> & Hn & Ht & Hf & Hh & Hw).
    destruct (IH (S b) c1) as (c' & -> & Hn' & Ht' & Hf' & Hw').
    { intros n Hle. apply Hnet. lia. }
    exists c'. split; [done|]. split_and!; try lia.
    rewrite Hw', Hw, <- app_assoc. done.
Qed.

(** When every answer is a failure, [_make_request] gives up with [None]
    after [max_retries] requests.  Transport errors are counted as failed but
    not as requests, and the last one is not followed by a backoff wait;
    5xx answers are counted as both, and every one of them, the last
    included, is followed by a backoff wait. *)
Theorem retries_exhausted w url max_retries c c0 :
  _ensure_token_valid w c = (Returns tt, c0) ->
  ((forall n, (n_request c <= n)%nat -> net w n = TransportError) ->
     exists c', _make_request w url max_retries c = (Returns JNull, c')
       /\ n_request c' = (n_request c + max_retries)%nat
       /\ total_requests c' = total_requests c
       /\ failed_requests c' = failed_requests c + Z.of_nat max_retries
       /\ backoff_waits (trace c') = backoff_waits (trace c) ++ seq 0 (max_retries - 1)
       /\ (total_requests c = 0 -> success_rate (get_stats c') = 0%Q))
  /\ ((forall n, (n_request c <= n)%nat -> server_error (net w n)) ->
     exists c', _make_request w url max_retries c = (Returns JNull, c')
       /\ n_request c' = (n_request c + max_retries)%nat
       /\ total_requests c' = total_requests c + Z.of_nat max_retries
       /\ failed_requests c' = failed_requests c + Z.of_nat max_retries
       /\ backoff_waits (trace c') = backoff_waits (trace c) ++ seq 0 max_retries).
Proof.
  intros He. unfold _make_request. rewrite He.
  pose proof (_ensure_token_valid_waits _ _ _ _ He) as Hw0.
  apply _ensure_token_valid_counters in He as (E1 & E2 & E3 & E4 & _).
  split; intros Hnet.
  - destruct (attempts_transport w url max_retries max_retries 0%nat c0)
      as (c' & -> & Hn & Ht & Hf & Hw); [lia| |].
    { intros n Hle. apply Hnet. lia. }
    exists c'. split; [done|]. split_and!; try congruence; try lia.
    intros Hz. unfold get_stats. simpl. rewrite Ht, E3, Hz. reflexivity.
  - destruct (attempts_server_error w url max_retries max_retries 0%nat c0)
      as (c' & -> & Hn & Ht & Hf & Hw).
    { intros n Hle. apply Hnet. lia. }
    exists c'. split; [done|]. split_and!; try congruence; lia.
Qed.


Lemma attempt_body_unauthorized w url attempt m b c h body :
  net w (n_request c) = Response 401 h body ->
  attempt_body w url attempt m b c
  = match _authenticate w (set_token None (after_request url c)) with
    | (Returns _, c1) => (Continue b, c1)
    | (Raises e, c1) => on_exception e attempt m b c1
    end.
Proof.
  intros Hnet. unfold attempt_body. cbn [n_request emit]. rewrite Hnet. reflexivity.
Qed.

(** An item request answered 401 drops the token and authenticates
    again inside the retry loop.  When the token endpoint then answers 404
    or 403, the handler of the loop takes that status for the item's: the
    fetch reports the subreddit as not found, or as deleted.  When the
    authentication succeeds the attempt is used up all the same: on the last
    attempt the fetch ends with [(None, 'error')], the new token in
    place. *)
Theorem unauthorized_item_request w subreddit c remaining backoff c' h body :
  item_attempt w subreddit c remaining backoff c' ->
  net w (n_request c') = Response 401 h body ->
  let c1 := next_auth (emit EvAuthenticate (set_token None (after_request (about_url subreddit) c'))) in
  (auth w (n_auth c') = AuthStatusError 404 ->
     get_subreddit_info w subreddit c
     = (Returns (JNull, "notfound"%string), incr_failed_requests c1))
  /\ (auth w (n_auth c') = AuthStatusError 403 ->
     get_subreddit_info w subreddit c
     = (Returns (JNull, "deleted"%string), incr_failed_requests c1))
  /\ (forall tok, auth w (n_auth c') = AuthOk tok -> remaining = 0%nat ->
     get_subreddit_info w subreddit c
     = (Returns (JNull, "error"%string), set_token (Some tok) c1)
     /\ failed_requests (set_token (Some tok) c1) = failed_requests c').
Proof.
  intros Hat Hnet c1. rewrite (get_subreddit_info_at _ _ _ _ _ _ Hat).
  cbn [attempts]. rewrite (attempt_body_unauthorized _ _ _ _ _ _ _ _ Hnet).
  unfold _authenticate. cbn [n_auth set_token after_request incr_total_requests
    next_request emit]. fold c1. split_and!.
  - intros ->. reflexivity.
  - intros ->. reflexivity.
  - intros tok -> ->. split; reflexivity.
Qed.

Lemma unauthorized_item_request_witness :
  get_subreddit_info
    (Build_world (fun _ => Response 401 NoRetryAfter None)
       (fun _ => AuthStatusError 404) (fun _ => false) (fun _ => true) (fun _ => O))
    "x" authed_client
  = (Returns (JNull, "notfound"%string),
     incr_failed_requests
       (next_auth (emit EvAuthenticate
                     (set_token None (after_request (about_url "x") ready_client))))).
Proof.
  set (w := Build_world (fun _ => Response 401 NoRetryAfter None)
              (fun _ => AuthStatusError 404) (fun _ => false) (fun _ => true) (fun _ => O)).
  assert (Hat : item_attempt w "x" authed_client 2 0 ready_client).
  { exists (next_random authed_client), ready_client.
    split; [reflexivity|]. split; [reflexivity|]. apply reaches_here. }
  destruct (unauthorized_item_request w "x" authed_client 2 0 ready_client
              NoRetryAfter None Hat eq_refl) as (H & _).
  exact (H eq_refl).
Defined.

Lemma retry_until_success_witness :
  exists c', _make_request world_two_failures "u" 3 authed_client = (Returns ok_body, c')
    /\ n_request c' = 3%nat
    /\ failed_requests c' = 2
    /\ backoff_waits (trace c') = [0; 1]%nat.
Proof.
  destruct (retry_until_success world_two_failures "u" 3 authed_client
              (next_clock authed_client) 2 200 NoRetryAfter ok_body)
    as (c' & H1 & H2 & H3 & _ & H5); try reflexivity; try lia.
  { intros i Hi. destruct i as [|[|i]]; simpl; [done|lia|lia]. }
  exists c'. split; [exact H1|]. split; [exact H2|]. split; [exact H3|exact H5].
Defined.

Lemma retries_exhausted_witness :
  exists c', _make_request (world_always TransportError) "u" 3 authed_client
             = (Returns JNull, c')
    /\ total_requests c' = 0 /\ failed_requests c' = 3
    /\ backoff_waits (trace c') = [0; 1]%nat.
Proof.
  destruct (retries_exhausted (world_always TransportError) "u" 3 authed_client
              (next_clock authed_client) eq_refl) as [H _].
  destruct H as (c' & H1 & _ & H3 & H4 & H5 & _); [intros n _; reflexivity|].
  exists c'. split; [exact H1|]. split; [exact H3|]. split; [exact H4|exact H5].
Defined.

End ClientExtra.

(** ** Store *)

Section DatabaseExtra.
Import Database.

Lemma length_filter_bool {A} (f : A -> bool) (l : list A) :
  (length (filter (fun x => f x = true) l) + length (filter (fun x => f x = false) l)
   = length l)%nat.
Proof.
  induction l as [|x l IH]; [done|].
  destruct (f x) eqn:E.
  - rewrite filter_cons_True by done. rewrite (filter_cons_False (fun x => f x = false)).
    + simpl. lia.
    + rewrite E. done.
  - rewrite filter_cons_False by (rewrite E; done). rewrite filter_cons_True by done.
    simpl. lia.
Qed.

Lemma size_filter_list (P : string * row -> Prop) `{!forall x, Decision (P x)} (db : table) :
  size (filter P db) = length (filter P (map_to_list db)).
Proof.
  rewrite map_filter_alt. apply map_size_list_to_map.
  eapply sublist_NoDup; [|apply fmap_sublist, sublist_filter].
  apply NoDup_fst_map_to_list.
Qed.

Lemma like_percent text : like "%" text = true.
Proof.
  induction text as [|a text IH]; [reflexivity|].
  change (like "%" (String a text)) with (like "" (String a text) || like "%" text).
  by rewrite IH, orb_true_r.
Qed.

Lemma lower_ascii_u a :
  Ascii.eqb (lower_ascii "u") (lower_ascii a) = true <-> a = "u"%char \/ a = "U"%char.
Proof.
  destruct a as [[] [] [] [] [] [] [] []]; vm_compute;
    split; intros H; try reflexivity; try discriminate H;
    try (destruct H as [H|H]; discriminate H); try (by left); try (by right).
Qed.

(** The pattern ['u_%'] selects every name of at least two characters
    that starts with the letter u: the underscore stands for any one
    character. *)
Lemma like_u_prefix name :
  like "u_%" name = true <->
  exists a b rest, name = String a (String b rest) /\ (a = "u"%char \/ a = "U"%char).
Proof.
  change "u_%"%string with (String "u" (String "_" (String "%" ""))).
  destruct name as [|a [|b rest]].
  - split; [done|]. intros (? & ? & ? & ? & _). done.
  - cbn [like]. simpl (Ascii.eqb "u" _). cbv iota. rewrite andb_false_r.
    split; [done|]. intros (? & ? & ? & ? & _). done.
  - change (like (String "u" (String "_" (String "%" ""))) (String a (String b rest)))
      with (Ascii.eqb (lower_ascii "u") (lower_ascii a) && like "%" rest).
    rewrite like_percent, andb_true_r, lower_ascii_u. split.
    + intros H. by exists a, b, rest.
    + intros (a' & b' & rest' & [= -> -> ->] & H). done.
Qed.


(** [cleanup_user_profiles] keeps exactly the rows whose type is not
    [user] and whose name does not match ['u_%'], unchanged, and answers the
    number of rows it removed.  Every row whose name has at least two
    characters and starts with the letter u is among the removed ones,
    whatever its type. *)
Theorem cleanup_user_profiles_removes (db : table) :
  let count := fst (cleanup_user_profiles db) in
  let db' := snd (cleanup_user_profiles db) in
  (forall name r,
     db' !! name = Some r <-> db !! name = Some r /\ user_profile_row name r = false)
  /\ count = Z.of_nat (size db) - Z.of_nat (size db')
  /\ (forall name a b rest,
        name = String a (String b rest) -> a = "u"%char \/ a = "U"%char ->
        db' !! name = None).
Proof.
  intros count db'.
  assert (Hspec : forall name r,
             db' !! name = Some r <-> db !! name = Some r /\ user_profile_row name r = false).
  { intros name r. subst db'. unfold cleanup_user_profiles.
    destruct (0 <? _) eqn:E; cbn [snd].
    - by rewrite map_lookup_filter_Some.
    - apply Z.ltb_ge in E. split; [|tauto]. intros Hr. split; [done|].
      destruct (user_profile_row name r) eqn:Eu; [|done].
      assert (Hin : (name, r) ∈ filter (fun kv => user_profile_row kv.1 kv.2 = true)
                                     (map_to_list db)).
      { apply list_elem_of_filter. split; [done|]. by apply elem_of_map_to_list. }
      destruct (filter _ (map_to_list db)); [by apply not_elem_of_nil in Hin|].
      simpl in E. lia. }
  split; [done|]. split.
  - subst count db'. unfold cleanup_user_profiles.
    pose proof (length_filter_bool (fun kv : string * row => user_profile_row kv.1 kv.2)
                  (map_to_list db)) as Hlen.
    rewrite (length_map_to_list db) in Hlen.
    destruct (0 <? _) eqn:E; cbn [fst snd].
    + rewrite size_filter_list. lia.
    + apply Z.ltb_ge in E. lia.
  - intros name a b rest Hname Ha.
    destruct (db' !! name) as [r|] eqn:Hr; [|done].
    apply Hspec in Hr as [_ Hu]. unfold user_profile_row in Hu.
    apply orb_false_iff in Hu as [_ Hu].
    assert (Hl : like "u_%" name = true) by (apply like_u_prefix; eauto).
    congruence.
Qed.


Lemma length_filter_split {A} (f g h : A -> bool) (l : list A) :
  (forall x, f x = g x || h x) -> (forall x, g x && h x = false) ->
  length (filter (fun x => f x = true) l)
  = (length (filter (fun x => g x = true) l) + length (filter (fun x => h x = true) l))%nat.
Proof.
  intros Hf Hgh. induction l as [|x l IH]; [done|].
  specialize (Hf x). specialize (Hgh x).
  destruct (g x) eqn:Eg, (h x) eqn:Eh; simpl in *; try discriminate.
  - rewrite filter_cons_True by done. rewrite (filter_cons_True (fun x => g x = true)) by done.
    rewrite (filter_cons_False (fun x => h x = true)) by (rewrite Eh; done).
    simpl. lia.
  - rewrite filter_cons_True by done.
    rewrite (filter_cons_False (fun x => g x = true)) by (rewrite Eg; done).
    rewrite (filter_cons_True (fun x => h x = true)) by done.
    simpl. lia.
  - rewrite filter_cons_False by (rewrite Hf; done).
    rewrite (filter_cons_False (fun x => g x = true)) by (rewrite Eg; done).
    rewrite (filter_cons_False (fun x => h x = true)) by (rewrite Eh; done).
    done.
Qed.

Lemma length_filter_nsfw cutoff (l : list (string * row)) :
  (length (filter (fun kv => needs_update cutoff true (snd kv) = true) l)
   <= length (filter (fun kv => needs_update cutoff false (snd kv) = true) l))%nat.
Proof.
  induction l as [|[k r] l IH]; [done|].
  destruct (needs_update cutoff true r) eqn:E.
  - rewrite filter_cons_True by done.
    rewrite (filter_cons_True (fun kv => needs_update cutoff false kv.2 = true)).
    + simpl. lia.
    + simpl. unfold needs_update in *. apply andb_true_iff in E as [E _].
      by rewrite E.
  - rewrite filter_cons_False by (simpl; rewrite E; done).
    destruct (needs_update cutoff false r) eqn:E2.
    + rewrite (filter_cons_True (fun kv => needs_update cutoff false kv.2 = true)) by done.
      simpl. lia.
    + rewrite (filter_cons_False (fun kv => needs_update cutoff false kv.2 = true))
        by (simpl; rewrite E2; done).
      done.
Qed.

Lemma length_get_subreddits_for_update lim days nsfw now (db : table) :
  length (get_subreddits_for_update lim days nsfw now db)
  = length (apply_limit lim
              (filter (fun kv => needs_update (now - days * 24 * 60 * 60) nsfw (snd kv) = true)
                      (map_to_list db))).
Proof.
  unfold get_subreddits_for_update. rewrite length_fmap.
  unfold apply_limit. destruct lim as [n|]; [destruct (0 <? n)|];
    rewrite ?length_take; by rewrite merge_sort_Permutation.
Qed.

(** The numbers [count_stale_subreddits] reports are those of the work
    list of refresh mode at the same time: without limit and filter the list
    has [total_needing_update] names, with a positive limit the smaller of
    the limit and that total, and with the adult-only filter no more. *)
Theorem count_stale_matches_work_list days now (db : table) :
  let counts := count_stale_subreddits days now db in
  Z.of_nat (length (get_subreddits_for_update None days false now db))
  = total_needing_update counts
  /\ total_needing_update counts = never_updated counts + stale counts
  /\ (forall n, 0 < n ->
        Z.of_nat (length (get_subreddits_for_update (Some n) days false now db))
        = Z.min n (total_needing_update counts))
  /\ (forall lim,
        Z.of_nat (length (get_subreddits_for_update lim days true now db))
        <= total_needing_update counts).
Proof.
  intros counts.
  assert (Hall : Z.of_nat (length (filter
              (fun kv : string * row =>
                 needs_update (now - days * 24 * 60 * 60) false (snd kv) = true)
              (map_to_list db)))
            = total_needing_update counts).
  { subst counts. unfold count_stale_subreddits, select_count.
    cbn [total_needing_update].
    rewrite (length_filter_split
               (fun kv : string * row => needs_update (now - days * 24 * 60 * 60) false kv.2)
               (fun kv => never_updated_row kv.2)
               (fun kv => stale_row (now - days * 24 * 60 * 60) kv.2)); [lia| |].
    - intros [k r]. unfold needs_update, never_updated_row, stale_row. simpl.
      destruct (metadata_collected r), (String.eqb (status r) "active"),
        (last_updated r); simpl; rewrite ?andb_true_r, ?orb_false_r; done.
    - intros [k r]. unfold never_updated_row, stale_row. simpl.
      destruct (metadata_collected r), (String.eqb (status r) "active"),
        (last_updated r); simpl; rewrite ?andb_false_r; done. }
  split_and!.
  - by rewrite length_get_subreddits_for_update.
  - reflexivity.
  - intros n Hn. rewrite length_get_subreddits_for_update. unfold apply_limit.
    destruct (0 <? n) eqn:E; [|apply Z.ltb_ge in E; lia].
    rewrite length_take. lia.
  - intros lim. rewrite length_get_subreddits_for_update. rewrite <- Hall.
    apply inj_le.
    etransitivity.
    { unfold apply_limit. destruct lim as [n|]; [destruct (0 <? n)|];
        rewrite ?length_take; [apply Nat.le_min_r| |]; reflexivity. }
    apply length_filter_nsfw.
Qed.


(** Adding a subreddit and looking it up agree on the lower-case name:
    the row is found under any spelling of the name; it is a fresh pending
    row exactly when the answer was [True], and the row that was there
    otherwise; a second insertion under any spelling answers [False] and
    changes nothing, and no other row is touched. *)
Theorem add_subreddit_round_trip name name' (db : table) :
  lower name' = lower name ->
  let added := fst (add_subreddit name db) in
  let db' := snd (add_subreddit name db) in
  (added = true <-> db !! lower name = None)
  /\ get_subreddit_info name' db' = Some (default pending_row (db !! lower name))
  /\ add_subreddit name' db' = (false, db')
  /\ (forall other, other <> lower name -> db' !! other = db !! other).
Proof.
  intros Hl added db'. subst added db'. unfold add_subreddit, get_subreddit_info.
  rewrite Hl. destruct (db !! lower name) as [r|] eqn:E; cbn [fst snd default].
  - split_and!; [done|done|by rewrite E|done].
  - split_and!; [done|by rewrite lookup_insert_eq|by rewrite lookup_insert_eq|].
    intros other Hne. by rewrite lookup_insert_ne.
Qed.

Lemma add_subreddit_round_trip_witness :
  get_subreddit_info "askreddit" (snd (add_subreddit "AskReddit" ∅)) = Some pending_row
  /\ add_subreddit "ASKREDDIT" (snd (add_subreddit "AskReddit" ∅))
     = (false, snd (add_subreddit "AskReddit" ∅)).
Proof.
  destruct (add_subreddit_round_trip "AskReddit" "askreddit" ∅ eq_refl) as (_ & H & _).
  destruct (add_subreddit_round_trip "AskReddit" "ASKREDDIT" ∅ eq_refl) as (_ & _ & H' & _).
  split; [exact H|exact H'].
Defined.

Lemma metadata_update_columns metadata now r r' :
  metadata_update metadata now r = Some r' ->
  status r' = "active"%string /\ is_accessible r' = 1
  /\ last_updated r' = Some now /\ error_message r' = None
  /\ retry_count r' = retry_count r /\ metadata_collected r' = metadata_collected r
  /\ category (data r') = category (data r) /\ tags (data r') = tags (data r)
  /\ to_cell (dict_get "title" JNull metadata) = Some (title (data r'))
  /\ _decode_html_entities (dict_get "public_description" JNull metadata)
     = Some (description (data r'))
  /\ to_cell (dict_get "subscribers" JNull metadata) = Some (subscribers (data r'))
  /\ to_cell (dict_get "active_user_count" JNull metadata) = Some (active_users (data r'))
  /\ to_cell (dict_get "over18" (JBool false) metadata) = Some (over_18 (data r'))
  /\ to_cell (dict_get "subreddit_type" JNull metadata) = Some (subreddit_type (data r'))
  /\ to_cell (dict_get "created_utc" JNull metadata) = Some (created_utc (data r'))
  /\ _decode_html_entities (dict_get "community_icon" JNull metadata)
     = Some (icon_url (data r'))
  /\ to_cell (dict_get "allow_images" (JBool true) metadata) = Some (allow_images (data r'))
  /\ to_cell (dict_get "wls" JNull metadata) = Some (whitelist_status (data r'))
  /\ to_cell (dict_get "lang" (JStr "en") metadata) = Some (language (data r')).
Proof.
  unfold metadata_update. intros H.
  repeat match type of H with
         | context [mbind _ ?m] =>
             let E := fresh "E" in destruct m eqn:E; simpl in H; [|discriminate H]
         end.
  injection H as <-. simpl. split_and!; done.
Qed.


Lemma dict_get_missing key default metadata :
  dict_lookup key metadata = None -> dict_get key default metadata = default.
Proof. unfold dict_get. by intros ->. Qed.

(** [update_subreddit_metadata] never creates a row and touches no row
    but the one of the lower-case name; when it answers [False] the table is
    as before.  When it answers [True] on an existing row, the row is
    [active] and accessible, updated at [now] and without error message; its
    retry count, collected flag, category and tags are kept; every other
    column holds the value bound for its key, and a key the payload lacks
    gives NULL, except for the flags and the language, which get the default
    written in the call. *)
Theorem update_subreddit_metadata_columns name metadata now (db : table) :
  let ok := fst (update_subreddit_metadata name metadata now db) in
  let db' := snd (update_subreddit_metadata name metadata now db) in
  (forall other, other <> lower name -> db' !! other = db !! other)
  /\ (db' !! lower name = None <-> db !! lower name = None)
  /\ (ok = false -> db' = db)
  /\ (ok = true -> forall r, db !! lower name = Some r ->
      exists r', db' !! lower name = Some r'
        /\ status r' = "active"%string /\ is_accessible r' = 1
        /\ last_updated r' = Some now /\ error_message r' = None
        /\ retry_count r' = retry_count r /\ metadata_collected r' = metadata_collected r
        /\ category (data r') = category (data r) /\ tags (data r') = tags (data r)
        /\ to_cell (dict_get "title" JNull metadata) = Some (title (data r'))
        /\ _decode_html_entities (dict_get "public_description" JNull metadata)
           = Some (description (data r'))
        /\ to_cell (dict_get "subscribers" JNull metadata) = Some (subscribers (data r'))
        /\ (dict_lookup "subscribers" metadata = None -> subscribers (data r') = CNull)
        /\ (dict_lookup "over18" metadata = None -> over_18 (data r') = CNum 0)
        /\ (dict_lookup "allow_images" metadata = None -> allow_images (data r') = CNum 1)
        /\ (dict_lookup "lang" metadata = None -> language (data r') = CText "en")).
Proof.
  intros ok db'. subst ok db'. unfold update_subreddit_metadata.
  destruct (db !! lower name) as [r|] eqn:Hr.
  - destruct (metadata_update metadata now r) as [r'|] eqn:Hu; cbn [fst snd].
    + split_and!.
      * intros other Hne. by rewrite lookup_insert_ne.
      * rewrite lookup_insert_eq. done.
      * done.
      * intros _ r0 [= <-]. exists r'. rewrite lookup_insert_eq.
        apply metadata_update_columns in Hu
          as (H1 & H2 & H3 & H4 & H5 & H6 & H7 & H8 & H9 & H10 & H11 & _ & H13 & _ & _
              & _ & H17 & _ & H19).
        split_and!; try done.
        -- intros Hm. rewrite (dict_get_missing _ _ _ Hm) in H11. by injection H11.
        -- intros Hm. rewrite (dict_get_missing _ _ _ Hm) in H13. by injection H13.
        -- intros Hm. rewrite (dict_get_missing _ _ _ Hm) in H17. by injection H17.
        -- intros Hm. rewrite (dict_get_missing _ _ _ Hm) in H19. by injection H19.
    + split_and!; try done. rewrite Hr. done.
  - destruct (metadata_update metadata now pending_row); cbn [fst snd];
      split_and!; try done; intros _ r0; rewrite Hr; done.
Qed.


Lemma count_by_status_lookup (db : table) st :
  default 0 (count_by_status db !! st)
  = select_count (fun r => String.eqb (status r) st) db.
Proof.
  unfold count_by_status, select_count.
  induction (map_to_list db) as [|[k r] l IH]; [done|].
  cbn [foldr snd]. destruct (String.eqb (status r) st) eqn:E.
  - apply String.eqb_eq in E. subst st. rewrite lookup_insert_eq. cbn [default from_option].
    rewrite filter_cons_True by (simpl; apply String.eqb_refl).
    rewrite IH. simpl length. unfold id. lia.
  - rewrite filter_cons_False by (simpl; rewrite E; done).
    rewrite lookup_insert_ne; [done|]. intros Heq. rewrite Heq, String.eqb_refl in E. done.
Qed.

Lemma length_filter_cover {A} (f g : A -> bool) (l : list A) :
  (forall x, f x || g x = true) ->
  (length l <= length (filter (fun x => f x = true) l)
               + length (filter (fun x => g x = true) l))%nat.
Proof.
  intros H. induction l as [|x l IH]; [done|].
  specialize (H x).
  destruct (f x) eqn:Ef.
  - rewrite filter_cons_True by done.
    pose proof (length_filter (fun x => g x = true) l).
    destruct (g x) eqn:Eg.
    + rewrite (filter_cons_True (fun x => g x = true)) by done. simpl. lia.
    + rewrite (filter_cons_False (fun x => g x = true)) by (rewrite Eg; done). simpl. lia.
  - simpl in H. rewrite filter_cons_False by (rewrite Ef; done).
    rewrite (filter_cons_True (fun x => g x = true)) by done. simpl. lia.
Qed.

(** The dict of [get_processing_stats]: [total_subreddits] is the number
    of rows, and zero exactly for an empty table; under every other key
    than the three totals stands the number of rows with that status (zero
    when the key is absent); the collected and the pending rows together
    cover the table, so the two totals add up to at least the number of
    rows, and neither exceeds it. *)
Theorem get_processing_stats_totals (db : table) :
  let stats := get_processing_stats db in
  let total := default 0 (stats !! "total_subreddits"%string) in
  let collected := default 0 (stats !! "metadata_collected"%string) in
  let pending := default 0 (stats !! "metadata_pending"%string) in
  total = Z.of_nat (size db)
  /\ (total = 0 <-> db = ∅)
  /\ (forall st, st <> "total_subreddits"%string -> st <> "metadata_collected"%string ->
        st <> "metadata_pending"%string ->
        default 0 (stats !! st) = select_count (fun r => String.eqb (status r) st) db)
  /\ collected <= total /\ pending <= total /\ total <= collected + pending.
Proof.
  intros stats total collected pending.
  subst total collected pending stats. unfold get_processing_stats.
  rewrite lookup_insert_eq.
  rewrite (lookup_insert_ne _ "metadata_pending"%string "metadata_collected"%string) by done.
  rewrite lookup_insert_eq.
  rewrite (lookup_insert_ne _ "metadata_pending"%string "total_subreddits"%string) by done.
  rewrite (lookup_insert_ne _ "metadata_collected"%string "total_subreddits"%string) by done.
  rewrite lookup_insert_eq. cbn [default from_option]. unfold id.
  assert (Htot : select_count (fun _ => true) db = Z.of_nat (size db)).
  { unfold select_count. rewrite <- length_map_to_list. f_equal. f_equal.
    induction (map_to_list db) as [|x l IH]; [done|].
    rewrite filter_cons_True by done. by rewrite IH. }
  rewrite Htot. split_and!.
  - done.
  - split; intros H; [apply map_size_empty_iff; lia|apply map_size_empty_iff in H; lia].
  - intros st H1 H2 H3. rewrite !lookup_insert_ne by done.
    apply count_by_status_lookup.
  - unfold select_count. rewrite <- length_map_to_list.
    pose proof (length_filter (fun kv : string * row => metadata_collected kv.2 = true)
                  (map_to_list db)). lia.
  - unfold select_count. rewrite <- length_map_to_list.
    pose proof (length_filter (fun kv : string * row => metadata_pending_row kv.2 = true)
                  (map_to_list db)). lia.
  - unfold select_count. rewrite <- length_map_to_list.
    pose proof (length_filter_cover (fun kv : string * row => metadata_collected kv.2)
                  (fun kv => metadata_pending_row kv.2) (map_to_list db)) as H.
    rewrite <- Nat2Z.inj_add. apply inj_le. apply H.
    intros [k r]. unfold metadata_pending_row. simpl.
    by destruct (metadata_collected r).
Qed.

End DatabaseExtra.

(** ** Orchestrator *)

Section ScannerExtra.
Import Scanner.


Lemma unique_rows_spec seen rows :
  let unique := fst (unique_rows seen rows) in
  let dupes := snd (unique_rows seen rows) in
  unique `sublist_of` rows
  /\ NoDup (csv_name <$> unique)
  /\ (forall row, row ∈ unique -> csv_name row ∉ seen)
  /\ (forall row, row ∈ rows -> csv_name row ∉ seen ->
        exists row', row' ∈ unique /\ csv_name row' = csv_name row)
  /\ Z.of_nat (length rows) = Z.of_nat (length unique) + dupes
  /\ 0 <= dupes.
Proof.
  revert seen. induction rows as [|row rest IH]; intros seen; cbn [unique_rows].
  - cbn [fst snd]. split_and!; try done.
    + constructor.
    + intros row Hin. by apply not_elem_of_nil in Hin.
    + intros row Hin. by apply not_elem_of_nil in Hin.
  - destruct (bool_decide (csv_name row ∈ seen)) eqn:E.
    + apply bool_decide_eq_true in E. specialize (IH seen).
      destruct (unique_rows seen rest) as [unique dupes]. cbn [fst snd] in *.
      destruct IH as (H1 & H2 & H3 & H4 & H5 & H6). split_and!; try done.
      * by apply sublist_cons.
      * intros r Hin Hns. apply elem_of_cons in Hin as [->|Hin]; [done|]. by apply H4.
      * simpl length. lia.
      * lia.
    + apply bool_decide_eq_false in E. specialize (IH ({[csv_name row]} ∪ seen)).
      destruct (unique_rows ({[csv_name row]} ∪ seen) rest) as [unique dupes].
      cbn [fst snd] in *.
      destruct IH as (H1 & H2 & H3 & H4 & H5 & H6). split_and!; try done.
      * by apply sublist_skip.
      * rewrite fmap_cons. apply NoDup_cons. split; [|done].
        intros Hin. apply list_elem_of_fmap in Hin as (r & Heq & Hin).
        apply H3 in Hin. apply Hin. rewrite <- Heq.
        apply elem_of_union_l. by apply elem_of_singleton.
      * intros r Hin. apply elem_of_cons in Hin as [->|Hin]; [done|].
        apply H3 in Hin. intros Hs. apply Hin. by apply elem_of_union_r.
      * intros r Hin Hns. apply elem_of_cons in Hin as [->|Hin].
        { exists row. split; [left|done]. }
        destruct (decide (csv_name r = csv_name row)) as [Heq|Hne].
        { exists row. split; [left|done]. }
        destruct (H4 r Hin) as (r' & Hr' & Heq').
        { intros Hu. apply elem_of_union in Hu as [Hu|Hu]; [|done].
          by apply elem_of_singleton in Hu. }
        exists r'. split; [by right|done].
      * simpl length. lia.
Qed.

Lemma rows_not_in_db_spec store rows :
  let keep := fst (rows_not_in_db store rows) in
  let dups := snd (rows_not_in_db store rows) in
  keep = filter (fun row => store !! csv_name row = None) rows
  /\ Z.of_nat (length rows) = Z.of_nat (length keep) + dups
  /\ 0 <= dups.
Proof.
  induction rows as [|row rest IH]; cbn [rows_not_in_db]; [done|].
  destruct (rows_not_in_db store rest) as [keep dups]. cbn [fst snd] in *.
  destruct IH as (H1 & H2 & H3).
  destruct (store !! csv_name row) eqn:E; cbn [fst snd].
  - rewrite filter_cons_False by (rewrite E; done). split_and!; [done|simpl length; lia|lia].
  - rewrite filter_cons_True by done. split_and!; [by rewrite H1|simpl length; lia|lia].
Qed.


Lemma list_filter_all {A} (P : A -> Prop) `{!forall x, Decision (P x)} (l : list A) :
  (forall x, x ∈ l -> P x) -> filter P l = l.
Proof.
  induction l as [|a l IH]; intros Hall; [done|].
  rewrite filter_cons_True by (apply Hall; left).
  f_equal. apply IH. intros x Hx. apply Hall. by right.
Qed.

Lemma unique_rows_id seen rows :
  NoDup (csv_name <$> rows) -> (forall row, row ∈ rows -> csv_name row ∉ seen) ->
  unique_rows seen rows = (rows, 0).
Proof.
  revert seen. induction rows as [|row rest IH]; intros seen Hnd Hns; [done|].
  cbn [unique_rows]. rewrite fmap_cons in Hnd. apply NoDup_cons in Hnd as [Hrow Hnd].
  rewrite bool_decide_eq_false_2 by (apply Hns; left).
  rewrite IH; [done|done|].
  intros r Hin Hu. apply elem_of_union in Hu as [Hu|Hu].
  - apply elem_of_singleton in Hu. apply Hrow. rewrite <- Hu.
    apply list_elem_of_fmap. by exists r.
  - by apply (Hns r); [right|].
Qed.

Lemma dedupe_csv_kept rows s :
  exists unique,
    unique_rows ∅ (load_rows rows) = (unique, internal_dupes (dedupe_csv rows s))
    /\ dedupe_rows_to_keep (dedupe_csv rows s)
       = filter (fun row => db s !! csv_name row = None) unique
    /\ Z.of_nat (length unique)
       = Z.of_nat (length (dedupe_rows_to_keep (dedupe_csv rows s)))
         + db_duplicates (dedupe_csv rows s)
    /\ 0 <= db_duplicates (dedupe_csv rows s)
    /\ initial_count (dedupe_csv rows s) = Z.of_nat (length (load_rows rows)).
Proof.
  unfold dedupe_csv.
  destruct (unique_rows ∅ (load_rows rows)) as [unique internal] eqn:Eu.
  pose proof (rows_not_in_db_spec (db s) unique) as (H1 & H2 & H3).
  destruct (rows_not_in_db (db s) unique) as [keep dups]. cbn [fst snd] in *.
  exists unique. by split_and!.
Qed.

(** [dedupe_csv] keeps rows of the file, in their order; the names of
    the rows kept are distinct and none of them is in the table; every name
    of the file that is not in the table is the name of a row kept. *)
Theorem dedupe_csv_keeps_new_names rows s :
  let kept := dedupe_rows_to_keep (dedupe_csv rows s) in
  kept `sublist_of` rows
  /\ NoDup (csv_name <$> kept)
  /\ (forall row, row ∈ kept ->
        db s !! csv_name row = None /\ csv_field "subreddit" row <> ""%string)
  /\ (forall row, row ∈ rows -> csv_field "subreddit" row <> ""%string ->
        db s !! csv_name row = None ->
        exists row', row' ∈ kept /\ csv_name row' = csv_name row).
Proof.
  intros kept. subst kept.
  destruct (dedupe_csv_kept rows s) as (unique & Eu & -> & _).
  pose proof (unique_rows_spec ∅ (load_rows rows)) as (H1 & H2 & _ & H4 & _).
  rewrite Eu in *. cbn [fst snd] in *. split_and!.
  - etransitivity; [apply sublist_filter|]. etransitivity; [exact H1|].
    apply sublist_filter.
  - eapply sublist_NoDup; [exact H2|]. apply fmap_sublist, sublist_filter.
  - intros row Hin. apply list_elem_of_filter in Hin as [Hdb Hin]. split; [done|].
    apply (elem_of_sublist _ _ _ Hin) in H1.
    by apply list_elem_of_filter in H1 as [? _].
  - intros row Hin Hname Hdb.
    destruct (H4 row) as (row' & Hin' & Heq).
    + apply list_elem_of_filter. by split.
    + apply not_elem_of_empty.
    + exists row'. split; [|done]. apply list_elem_of_filter. split; [|done].
      by rewrite Heq.
Qed.

(** The counts of [dedupe_csv] add up: every loaded row is kept, or an
    internal duplicate, or a duplicate of the table.  Run again on its own
    output with the same table, it removes nothing. *)
Theorem dedupe_csv_accounting rows s :
  let report := dedupe_csv rows s in
  let kept := dedupe_rows_to_keep report in
  initial_count report
  = internal_dupes report + db_duplicates report + Z.of_nat (length kept)
  /\ 0 <= internal_dupes report /\ 0 <= db_duplicates report
  /\ dedupe_csv kept s = mk_dedupe (Z.of_nat (length kept)) 0 0 kept.
Proof.
  intros report kept. subst report kept.
  destruct (dedupe_csv_kept rows s) as (unique & Eu & Hk & Hlen & Hdb & Hinit).
  pose proof (unique_rows_spec ∅ (load_rows rows)) as (H1 & H2 & _ & _ & H5 & H6).
  rewrite Eu in *. cbn [fst snd] in *. split_and!; try lia.
  set (kept := dedupe_rows_to_keep (dedupe_csv rows s)) in *.
  assert (Hsub : kept `sublist_of` unique) by (rewrite Hk; apply sublist_filter).
  assert (Hload : load_rows kept = kept).
  { apply list_filter_all. intros row Hin.
    apply (elem_of_sublist _ _ _ Hin) in Hsub.
    apply (elem_of_sublist _ _ _ Hsub) in H1.
    by apply list_elem_of_filter in H1 as [? _]. }
  assert (Hnd : NoDup (csv_name <$> kept)).
  { eapply sublist_NoDup; [exact H2|]. by apply fmap_sublist. }
  assert (Hnew : forall row, row ∈ kept -> db s !! csv_name row = None).
  { intros row Hin. rewrite Hk in Hin. by apply list_elem_of_filter in Hin as [? _]. }
  unfold dedupe_csv. rewrite Hload.
  rewrite (unique_rows_id ∅ kept Hnd) by (intros; apply not_elem_of_empty).
  pose proof (rows_not_in_db_spec (db s) kept) as (K1 & K2 & K3).
  destruct (rows_not_in_db (db s) kept) as [keep dups]. cbn [fst snd] in *.
  rewrite (list_filter_all _ kept Hnew) in K1. subst keep.
  f_equal. lia.
Qed.

Lemma changes_only_refl name db : changes_only name db db.
Proof. by split. Qed.

Lemma changes_only_trans name db1 db2 db3 :
  changes_only name db1 db2 -> changes_only name db2 db3 -> changes_only name db1 db3.
Proof.
  intros [H1 H2] [H3 H4]. split.
  - intros n ? ?. by rewrite H3, H1.
  - intros n ?. by apply H2, H4.
Qed.

Lemma changes_only_alter name f (db : Database.table) key :
  key = name \/ key = Database.lower name -> changes_only name db (alter f key db).
Proof.
  intros Hk. split.
  - intros n ? ?. apply lookup_alter_ne. by destruct Hk as [-> | ->].
  - intros n. destruct (decide (key = n)) as [->|Hne].
    + rewrite lookup_alter_eq. by rewrite fmap_is_Some.
    + by rewrite lookup_alter_ne.
Qed.

Lemma changes_only_delete name (db : Database.table) :
  changes_only name db (Database.delete_subreddit name db).
Proof.
  unfold Database.delete_subreddit. split.
  - intros n ? ?. by apply lookup_delete_ne.
  - intros n. destruct (decide (name = n)) as [->|Hne].
    + rewrite lookup_delete_eq. by intros [? ?].
    + by rewrite lookup_delete_ne.
Qed.

Lemma changes_only_update_subreddit name st msg col db :
  changes_only name db (Database.update_subreddit name st msg col db).
Proof. apply changes_only_alter. by right. Qed.

Lemma changes_only_update_subreddit_status name st msg db :
  changes_only name db (Database.update_subreddit_status name st msg db).
Proof. apply changes_only_alter. by right. Qed.

Lemma changes_only_update_retry_count name k db :
  changes_only name db (Database.update_retry_count name k db).
Proof. apply changes_only_alter. by left. Qed.

Lemma changes_only_update_subreddit_metadata name metadata now db :
  changes_only name db (snd (Database.update_subreddit_metadata name metadata now db)).
Proof.
  unfold Database.update_subreddit_metadata.
  destruct (db !! Database.lower name) as [r|] eqn:E.
  - destruct (Database.metadata_update metadata now r) as [r'|];
      [|apply changes_only_refl]. cbn. split.
    + intros n ? ?. by apply lookup_insert_ne.
    + intros n. destruct (decide (Database.lower name = n)) as [<-|Hne].
      * by rewrite E.
      * by rewrite lookup_insert_ne.
  - destruct (Database.metadata_update metadata now Database.pending_row);
      apply changes_only_refl.
Qed.

Create HintDb changes.
#[local] Hint Resolve changes_only_refl changes_only_delete
  changes_only_update_subreddit changes_only_update_subreddit_status
  changes_only_update_retry_count changes_only_update_subreddit_metadata
  : changes.

Ltac changes_steps :=
  repeat first
    [ apply changes_only_refl
    | eapply changes_only_trans; [|solve [eauto with changes]] ].

(** What handling an answer can change in the scanner. *)
Lemma csv_handle_result_frame now subreddit metadata status s r s' :
  csv_handle_result now subreddit metadata status s = (r, s') ->
  max_consecutive_403 s' = max_consecutive_403 s
  /\ max_total_429 s' = max_total_429 s
  /\ shutdown_requested s' = shutdown_requested s
  /\ limit s' = limit s
  /\ reddit_client s' = reddit_client s
  /\ (consecutive_403s s' = consecutive_403s s \/ consecutive_403s s' = 0)
  /\ (forall e, r = Client.Raises e -> db s' = db s)
  /\ changes_only subreddit (db s) (db s').
Proof.
  unfold csv_handle_result. intros H.
  repeat case_match; simplify_eq; cbn; split_and!; auto; try done;
    changes_steps.
Qed.

(** One row of the list: the thresholds and the stop flag are untouched,
    the forbidden counter is as before or zero, the client has seen at most
    four more 429 answers, the rows the table held are as they were, and
    the row is kept exactly when an error was counted, in which case it is
    in the table as pending. *)
Lemma csv_item_spec w now row p s p' s' :
  csv_item w now row p s = (p', s') ->
  max_consecutive_403 s' = max_consecutive_403 s
  /\ max_total_429 s' = max_total_429 s
  /\ shutdown_requested s' = shutdown_requested s
  /\ limit s' = limit s
  /\ (consecutive_403s s' = consecutive_403s s \/ consecutive_403s s' = 0)
  /\ Client.rate_limit_hits (reddit_client s)
     <= Client.rate_limit_hits (reddit_client s')
     <= Client.rate_limit_hits (reddit_client s) + 4
  /\ processed p <= processed p' <= processed p + 1
  /\ duplicates_removed p <= duplicates_removed p'
  /\ scanned_and_saved p <= scanned_and_saved p'
  /\ (duplicates_removed p' + scanned_and_saved p' + errors p')
     - (duplicates_removed p + scanned_and_saved p + errors p)
     <= processed p' - processed p
  /\ ((rows_to_keep p' = rows_to_keep p /\ errors p' = errors p)
      \/ (rows_to_keep p' = rows_to_keep p ++ [row]
          /\ errors p' = errors p + 1
          /\ db s' !! csv_name row = Some Database.pending_row))
  /\ db s ⊆ db s'
  /\ (forall n, is_Some (db s' !! n) -> is_Some (db s !! n) \/ n = csv_name row).
Proof.
  unfold csv_item. fold (csv_name row). intros H.
  destruct (db s !! csv_name row) as [r|] eqn:Hdb.
  { simplify_eq. cbn. split_and!; auto; try lia. }
  unfold csv_fetch in H.
  assert (Hlow : Database.lower (csv_name row) = csv_name row)
    by apply lower_idempotent.
  rewrite add_subreddit_absent in H by (by rewrite Hlow).
  rewrite Hlow in H. cbn [snd reddit_client set_db] in H.
  destruct (Client.get_subreddit_info w (csv_name row) (reddit_client s))
    as [fetched c] eqn:Ef.
  apply get_subreddit_info_budget in Ef as (_ & Hhits & _).
  assert (Hsub : forall store : Database.table,
            changes_only (csv_name row)
              (<[csv_name row := Database.pending_row]> (db s)) store ->
            db s ⊆ store
            /\ (forall n, is_Some (store !! n) ->
                          is_Some (db s !! n) \/ n = csv_name row)).
  { intros store [C1 C2]. split.
    - apply map_subseteq_spec. intros n x Hn.
      assert (n <> csv_name row) by congruence.
      rewrite C1 by (by rewrite ?Hlow). by rewrite lookup_insert_ne.
    - intros n Hn. apply C2 in Hn.
      destruct (decide (n = csv_name row)) as [->|Hne]; [by right|left].
      by rewrite lookup_insert_ne in Hn. }
  destruct fetched as [[metadata status]|e].
  - destruct (csv_handle_result now (csv_name row) metadata status _)
      as [r s1] eqn:Eh.
    apply csv_handle_result_frame in Eh as (F1 & F2 & F3 & F4 & F5 & F6 & F7 & F8).
    cbn in F1, F2, F3, F4, F5, F6, F8. apply Hsub in F8 as [F8 F9].
    destruct r as [[]|e]; simplify_eq; cbn; rewrite ?F5; split_and!; auto; try lia.
    right. split_and!; try done.
    rewrite (F7 e eq_refl). cbn. by rewrite lookup_insert_eq.
  - destruct (Hsub _ (changes_only_refl _ _)) as [F8 F9].
    simplify_eq. cbn. split_and!; auto; try lia.
    right. split_and!; try done. by rewrite lookup_insert_eq.
Qed.

Lemma _check_error_thresholds_spec s stop s' :
  _check_error_thresholds s = (stop, s') ->
  s' = set_total_429s (Client.rate_limit_hits (reddit_client s)) s
  /\ (stop = false ->
      consecutive_403s s < max_consecutive_403 s
      /\ Client.rate_limit_hits (reddit_client s) < max_total_429 s)
  /\ (stop = true ->
      max_consecutive_403 s <= consecutive_403s s
      \/ max_total_429 s <= Client.rate_limit_hits (reddit_client s)).
Proof.
  unfold _check_error_thresholds. cbn. intros H.
  destruct (max_consecutive_403 s <=? consecutive_403s s) eqn:E1;
    [|destruct (max_total_429 s <=? Client.rate_limit_hits (reddit_client s)) eqn:E2];
    simplify_eq; split_and!; try done; intros; try lia.
Qed.


Lemma csv_loop_spec w now_at row_limit rows :
  forall idx p s p' s',
    csv_loop w now_at idx row_limit rows p s = (p', s') ->
    csv_loop_result row_limit rows p s p' s'.
Proof.
  induction rows as [|row rest IH]; intros idx p s p' s' H.
  { cbn in H. simplify_eq.
    apply (csv_loop_ends 0%nat []); cbn; rewrite ?app_nil_r;
      auto; try lia; try done. by intros ? ?%elem_of_nil. }
  cbn [csv_loop] in H.
  assert (Hstop : forall s0, db s0 = db s -> (keep (row :: rest) p, s0) = (p', s') ->
            csv_loop_result row_limit (row :: rest) p s p' s').
  { intros s0 Hs0 E. simplify_eq.
    apply (csv_loop_ends 0%nat []); cbn; rewrite ?Hs0;
      auto; try lia; try done. by intros ? ?%elem_of_nil. }
  destruct (shutdown_requested s); [eapply Hstop; [|exact H]; reflexivity|].
  destruct (_check_error_thresholds s) as [stop s1] eqn:Ec.
  apply _check_error_thresholds_spec in Ec as (-> & _ & _).
  destruct stop; [eapply Hstop; [|exact H]; reflexivity|].
  destruct (row_limit <=? processed p) eqn:El; [eapply Hstop; [|exact H]; reflexivity|].
  apply Z.leb_gt in El.
  destruct (csv_item w (now_at idx) row p _) as [p1 s2] eqn:Ei.
  apply csv_item_spec in Ei
    as (_ & _ & _ & _ & _ & _ & Hp & _ & _ & Hc & Hk & Hsub & Hnew).
  cbn [db set_total_429s] in Hsub, Hnew.
  apply IH in H as [k err Hk1 Hk2 Hk3 Hk4 Hk5 Hk6 Hk7 Hk8 Hk9 Hk10].
  assert (Hn : forall n, is_Some (db s' !! n) ->
            is_Some (db s !! n)
            \/ exists row0, row0 ∈ take (S k) (row :: rest) /\ n = csv_name row0).
  { intros n Hn. destruct (Hk10 n Hn) as [Hn'|(row0 & Hin & ->)].
    - destruct (Hnew n Hn') as [?| ->]; [by left|right].
      exists row. split; [|done]. cbn. left.
    - right. exists row0. split; [|done]. cbn. by right. }
  destruct Hk as [[Hr He]|(Hr & He & Hpend)].
  - apply (csv_loop_ends (S k) err); cbn [length drop take];
      rewrite ?Hk2, ?Hr; auto; try lia.
    + by apply sublist_cons.
    + by etransitivity.
  - apply (csv_loop_ends (S k) (row :: err)); cbn [length drop take];
      rewrite ?Hk2, ?Hr, <- ?app_assoc; auto; try lia.
    + by apply sublist_skip.
    + intros row0 [->|Hin]%elem_of_cons; [|by apply Hk8].
      eapply lookup_weaken_is_Some; [|exact Hk9]. by rewrite Hpend.
    + by etransitivity.
Qed.


(** *** Theorems on the list-file scan *)













(** The sort on a small file, and on one with a count that is no
    number. *)
Example sort_three_rows :
  sort_csv_rows decimal (load_rows three_rows)
  = Some [[("subreddit", "c"); ("subscribers", "70")];
          [("subreddit", "a"); ("subscribers", "5")];
          [("subreddit", "b"); ("subscribers", "")]]%string
  /\ run_csv_scan_file decimal forbidden_world (fun _ => run_time) bad_rows (scanner_on ∅)
     = None.
Proof. split; vm_compute; reflexivity. Qed.

(** [run_csv_scan] leaves every row the table held as it was: it only
    adds rows, and the rows it adds are named by rows of the list it went
    through.  A row of the list kept after an error is in the table when the
    scan ends. *)
Theorem run_csv_scan_keeps_table w now_at csv_rows s :
  let p := fst (run_csv_scan w now_at csv_rows s) in
  let s' := snd (run_csv_scan w now_at csv_rows s) in
  db s ⊆ db s'
  /\ (forall name, is_Some (db s' !! name) ->
        is_Some (db s !! name)
        \/ exists row, row ∈ csv_rows /\ name = csv_name row)
  /\ (Z.of_nat (length (rows_to_keep p)) = errors p ->
      forall row, row ∈ rows_to_keep p -> is_Some (db s' !! csv_name row)).
Proof.
  intros p s'. subst p s'. unfold run_csv_scan.
  destruct (csv_loop _ _ _ _ _ _ _) as [p s'] eqn:E.
  apply csv_loop_spec in E as [k err H1 H2 H3 H4 H5 H6 H7 H8 H9 H10].
  cbn in *. split_and!; [done| |].
  - intros n Hn. destruct (H10 n Hn) as [?|(row & Hin & ->)]; [by left|right].
    exists row. split; [|done]. by apply (subseteq_take k).
  - intros Hlen row Hin. apply H8.
    rewrite H2, length_app in Hlen.
    assert (drop k csv_rows = []) as Hd by (apply nil_length_inv; lia).
    by rewrite H2, Hd, app_nil_r in Hin.
Qed.

(** A row that [run_csv_scan] keeps because its item raised has been
    added to the table as pending.  Whenever the row is met again with that
    table, it is counted as a duplicate and dropped without a request. *)
Theorem csv_error_row_becomes_duplicate w now row p s p' s' :
  csv_item w now row p s = (p', s') ->
  errors p' <> errors p ->
  rows_to_keep p' = rows_to_keep p ++ [row]
  /\ db s' !! csv_name row = Some Database.pending_row
  /\ forall w2 now2 p2,
       csv_item w2 now2 row p2 s' = (incr_processed (incr_duplicates_removed p2), s').
Proof.
  intros H He.
  apply csv_item_spec in H
    as (_ & _ & _ & _ & _ & _ & _ & _ & _ & _ & [[_ ?]|(Hr & _ & Hdb)] & _);
    [done|].
  split_and!; [done|done|]. intros w2 now2 p2.
  unfold csv_item. fold (csv_name row). by rewrite Hdb.
Qed.

Lemma csv_loop_thresholds w now_at row_limit rows :
  forall idx p s p' s',
    csv_loop w now_at idx row_limit rows p s = (p', s') ->
    max_consecutive_403 s' = max_consecutive_403 s
    /\ max_total_429 s' = max_total_429 s
    /\ (consecutive_403s s' = consecutive_403s s \/ consecutive_403s s' = 0)
    /\ Client.rate_limit_hits (reddit_client s')
       <= Z.max (Client.rate_limit_hits (reddit_client s)) (max_total_429 s + 3)
    /\ Client.rate_limit_hits (reddit_client s)
       <= Client.rate_limit_hits (reddit_client s')
    /\ (shutdown_requested s = false -> shutdown_requested s' = true ->
        max_consecutive_403 s <= consecutive_403s s'
        \/ max_total_429 s <= Client.rate_limit_hits (reddit_client s')).
Proof.
  induction rows as [|row rest IH]; intros idx p s p' s' H.
  { cbn in H. simplify_eq. split_and!; auto; try lia; congruence. }
  cbn [csv_loop] in H.
  destruct (shutdown_requested s) eqn:Esh.
  { simplify_eq. split_and!; auto; try lia. }
  destruct (_check_error_thresholds s) as [stop s1] eqn:Ec.
  apply _check_error_thresholds_spec in Ec as (-> & Hgo & Hst).
  destruct stop.
  { simplify_eq. cbn. split_and!; auto; try lia. }
  destruct (Hgo eq_refl) as [G1 G2].
  destruct (row_limit <=? processed p).
  { simplify_eq. cbn. split_and!; auto; try lia; congruence. }
  destruct (csv_item w (now_at idx) row p _) as [p1 s2] eqn:Ei.
  apply csv_item_spec in Ei as (I1 & I2 & I3 & _ & I5 & I6 & _).
  cbn in I1, I2, I3, I5, I6.
  apply IH in H as (J1 & J2 & J3 & J4 & J5 & J6).
  rewrite I1 in J1. rewrite I2 in J2, J4.
  split_and!; auto; try lia;
    try (destruct J3 as [J3|J3]; [rewrite J3; exact I5|by right]).
  intros _ Hs'. rewrite I3, I1, I2, Esh in J6. by apply J6.
Qed.

(** In list-file mode the consecutive-forbidden counter is never
    incremented: started below its threshold, the scan ends below it, and
    when the scan asks for the shutdown itself, it is the count of 429
    answers that has reached its threshold.  That count ends at most three
    above the threshold, or where it started. *)
Theorem csv_scan_stops_only_on_429 w now_at csv_rows s :
  shutdown_requested s = false ->
  consecutive_403s s < max_consecutive_403 s ->
  0 < max_consecutive_403 s ->
  let s' := snd (run_csv_scan w now_at csv_rows s) in
  consecutive_403s s' < max_consecutive_403 s'
  /\ (shutdown_requested s' = true ->
      max_total_429 s <= Client.rate_limit_hits (reddit_client s'))
  /\ Client.rate_limit_hits (reddit_client s')
     <= Z.max (Client.rate_limit_hits (reddit_client s)) (max_total_429 s + 3).
Proof.
  intros Hsh Hc Hm s'. subst s'. unfold run_csv_scan.
  destruct (csv_loop _ _ _ _ _ _ _) as [p s'] eqn:E.
  apply csv_loop_thresholds in E as (J1 & J2 & J3 & J4 & J5 & J6). cbn.
  split_and!; [lia| |done].
  intros Hs'. destruct (J6 Hsh Hs'); lia.
Qed.

(** The limit of the list-file scan: [processed] never exceeds a
    positive limit; with a negative limit the scan processes nothing, keeps
    the whole list and leaves the table and the client as they were, while
    the refresh query treats the same limit as no limit. *)
Theorem run_csv_scan_limit w now_at csv_rows s n :
  limit s = Some n -> n <> 0 ->
  let p := fst (run_csv_scan w now_at csv_rows s) in
  let s' := snd (run_csv_scan w now_at csv_rows s) in
  processed p <= Z.max 0 n
  /\ (n < 0 ->
      rows_to_keep p = csv_rows /\ processed p = 0
      /\ db s' = db s /\ reddit_client s' = reddit_client s
      /\ forall days nsfw now store,
           Database.get_subreddits_for_update (Some n) days nsfw now store
           = Database.get_subreddits_for_update None days nsfw now store).
Proof.
  intros Hl Hn p s'. subst p s'. unfold run_csv_scan. rewrite Hl.
  destruct (n =? 0) eqn:E0; [lia|]. split.
  - destruct (csv_loop _ _ _ _ _ _ _) as [p s'] eqn:E.
    apply csv_loop_spec in E as [k err H1 H2 H3 H4 H5 H6 H7 H8 H9 H10].
    cbn in *. lia.
  - intros Hneg.
    assert (Hq : forall days nsfw now store,
              Database.get_subreddits_for_update (Some n) days nsfw now store
              = Database.get_subreddits_for_update None days nsfw now store).
    { intros. unfold Database.get_subreddits_for_update, Database.apply_limit.
      destruct (0 <? n) eqn:E; [lia|done]. }
    destruct csv_rows as [|row rest]; [by cbn|].
    cbn [csv_loop]. destruct (shutdown_requested s); [by cbn|].
    destruct (_check_error_thresholds s) as [stop s1] eqn:Ec.
    apply _check_error_thresholds_spec in Ec as (-> & _).
    destruct stop; [by cbn|].
    change (processed start) with 0.
    destruct (n <=? 0) eqn:E; [by cbn|lia].
Qed.


Lemma handle_result_frame now subreddit metadata status s r s' :
  handle_result now subreddit metadata status s = (r, s') ->
  max_consecutive_403 s' = max_consecutive_403 s
  /\ max_total_429 s' = max_total_429 s
  /\ shutdown_requested s' = shutdown_requested s
  /\ reddit_client s' = reddit_client s
  /\ changes_only subreddit (db s) (db s').
Proof.
  unfold handle_result. intros H.
  repeat case_match; simplify_eq; cbn; split_and!; auto; try done;
    changes_steps.
Qed.

(** One pass over an item: thresholds and stop flag untouched, at most
    four more 429 answers, and no row touched but the item's. *)
Lemma process_subreddit_spec w now subreddit s b s' :
  process_subreddit w now subreddit s = (b, s') ->
  max_consecutive_403 s' = max_consecutive_403 s
  /\ max_total_429 s' = max_total_429 s
  /\ shutdown_requested s' = shutdown_requested s
  /\ Client.rate_limit_hits (reddit_client s)
     <= Client.rate_limit_hits (reddit_client s')
     <= Client.rate_limit_hits (reddit_client s) + 4
  /\ changes_only subreddit (db s) (db s').
Proof.
  unfold process_subreddit. cbn [reddit_client set_db]. intros H.
  destruct (Client.get_subreddit_info w subreddit (reddit_client s))
    as [fetched c] eqn:Ef.
  apply get_subreddit_info_budget in Ef as (_ & Hhits & _).
  pose proof (changes_only_update_subreddit subreddit "processing" None None (db s))
    as Hfirst.
  destruct fetched as [[metadata status]|e].
  - destruct (handle_result now subreddit metadata status _) as [r s1] eqn:Eh.
    apply handle_result_frame in Eh as (F1 & F2 & F3 & F4 & F5).
    cbn in F1, F2, F3, F4, F5.
    destruct r as [v|e]; simplify_eq; cbn; rewrite ?F4; split_and!; auto;
      try lia.
    + by eapply changes_only_trans.
    + eapply changes_only_trans; [|apply changes_only_update_subreddit].
      by eapply changes_only_trans.
  - simplify_eq. cbn. split_and!; auto; try lia.
    eapply changes_only_trans; [exact Hfirst|apply changes_only_update_subreddit].
Qed.

Lemma run_loop_spec w now_at subreddits :
  forall idx s,
    let s' := run_loop w now_at idx subreddits s in
    max_consecutive_403 s' = max_consecutive_403 s
    /\ max_total_429 s' = max_total_429 s
    /\ Client.rate_limit_hits (reddit_client s)
       <= Client.rate_limit_hits (reddit_client s')
       <= Z.max (Client.rate_limit_hits (reddit_client s)) (max_total_429 s + 3)
    /\ (forall n, is_Some (db s' !! n) -> is_Some (db s !! n))
    /\ (forall n, n ∉ subreddits -> n ∉ Database.lower <$> subreddits ->
          db s' !! n = db s !! n).
Proof.
  induction subreddits as [|subreddit rest IH]; intros idx s; cbn zeta.
  { cbn. split_and!; auto; lia. }
  cbn [run_loop].
  destruct (shutdown_requested s) eqn:Esh; [split_and!; auto; lia|].
  destruct (_check_error_thresholds s) as [stop s1] eqn:Ec.
  apply _check_error_thresholds_spec in Ec as (-> & Hgo & _).
  destruct stop; [cbn; split_and!; auto; lia|].
  destruct (Hgo eq_refl) as [G1 G2].
  destruct (process_subreddit w (now_at idx) subreddit _) as [b s2] eqn:Ep.
  apply process_subreddit_spec in Ep as (P1 & P2 & P3 & P4 & [P5 P6]).
  cbn in P1, P2, P3, P4, P5, P6.
  assert (Hframe : forall n, n ∉ subreddit :: rest ->
            n ∉ Database.lower <$> subreddit :: rest -> db s2 !! n = db s !! n).
  { intros n Hn Hl. rewrite fmap_cons in Hl.
    apply not_elem_of_cons in Hn as [? _]. apply not_elem_of_cons in Hl as [? _].
    by apply P5. }
  destruct (_check_error_thresholds s2) as [stop s3] eqn:Ec2.
  apply _check_error_thresholds_spec in Ec2 as (-> & _ & _).
  destruct stop; [cbn; split_and!; auto; lia|].
  specialize (IH (S idx) (set_total_429s (Client.rate_limit_hits (reddit_client s2)) s2)).
  cbn zeta in IH. destruct IH as (J1 & J2 & J3 & J4 & J5).
  cbn in J1, J2, J3, J4, J5. rewrite P2 in J3.
  split_and!; auto; try lia; try congruence.
  intros n Hn Hl. rewrite J5, Hframe; auto.
    + by apply not_elem_of_cons in Hn as [_ ?].
    + rewrite fmap_cons in Hl. by apply not_elem_of_cons in Hl as [_ ?].
Qed.

(** A refresh pass never adds a row to the table, and it leaves every
    row untouched whose name is not on its work list. *)
Theorem refresh_pass_frame w now_at idx subreddits s :
  let s' := run_loop w now_at idx subreddits s in
  (forall name, is_Some (db s' !! name) -> is_Some (db s !! name))
  /\ (forall name, name ∉ subreddits -> name ∉ Database.lower <$> subreddits ->
        db s' !! name = db s !! name).
Proof.
  intros s'. subst s'.
  destruct (run_loop_spec w now_at subreddits idx s) as (_ & _ & _ & H1 & H2).
  by split.
Qed.

(** The count of 429 answers at the end of a refresh pass is at most
    three above the threshold [max_total_429], unless it started higher:
    once the threshold is reached no further item is fetched, and one item
    costs at most four 429 answers. *)
Theorem refresh_pass_rate_limit_hits w now_at idx subreddits s :
  let s' := run_loop w now_at idx subreddits s in
  Client.rate_limit_hits (reddit_client s)
  <= Client.rate_limit_hits (reddit_client s')
  <= Z.max (Client.rate_limit_hits (reddit_client s)) (max_total_429 s + 3).
Proof.
  intros s'. subst s'.
  by destruct (run_loop_spec w now_at subreddits idx s) as (_ & _ & H & _).
Qed.


Lemma lookup_update_subreddit name st msg col (store : Database.table) :
  Database.lower name = name ->
  Database.update_subreddit name st msg col store !! name
  = Database.set_processing_fields st msg col <$> store !! name.
Proof.
  intros Hl. unfold Database.update_subreddit. rewrite Hl.
  by rewrite lookup_alter_eq.
Qed.

Lemma lookup_update_subreddit_status name st msg (store : Database.table) :
  Database.lower name = name ->
  exists a, Database.update_subreddit_status name st msg store !! name
            = Database.set_status_fields st a msg <$> store !! name.
Proof.
  intros Hl. unfold Database.update_subreddit_status. rewrite Hl.
  eexists. by rewrite lookup_alter_eq.
Qed.

Lemma lookup_update_retry_count name k (store : Database.table) :
  Database.update_retry_count name k store !! name
  = Database.set_retry_count (Some k) <$> store !! name.
Proof. unfold Database.update_retry_count. by rewrite lookup_alter_eq. Qed.

Lemma lookup_delete_subreddit name (store : Database.table) :
  Database.delete_subreddit name store !! name = None.
Proof. unfold Database.delete_subreddit. by rewrite lookup_delete_eq. Qed.

(** The status of the item's row after one refresh pass over it. *)
Lemma process_subreddit_status w now subreddit s r :
  Database.lower subreddit = subreddit ->
  db (snd (process_subreddit w now subreddit s)) !! subreddit = Some r ->
  Database.status r = "active"%string ->
  exists metadata,
    fst (Client.get_subreddit_info w subreddit (reddit_client s))
    = Client.Returns (metadata, "active"%string).
Proof.
  intros Hl. unfold process_subreddit. cbn [reddit_client set_db].
  destruct (Client.get_subreddit_info w subreddit (reddit_client s))
    as [[[metadata status]|e] c] eqn:Ef; cbn [fst].
  2:{ cbn. rewrite !lookup_update_subreddit by done.
      destruct (db s !! subreddit); cbn; intros; simplify_eq. }
  unfold handle_result.
  destruct (String.eqb status "active") eqn:Est.
  { apply String.eqb_eq in Est as ->. intros _ _. by eexists. }
  cbn [andb].
  repeat case_match; simplify_eq; cbn;
    rewrite ?lookup_update_subreddit, ?lookup_update_retry_count,
      ?lookup_delete_subreddit, ?lookup_update_subreddit by done.
  all: try (intros; simplify_eq; fail).
  all: try (destruct (db s !! subreddit); cbn; intros; simplify_eq; fail).
  destruct (lookup_update_subreddit_status subreddit status None
              (Database.update_subreddit subreddit "processing" None None (db s)) Hl)
    as [a ->].
  rewrite lookup_update_subreddit by done.
  destruct (db s !! subreddit); cbn; intros ? Hst; simplify_eq.
  cbn in Hst. subst status. done.
Qed.

(** An item whose fetch is not classified active is on no later work
    list, whatever the limit, the staleness horizon and the time of the
    query: the row is deleted, or left with a status other than [active],
    and the work list is drawn from the active rows only. *)
Theorem refresh_not_active_leaves_work_list w now subreddit s :
  Database.lower subreddit = subreddit ->
  (forall metadata,
     fst (Client.get_subreddit_info w subreddit (reddit_client s))
     <> Client.Returns (metadata, "active"%string)) ->
  forall lim days nsfw now',
    subreddit ∉ Database.get_subreddits_for_update lim days nsfw now'
                  (db (snd (process_subreddit w now subreddit s))).
Proof.
  intros Hl Hfetch lim days nsfw now' Hin.
  apply get_subreddits_for_update_active in Hin as (r & Hr & Hst).
  destruct (process_subreddit_status w now subreddit s r Hl Hr Hst) as [m Hm].
  by apply (Hfetch m).
Qed.


Lemma get_subreddits_for_update_needs lim days nsfw now (store : Database.table) name :
  name ∈ Database.get_subreddits_for_update lim days nsfw now store ->
  exists r, store !! name = Some r
            /\ Database.needs_update (now - days * 24 * 60 * 60) nsfw r = true.
Proof.
  unfold Database.get_subreddits_for_update. intros H.
  apply list_elem_of_fmap in H as ([k r] & -> & H).
  apply elem_of_apply_limit in H. rewrite merge_sort_Permutation in H.
  apply list_elem_of_filter in H as [Hneed Hin].
  apply elem_of_map_to_list in Hin. by exists r.
Qed.

Lemma metadata_update_columns_set fields now r r1 :
  Database.metadata_update fields now r = Some r1 ->
  Database.status r1 = "active"%string
  /\ Database.is_accessible r1 = 1
  /\ Database.last_updated r1 = Some now
  /\ Database.retry_count r1 = Database.retry_count r
  /\ Database.error_message r1 = None
  /\ Database.metadata_collected r1 = Database.metadata_collected r.
Proof.
  unfold Database.metadata_update. intros H.
  repeat (apply bind_Some in H as (? & _ & H)). by simplify_eq.
Qed.

Lemma lookup_update_subreddit_metadata name fields now (store : Database.table) r r1 :
  Database.lower name = name ->
  store !! name = Some r ->
  Database.metadata_update fields now r = Some r1 ->
  (Database.update_subreddit_metadata name fields now store).2 !! name = Some r1.
Proof.
  intros Hl Hr Hm. unfold Database.update_subreddit_metadata.
  rewrite Hl, Hr, Hm. cbn. by rewrite lookup_insert_eq.
Qed.

(** An item whose fetch is classified active, with metadata the table
    accepts and a subscriber count that is a number, ends with status
    [active], the time of the pass as [last_updated], retry count 0 and no
    error message; it is on no work list as long as the staleness horizon
    has not passed since the pass. *)
Theorem refresh_active_item w now subreddit s r fields c' r1 :
  Database.lower subreddit = subreddit ->
  db s !! subreddit = Some r ->
  Client.get_subreddit_info w subreddit (reddit_client s)
  = (Client.Returns (JObj fields, "active"%string), c') ->
  truthy (JObj fields) = true ->
  is_user_profile (JObj fields) = Some false ->
  formats_as_number (subscribers_of fields) = true ->
  Database.metadata_update fields now
    (Database.set_processing_fields "processing" None None r) = Some r1 ->
  let s' := snd (process_subreddit w now subreddit s) in
  fst (process_subreddit w now subreddit s) = true
  /\ (exists r',
        db s' !! subreddit = Some r'
        /\ Database.data r' = Database.data r1
        /\ Database.status r' = "active"%string
        /\ Database.is_accessible r' = 1
        /\ Database.last_updated r' = Some now
        /\ Database.retry_count r' = Some 0
        /\ Database.error_message r' = None
        /\ Database.metadata_collected r' = true)
  /\ forall lim days nsfw now',
       now' - days * 24 * 60 * 60 <= now ->
       subreddit ∉ Database.get_subreddits_for_update lim days nsfw now' (db s').
Proof.
  intros Hl Hr Hf Ht Hu Hn Hm s'.
  assert (Hrow : fst (process_subreddit w now subreddit s) = true
    /\ exists r',
     db s' !! subreddit = Some r'
     /\ Database.data r' = Database.data r1
     /\ Database.status r' = "active"%string
     /\ Database.is_accessible r' = 1
     /\ Database.last_updated r' = Some now
     /\ Database.retry_count r' = Some 0
     /\ Database.error_message r' = None
     /\ Database.metadata_collected r' = true).
  { subst s'. unfold process_subreddit. cbn [reddit_client set_db]. rewrite Hf.
    unfold handle_result. rewrite Hu, Ht, Hn.
    change (String.eqb "active" "active") with true. cbn.
    split; [done|].
    rewrite lookup_update_retry_count, lookup_update_subreddit by done.
    erewrite lookup_update_subreddit_metadata; [|done| |exact Hm].
    2:{ by rewrite lookup_update_subreddit, Hr. }
    apply metadata_update_columns_set in Hm as (M1 & M2 & M3 & M4 & M5 & M6).
    eexists. split; [reflexivity|]. cbn. split_and!; done. }
  destruct Hrow as [Hb Hrow].
  split; [exact Hb|]. split; [exact Hrow|].
  destruct Hrow as (r' & Hr' & _ & _ & _ & Hlast & _).
  intros lim days nsfw now' Hnow Hin.
  apply get_subreddits_for_update_needs in Hin as (r2 & Hr2 & Hneed).
  rewrite Hr' in Hr2. simplify_eq.
  unfold Database.needs_update in Hneed. rewrite Hlast in Hneed.
  apply andb_true_iff in Hneed as [Hneed _].
  apply andb_true_iff in Hneed as [_ Hneed]. apply Z.ltb_lt in Hneed. lia.
Qed.

(** [run] always returns: the interleaving does not run out of
    fuel on the work list, which has no duplicates.  The items are processed
    in an order that is a rearrangement of the work list drawn from the
    table after the consistency fix; a list of more than two items is
    interleaved, priority items at the even positions and random picks at
    the odd ones, a shorter one is taken as it is. *)
Theorem run_processes_work_list w now now_at choice s :
  let fixed := snd (Database.fix_inconsistent_states (db s)) in
  let work :=
    Database.get_subreddits_for_update (limit s) 30 (nsfw_only s) now fixed in
  exists out,
    run w now now_at choice s = Some (run_loop w now_at 0 out (set_db fixed s))
    /\ out ≡ₚ work /\ NoDup out
    /\ ((2 < length work)%nat -> alternates work choice out)
    /\ ((length work <= 2)%nat -> out = work).
Proof.
  intros fixed work.
  assert (Hnd : NoDup work) by apply get_subreddits_for_update_NoDup.
  assert (Hrun : forall out, _interleave_with_random choice work = Some out ->
            run w now now_at choice s
            = Some (run_loop w now_at 0 out (set_db fixed s))).
  { intros out Hout. unfold run.
    destruct (Database.fix_inconsistent_states (db s)) as [counts fixed'] eqn:Ef.
    subst work fixed. cbn [snd] in *. cbn [limit nsfw_only db set_db].
    by rewrite Hout. }
  destruct (decide (2 < length work)%nat) as [Hlen|Hlen].
  - destruct (interleave_spec choice work Hlen Hnd) as (out & Hout & Hperm & Halt).
    exists out. split_and!; [by apply Hrun|done|by rewrite Hperm|done|lia].
  - assert (Hout : _interleave_with_random choice work = Some work).
    { unfold _interleave_with_random.
      destruct (length work <=? 2)%nat eqn:E; [done|]. apply Nat.leb_gt in E. lia. }
    exists work. split_and!; [by apply Hrun|done|done|lia|done].
Qed.

End ScannerExtra.

Lemma csv_error_row_becomes_duplicate_witness :
  Scanner.rows_to_keep
    (fst (Scanner.csv_item world_text_subscribers run_time csv_row_x Scanner.start
            (scanner_on ∅)))
  = [csv_row_x]
  /\ Scanner.db
       (snd (Scanner.csv_item world_text_subscribers run_time csv_row_x Scanner.start
               (scanner_on ∅))) !! "x"%string
     = Some Database.pending_row.
Proof.
  destruct (csv_error_row_becomes_duplicate world_text_subscribers run_time
              csv_row_x Scanner.start (scanner_on ∅)
              (fst (Scanner.csv_item world_text_subscribers run_time csv_row_x
                      Scanner.start (scanner_on ∅)))
              (snd (Scanner.csv_item world_text_subscribers run_time csv_row_x
                      Scanner.start (scanner_on ∅))))
    as (H1 & H2 & _).
  - apply surjective_pairing.
  - vm_compute. discriminate.
  - split; [exact H1|exact H2].
Defined.

Lemma csv_scan_stops_only_on_429_witness :
  Scanner.consecutive_403s
    (snd (Scanner.run_csv_scan forbidden_world (fun _ => run_time) [csv_row_x]
            (scanner_on ∅)))
  < Scanner.max_consecutive_403
      (snd (Scanner.run_csv_scan forbidden_world (fun _ => run_time) [csv_row_x]
              (scanner_on ∅))).
Proof.
  destruct (csv_scan_stops_only_on_429 forbidden_world (fun _ => run_time)
              [csv_row_x] (scanner_on ∅)) as (H & _).
  - reflexivity.
  - vm_compute. reflexivity.
  - vm_compute. reflexivity.
  - exact H.
Defined.

Lemma run_csv_scan_limit_witness :
  Scanner.rows_to_keep
    (fst (Scanner.run_csv_scan forbidden_world (fun _ => run_time) [csv_row_x]
            negative_limit_scanner))
  = [csv_row_x]
  /\ Scanner.processed
       (fst (Scanner.run_csv_scan forbidden_world (fun _ => run_time) [csv_row_x]
               negative_limit_scanner))
     = 0.
Proof.
  destruct (run_csv_scan_limit forbidden_world (fun _ => run_time) [csv_row_x]
              negative_limit_scanner (-1)) as (_ & H).
  - reflexivity.
  - discriminate.
  - destruct H as (H1 & H2 & _); [vm_compute; reflexivity|].
    split; [exact H1|exact H2].
Defined.

Lemma refresh_not_active_leaves_work_list_witness :
  "x"%string ∉ Database.get_subreddits_for_update None 30 false (run_time + 1)
                 (Scanner.db
                    (snd (Scanner.process_subreddit forbidden_world run_time "x"
                            (scanner_on refresh_store)))).
Proof.
  apply (refresh_not_active_leaves_work_list forbidden_world run_time "x"
           (scanner_on refresh_store)).
  - reflexivity.
  - intros metadata. vm_compute. discriminate.
Defined.

Lemma refresh_active_item_witness :
  "x"%string ∉ Database.get_subreddits_for_update None 30 false
                 (run_time + 29 * 24 * 60 * 60)
                 (Scanner.db
                    (snd (Scanner.process_subreddit world_ok run_time "x"
                            (scanner_on refresh_store)))).
Proof.
  destruct (refresh_active_item world_ok run_time "x" (scanner_on refresh_store)
              active_row [("subscribers"%string, JNum 5000)]
              (snd (Client.get_subreddit_info world_ok "x" authed_client))
              refreshed_row) as (_ & _ & H).
  - reflexivity.
  - vm_compute. reflexivity.
  - vm_compute. reflexivity.
  - reflexivity.
  - vm_compute. reflexivity.
  - reflexivity.
  - vm_compute. reflexivity.
  - apply H. vm_compute. discriminate.
Defined.

(** ** Configuration *)

Section ConfigProperties.
Import Config.

Lemma from_env_fields env c :
  from_env env = inr c ->
  c !! "rate_limit_per_minute"%string = Some (VInt 60)
  /\ c !! "rate_limit_per_10s"%string = Some (VInt 12)
  /\ c !! "rate_limit_per_1s"%string = Some (VInt 2)
  /\ c !! "subreddit_cooldown"%string = Some (VInt 2)
  /\ c !! "max_retries"%string = Some (VInt 3)
  /\ (exists p, c !! "db_path"%string = Some (VStr p))
  /\ (exists p, c !! "log_dir"%string = Some (VStr p)).
Proof.
  unfold from_env. intros H.
  repeat case_match; simplify_eq.
  split_and!; try reflexivity; eexists; reflexivity.
Qed.

(** With the file's defaults, [--rate-limit n] is accepted from 12 on:
    the flag sets the per-minute capacity only, and [validate] compares it
    with the ten-second capacity, which stays at 12. *)
Theorem rate_limit_flag_needs_twelve env c fs n :
  from_env env = inr c ->
  (forall path, fs path = None) ->
  let c' := update_from_args [("rate_limit_per_minute"%string, VInt n)] c in
  (validate fs c' = Valid <-> 12 <= n)
  /\ (n < 1 -> validate fs c' = ValueError "rate_limit_per_minute must be >= 1")
  /\ (1 <= n < 12 ->
      validate fs c'
      = ValueError "rate_limit_per_10s cannot exceed rate_limit_per_minute").
Proof.
  intros Henv Hfs c'.
  apply from_env_fields in Henv as (H1 & H2 & H3 & H4 & H5 & [p Hp] & [q Hq]).
  assert (Hc' : c' = <["rate_limit_per_minute"%string := VInt n]> c).
  { subst c'. cbn. unfold hasattr. rewrite H1.
    rewrite bool_decide_eq_true_2 by (by eexists). done. }
  assert (V : validate fs c'
              = if Qlt_bool (inject_Z n) (inject_Z 1)
                then ValueError "rate_limit_per_minute must be >= 1"
                else if Qlt_bool (inject_Z n) (inject_Z 12)
                     then ValueError "rate_limit_per_10s cannot exceed rate_limit_per_minute"
                     else Valid).
  { unfold validate. rewrite Hc'. rewrite lookup_insert_eq.
    rewrite !lookup_insert_ne by done. rewrite H2, H3, H4, H5, Hp, Hq.
    unfold check_lt, check_path, py_lt, number. rewrite !Hfs.
    destruct (Qlt_bool (inject_Z n) (inject_Z 1)); [done|].
    destruct (Qlt_bool (inject_Z n) (inject_Z 12)); [done|].
    reflexivity. }
  rewrite V.
  destruct (Qlt_bool (inject_Z n) (inject_Z 1)) eqn:E1;
    [apply Qlt_bool_iff in E1; rewrite <- Zlt_Qlt in E1
    |apply not_true_iff_false in E1; rewrite Qlt_bool_iff, <- Zlt_Qlt in E1];
    (destruct (Qlt_bool (inject_Z n) (inject_Z 12)) eqn:E2;
     [apply Qlt_bool_iff in E2; rewrite <- Zlt_Qlt in E2
     |apply not_true_iff_false in E2; rewrite Qlt_bool_iff, <- Zlt_Qlt in E2]);
    split_and!; try (split; intros; first [done|lia]); intros; first [done|lia].
Qed.

Lemma check_lt_Valid a b message rest :
  check_lt a b message rest = Valid ->
  rest = Valid /\ exists x y, a = Some x /\ b = Some y /\ py_lt x y = Some false.
Proof.
  unfold check_lt. intros H. repeat case_match; simplify_eq.
  split; [done|]. by eexists _, _.
Qed.

Lemma py_lt_int x y : py_lt (VInt x) (VInt y) = Some (bool_decide (x < y)).
Proof.
  unfold py_lt, number. f_equal.
  destruct (Qlt_bool (inject_Z x) (inject_Z y)) eqn:E.
  - apply Qlt_bool_iff in E. rewrite <- Zlt_Qlt in E.
    by rewrite bool_decide_eq_true_2.
  - apply not_true_iff_false in E. rewrite Qlt_bool_iff, <- Zlt_Qlt in E.
    by rewrite bool_decide_eq_false_2.
Qed.

(** [validate] orders the three capacities and bounds the largest from
    below, but not the smallest: on a validated configuration the first
    [acquire] of the limiter built from it raises [IndexError] exactly when
    [rate_limit_per_1s] is below 1. *)
Theorem validated_limiter fs c l timeout t0 t1 t2 t3 t4 clock :
  validate fs c = Valid ->
  rate_limiter_of c = Some l ->
  1 <= RateLimiter.requests_per_minute l
  /\ RateLimiter.requests_per_10s l <= RateLimiter.requests_per_minute l
  /\ RateLimiter.requests_per_1s l <= RateLimiter.requests_per_10s l
  /\ (fst (RateLimiter.acquire timeout (l, t0 :: t1 :: t2 :: t3 :: t4 :: clock))
      = RateLimiter.IndexError
      <-> RateLimiter.requests_per_1s l < 1).
Proof.
  intros Hv Hl. unfold rate_limiter_of in Hl.
  destruct (c !! "rate_limit_per_minute"%string) as [[| |a| |]|] eqn:Ea; try done.
  destruct (c !! "rate_limit_per_10s"%string) as [[| |b| |]|] eqn:Eb; try done.
  destruct (c !! "rate_limit_per_1s"%string) as [[| |d| |]|] eqn:Ed; try done.
  simplify_eq. unfold validate in Hv. rewrite Ea, Eb, Ed in Hv.
  apply check_lt_Valid in Hv as (Hv & x & y & ? & ? & H1). simplify_eq.
  apply check_lt_Valid in Hv as (Hv & x & y & ? & ? & H2). simplify_eq.
  apply check_lt_Valid in Hv as (Hv & x & y & ? & ? & H3). simplify_eq.
  rewrite py_lt_int in H1, H2, H3.
  injection H1 as H1. injection H2 as H2. injection H3 as H3.
  apply bool_decide_eq_false in H1, H2, H3.
  unfold RateLimiter.init at 1 2 3 4 5.
  cbn [RateLimiter.requests_per_minute RateLimiter.requests_per_10s
       RateLimiter.requests_per_1s].
  split_and!; try lia. split.
  - intros Hraise. destruct (decide (d < 1)) as [|Hd]; [done|]. exfalso.
    refine (acquire_no_error timeout (RateLimiter.init a b d) _ _ Hraise).
    unfold positive_capacities. cbn. lia.
  - intros Hd.
    apply (acquire_first_raises timeout (RateLimiter.init a b d)).
    unfold positive_capacities. cbn in *. intros (? & ? & ?). lia.
Qed.

End ConfigProperties.

Lemma rate_limit_flag_needs_twelve_witness :
  Config.validate empty_fs
    (Config.update_from_args [("rate_limit_per_minute"%string, Config.VInt 10)]
       (Config.cls "id" "secret" "user" "password" (Config.user_agent_for "user")
          "subreddit_scanner.db" "logs" "INFO"))
  = Config.ValueError "rate_limit_per_10s cannot exceed rate_limit_per_minute".
Proof.
  destruct (rate_limit_flag_needs_twelve credentials
              (Config.cls "id" "secret" "user" "password" (Config.user_agent_for "user")
                 "subreddit_scanner.db" "logs" "INFO")
              empty_fs 10) as (_ & _ & H).
  - vm_compute. reflexivity.
  - reflexivity.
  - apply H. lia.
Defined.

Lemma validated_limiter_witness :
  fst (RateLimiter.acquire None
         (RateLimiter.init 60 12 2, [0; 0; 0; 0; 0; 0]%Q))
  <> RateLimiter.IndexError.
Proof.
  destruct (validated_limiter empty_fs
              (Config.cls "id" "secret" "user" "password" (Config.user_agent_for "user")
                 "subreddit_scanner.db" "logs" "INFO")
              (RateLimiter.init 60 12 2) None 0%Q 0%Q 0%Q 0%Q 0%Q [0%Q])
    as (_ & _ & _ & H).
  - vm_compute. reflexivity.
  - vm_compute. reflexivity.
  - intros Hraise. apply H in Hraise. vm_compute in Hraise. discriminate Hraise.
Defined.
